(** * DyorScan code analyzer: a shallow embedding of the repository core

    The development follows the JavaScript sources of the code analyzer:
    the route handlers of [api/code-analyzer] (fetch, scan, chat), the
    GitHub helpers (tree construction, rendering, batched fetching), the
    OpenAI helpers (file selection), the token helpers (context assembly)
    and the pattern scanner of [src/lib/code-analyzer/security.js].

    Conventions.
    - A JavaScript string is the list of its UTF-16 code units ([jsstring]);
      [length] is the JavaScript [.length].
    - Remote collaborators (the source host, the language model) are
      functions handed to the operations that call them.
    - Runtime functions that are not written out ([toLowerCase],
      [localeCompare], [JSON.parse], ...) are the fields of the class
      [Runtime]. *)

From Stdlib Require Import ZArith NArith List Ascii String DecimalString DecimalPos
  DecimalN Lia Permutation.
From stdpp Require Import base decidable list gmap.
Import ListNotations.

Local Open Scope N_scope.
Set Warnings "-register-all,-clear-no-such-hyp".

(* ===================================================================== *)
(** ** JavaScript strings *)
(* ===================================================================== *)

Definition char := N.
Definition jsstring := list char.

(** ASCII literal to code units. *)
Definition str (s : string) : jsstring :=
  List.map N_of_ascii (list_ascii_of_string s).
Arguments str _%_string.

Definition NL : char := 10.         (* line feed *)
Definition CR : char := 13.
Definition DQUOTE : char := 34.     (* the double quote *)
Definition SQUOTE : char := 39.     (* the single quote *)
Definition DOT : char := 46.
Definition TEE : char := 9500.      (* U+251C, box drawing vertical and right *)
Definition ELL : char := 9492.      (* U+2514, box drawing up and right *)
Definition DASH : char := 9472.     (* U+2500, box drawing horizontal *)
Definition PIPE : char := 9474.     (* U+2502, box drawing vertical *)

Definition streq (a b : jsstring) : bool := bool_decide (a = b).

(** [arr.includes(x)] on an array of strings. *)
Definition includesStr (arr : list jsstring) (x : jsstring) : bool :=
  existsb (streq x) arr.

(** [s.split("\n")]: always at least one piece. *)
Fixpoint splitLines (s : jsstring) : list jsstring :=
  match s with
  | [] => [[]]
  | c :: rest =>
      if N.eqb c NL then [] :: splitLines rest
      else match splitLines rest with
           | [] => [[c]]
           | l :: ls => (c :: l) :: ls
           end
  end.

(** [parts.join(sep)]. *)
Fixpoint join (sep : jsstring) (parts : list jsstring) : jsstring :=
  match parts with
  | [] => []
  | [p] => p
  | p :: ps => p ++ sep ++ join sep ps
  end.

(** [s.startsWith(p)]. *)
Fixpoint startsWith (p s : jsstring) : bool :=
  match p, s with
  | [], _ => true
  | _ :: _, [] => false
  | a :: p', b :: s' => N.eqb a b && startsWith p' s'
  end.

(** [hay.includes(needle)]: substring test. *)
Fixpoint includes (hay needle : jsstring) : bool :=
  startsWith needle hay ||
  match hay with
  | [] => false
  | _ :: hay' => includes hay' needle
  end.

(** [s.lastIndexOf(c)] for a one-character needle; [-1] when absent. *)
Fixpoint lastIndexOfFrom (c : char) (s : jsstring) (i : Z) (found : Z) : Z :=
  match s with
  | [] => found
  | d :: s' => lastIndexOfFrom c s' (i + 1)%Z (if N.eqb d c then i else found)
  end.
Definition lastIndexOf (c : char) (s : jsstring) : Z := lastIndexOfFrom c s 0%Z (-1)%Z.

(** [s.substring(i)]: a negative start is clamped to 0. *)
Definition substring (s : jsstring) (i : Z) : jsstring := drop (Z.to_nat i) s.

(** [s.slice(0, n)] for a string, with JavaScript's treatment of a negative
    end (counted from the end of the string). *)
Definition sliceTo (s : jsstring) (n : Z) : jsstring :=
  if (n <? 0)%Z then take (Z.to_nat (Z.of_nat (length s) + n)) s
  else take (Z.to_nat n) s.

(** [String(n)] of a non-negative integer. *)
Definition numToString (n : N) : jsstring :=
  str (NilZero.string_of_uint (N.to_uint n)).

(** Values of [JSON.parse]. A number is kept as the text [String(n)] gives for it. *)
Inductive json :=
| JNull
| JBool (b : bool)
| JNum (text : jsstring)
| JStr (s : jsstring)
| JArr (elems : list json)
| JObj (fields : list (jsstring * json)).

(** [obj.name] on a parsed value: [None] is [undefined]; reading a property
    of [null] throws and is handled by the caller. In an object the last
    binding of a repeated key wins. *)
Fixpoint lookupField (name : jsstring) (fields : list (jsstring * json)) : option json :=
  match fields with
  | [] => None
  | (k, v) :: rest =>
      match lookupField name rest with
      | Some w => Some w
      | None => if streq k name then Some v else None
      end
  end.

(** Functions of the JavaScript runtime that are not written out here. *)
Class Runtime := {
  toLowerCase : jsstring -> jsstring;
  localeCompare : jsstring -> jsstring -> Z;
  (** [Math.round(10 + (i / n) * 30)] in double arithmetic *)
  fetchProgress : nat -> nat -> Z;
  (** [Date.now()] *)
  now : N;
  (** [JSON.parse(text)]; [None] when it throws *)
  parseJSON : jsstring -> option json;
  (** The order [Array.prototype.sort] leaves an array in when the
      comparator is not a consistent comparison of its elements, which the
      language standard leaves to the engine: from the comparator on the
      positions of the array and the number of elements, a rank for each
      position. *)
  sortRanks : (nat -> nat -> Z) -> nat -> list nat
}.

(** A runtime for ASCII text, used to run the definitions on examples. *)
Definition asciiLower (c : char) : char :=
  if (65 <=? c) && (c <=? 90) then c + 32 else c.
Fixpoint asciiCompare (a b : jsstring) : Z :=
  match a, b with
  | [], [] => 0%Z
  | [], _ :: _ => (-1)%Z
  | _ :: _, [] => 1%Z
  | x :: a', y :: b' =>
      if x <? y then (-1)%Z else if y <? x then 1%Z else asciiCompare a' b'
  end.
Definition asciiRuntime : Runtime :=
  {| toLowerCase := List.map asciiLower;
     localeCompare := asciiCompare;
     fetchProgress i n := (10 + (60 * Z.of_nat i + Z.of_nat n) / (2 * Z.of_nat n))%Z;
     now := 0;
     parseJSON := fun _ => None;
     sortRanks := fun _ _ => [] |}.

(* ===================================================================== *)
(** ** Findings: deduplication, final filter, grouping *)
(* ===================================================================== *)

Record Finding := mkFinding {
  f_id : jsstring;
  f_file : jsstring;
  f_line : N;
  f_type : jsstring;
  f_severity : jsstring;
  f_title : jsstring;
  f_description : jsstring;
  f_fix : jsstring;
  f_match : option jsstring;
  f_snippet : option jsstring;
  f_confidence : jsstring;
  f_source : option jsstring
}.

(** The key [`${f.file}:${f.line}:${f.title}`]. *)
Definition findingKey (f : Finding) : jsstring :=
  f_file f ++ str ":" ++ numToString (f_line f) ++ str ":" ++ f_title f.

(** The three fields the key is made of. *)
Definition findingTriple (f : Finding) : jsstring * N * jsstring :=
  (f_file f, f_line f, f_title f).

(** The text holds no colon. *)
Definition colonFree (s : jsstring) : bool := forallb (fun c => negb (N.eqb c 58)) s.

(** [findings.filter(f => { if (seen.has(key)) return false;
    seen.add(key); return true; })] with [seen] the set captured by the
    callback. *)
Fixpoint dedupLoop (seen : gset jsstring) (findings : list Finding) : list Finding :=
  match findings with
  | [] => []
  | f :: rest =>
      let key := findingKey f in
      if bool_decide (key ∈ seen) then dedupLoop seen rest
      else f :: dedupLoop ({[key]} ∪ seen) rest
  end.

(* ===================================================================== *)
(** ** Regular expressions of the rule tables

    The rule tables use a small fragment of JavaScript regular expressions:
    literals, character classes, alternation, optional groups, greedy
    repetition of a character class and the word boundary.  The matcher
    follows the backtracking semantics of the language standard: a pattern
    is run against the text with a continuation, and a choice point retries
    its next alternative when the continuation fails.

    The flag [i] is written into the character predicates: without the flag
    [u], a character of the text matches an ASCII letter of the pattern
    only when it is that letter in either case, and classes that hold no
    letter are unchanged. *)
(* ===================================================================== *)

Inductive regex :=
| Eps
| Cls (p : char -> bool)
| Seq (r1 r2 : regex)
| Alt (r1 r2 : regex)
| Opt (r : regex)
| RepMin (p : char -> bool) (n : nat)
| WordB
| Eol.

Definition inRange (lo hi c : char) : bool := (lo <=? c) && (c <=? hi).
Definition oneOf (cs : list char) (c : char) : bool := existsb (N.eqb c) cs.

(** [\s]: white space and line terminators. *)
Definition isSpace (c : char) : bool :=
  inRange 9 13 c
  || oneOf [32; 160; 5760; 8232; 8233; 8239; 8287; 12288; 65279] c
  || inRange 8192 8202 c.

(** [.] without the flag [s]: any character but a line terminator. *)
Definition notLineTerminator (c : char) : bool :=
  negb (oneOf [10; 13; 8232; 8233] c).

(** [\w], used by [\b]. *)
Definition isWordChar (c : char) : bool :=
  inRange 97 122 c || inRange 65 90 c || inRange 48 57 c || N.eqb c 95.

Definition isQuote (c : char) : bool := N.eqb c SQUOTE || N.eqb c DQUOTE.
Definition notQuote (c : char) : bool := negb (isQuote c).
Definition isNot (d : char) (c : char) : bool := negb (N.eqb c d).
(** [[a-zA-Z0-9_\-]] *)
Definition isKeyChar (c : char) : bool := isWordChar c || N.eqb c 45.
(** [[0-9A-Z]] *)
Definition isUpperDigit (c : char) : bool := inRange 48 57 c || inRange 65 90 c.
(** [[_-]] *)
Definition isSep (c : char) : bool := N.eqb c 95 || N.eqb c 45.
(** [[:=]] *)
Definition isAssign (c : char) : bool := N.eqb c 58 || N.eqb c 61.
(** one of the two quotes or the backtick *)
Definition isAnyQuote (c : char) : bool := isQuote c || N.eqb c 96.

Definition chr (c : char) : regex := Cls (N.eqb c).
Definition chri (c : char) : regex := Cls (fun x => N.eqb (asciiLower x) (asciiLower c)).

Fixpoint seqs (rs : list regex) : regex :=
  match rs with
  | [] => Eps
  | [r] => r
  | r :: rs' => Seq r (seqs rs')
  end.

Definition lit (s : string) : regex := seqs (List.map chr (str s)).
Definition liti (s : string) : regex := seqs (List.map chri (str s)).
Arguments lit _%_string.
Arguments liti _%_string.

Fixpoint alts (rs : list regex) : regex :=
  match rs with
  | [] => Eps
  | [r] => r
  | r :: rs' => Alt r (alts rs')
  end.

Fixpoint times (n : nat) (r : regex) : regex :=
  match n with
  | O => Eps
  | S O => r
  | S n' => Seq r (times n' r)
  end.

Definition ws : regex := RepMin isSpace 0%nat.

Section Matcher.
Context {A : Type}.

(** Greedy [p{n,}]: take one more character when possible, and fall back
    to stopping here when the rest of the pattern fails after it. *)
Fixpoint repMin (p : char -> bool) (n : nat) (prev : option char) (s : jsstring)
    (k : option char -> jsstring -> option A) : option A :=
  let stop := match n with O => k prev s | S _ => None end in
  match s with
  | c :: s' =>
      if p c then
        match repMin p (Nat.pred n) (Some c) s' k with
        | Some a => Some a
        | None => stop
        end
      else stop
  | [] => stop
  end.

Definition atBoundary (prev : option char) (s : jsstring) : bool :=
  xorb (from_option isWordChar false prev) (from_option isWordChar false (head s)).

Fixpoint run (r : regex) (prev : option char) (s : jsstring)
    (k : option char -> jsstring -> option A) : option A :=
  match r with
  | Eps => k prev s
  | Cls p =>
      match s with
      | c :: s' => if p c then k (Some c) s' else None
      | [] => None
      end
  | Seq r1 r2 => run r1 prev s (fun prev' s' => run r2 prev' s' k)
  | Alt r1 r2 =>
      match run r1 prev s k with
      | Some a => Some a
      | None => run r2 prev s k
      end
  | Opt r1 =>
      match run r1 prev s k with
      | Some a => Some a
      | None => k prev s
      end
  | RepMin p n => repMin p n prev s k
  | WordB => if atBoundary prev s then k prev s else None
  | Eol => match s with [] => k prev s | _ :: _ => None end
  end.
End Matcher.

(** A match of [r] at the head of [s]: the text left after it. *)
Definition matchHere (r : regex) (prev : option char) (s : jsstring) : option jsstring :=
  run r prev s (fun _ rest => Some rest).

(** Leftmost match at or after index [i], where [s] is the text from [i]
    on and [prev] the character before it: start and end index. *)
Fixpoint search (r : regex) (prev : option char) (s : jsstring) (i : nat)
    : option (nat * nat) :=
  match matchHere r prev s with
  | Some rest => Some (i, i + (length s - length rest))%nat
  | None =>
      match s with
      | [] => None
      | c :: s' => search r (Some c) s' (S i)
      end
  end.

Definition charBefore (content : jsstring) (i : nat) : option char :=
  match i with
  | O => None
  | S j => content !! j
  end.

(** [pattern.exec(content)] of a global pattern whose [lastIndex] is
    [lastIndex]: the match found, as start and end index; the end index is
    the next [lastIndex]. *)
Definition exec (r : regex) (content : jsstring) (lastIndex : nat) : option (nat * nat) :=
  if (length content <? lastIndex)%nat then None
  else search r (charBefore content lastIndex) (drop lastIndex content) lastIndex.

(** [while ((match = pattern.exec(content)) !== null) ...]: the matches in
    the order found.  A pattern that matches the empty string would keep
    [lastIndex] in place and never leave the loop: the loop takes fuel and
    returns [None] when it runs out. *)
Fixpoint execLoop (fuel : nat) (r : regex) (content : jsstring) (lastIndex : nat)
    : option (list (nat * nat)) :=
  match fuel with
  | O => None
  | S fuel' =>
      match exec r content lastIndex with
      | None => Some []
      | Some (i, e) =>
          match execLoop fuel' r content e with
          | Some ms => Some ((i, e) :: ms)
          | None => None
          end
      end
  end.

Definition allMatches (r : regex) (content : jsstring) : option (list (nat * nat)) :=
  execLoop (S (S (length content))) r content 0.

(** The character before the place reached when the text [w] is read
    after the character [prev]. *)
Definition lastOr (prev : option char) (w : jsstring) : option char :=
  match last w with
  | Some c => Some c
  | None => prev
  end.

(** The texts a pattern matches at a place of a text, read off its
    structure: [prev] is the character before the match ([None] at the
    start of the text) and [rest] is the text after it. The word boundary
    and the end of input take no text and hold only where the text around
    them allows it. *)
Fixpoint lang (r : regex) (prev : option char) (w rest : jsstring) : Prop :=
  match r with
  | Eps => w = []
  | Cls p => exists c, w = [c] /\ p c = true
  | Seq r1 r2 =>
      exists u v, w = u ++ v /\ lang r1 prev u (v ++ rest) /\ lang r2 (lastOr prev u) v rest
  | Alt r1 r2 => lang r1 prev w rest \/ lang r2 prev w rest
  | Opt r1 => w = [] \/ lang r1 prev w rest
  | RepMin p n => (n <= length w)%nat /\ Forall (fun c => p c = true) w
  | WordB => w = [] /\ atBoundary prev rest = true
  | Eol => w = [] /\ rest = []
  end.

(** Whether a pattern can match the empty text. *)
Fixpoint nullable (r : regex) : bool :=
  match r with
  | Eps | Opt _ | WordB | Eol => true
  | Cls _ => false
  | Seq r1 r2 => nullable r1 && nullable r2
  | Alt r1 r2 => nullable r1 || nullable r2
  | RepMin _ n => Nat.eqb n 0
  end.

(** The characters a pattern can match at some place of a text. *)
Fixpoint alphabet (r : regex) (c : char) : bool :=
  match r with
  | Eps | WordB | Eol => false
  | Cls p | RepMin p _ => p c
  | Seq r1 r2 | Alt r1 r2 => alphabet r1 c || alphabet r2 c
  | Opt r1 => alphabet r1 c
  end.

(** The text holds [a] directly followed by [b]. *)
Fixpoint adjacent (a b : char) (w : jsstring) : bool :=
  match w with
  | x :: (y :: _) as rest => (N.eqb x a && N.eqb y b) || adjacent a b rest
  | _ => false
  end.

(* ===================================================================== *)
(** ** Rules and located findings *)
(* ===================================================================== *)

Record Pattern := mkPattern {
  p_id : jsstring;
  p_type : jsstring;
  p_severity : jsstring;
  p_pattern : regex;
  p_title : jsstring;
  p_description : jsstring;
  p_fix : jsstring
}.

(** The line-number loop of both scanners:
    [for (i = 0; i < lines.length; i++) { charCount += lines[i].length + 1;
    if (charCount > position) { lineNumber = i + 1; break; } }],
    with [lineNumber] initially 1. *)
Fixpoint lineNumberLoop (lines : list jsstring) (i charCount position : nat) : nat :=
  match lines with
  | [] => 1%nat
  | l :: ls =>
      let charCount' := (charCount + length l + 1)%nat in
      if (position <? charCount')%nat then (i + 1)%nat
      else lineNumberLoop ls (S i) charCount' position
  end.

Definition lineNumberOf (lines : list jsstring) (position : nat) : nat :=
  lineNumberLoop lines 0 0 position.

(** The number of line feeds of a text. *)
Definition lineFeeds (s : jsstring) : nat := length (List.filter (N.eqb NL) s).

(** [arr.slice(a, b)] with [0 <= a]. *)
Definition sliceArr {A} (l : list A) (a b : nat) : list A := drop a (take b l).

(** The stable sort by a comparator, which is what [Array.prototype.sort]
    returns when the comparator is a consistent comparison of the
    elements: an element is placed before the first later element it does
    not exceed. *)
Fixpoint insertBy {A} (cmp : A -> A -> Z) (x : A) (l : list A) : list A :=
  match l with
  | [] => [x]
  | y :: l' => if (cmp x y <=? 0)%Z then x :: l else y :: insertBy cmp x l'
  end.
Definition sortBy {A} (cmp : A -> A -> Z) (l : list A) : list A :=
  fold_right (fun x acc => insertBy cmp x acc) [] l.

(** The comparator is a consistent comparison of the elements of [l], in
    the sense of the language standard: every element is equal to itself,
    equality is symmetric and transitive, and so are less and greater. *)
Definition consistentOn {A} (cmp : A -> A -> Z) (l : list A) : bool :=
  forallb
    (fun a =>
       (cmp a a =? 0)%Z
       && forallb
            (fun b =>
               implb (cmp a b =? 0)%Z (cmp b a =? 0)%Z
               && forallb
                    (fun c =>
                       implb ((cmp a b =? 0)%Z && (cmp b c =? 0)%Z) (cmp a c =? 0)%Z
                       && implb ((cmp a b <? 0)%Z && (cmp b c <? 0)%Z) (cmp a c <? 0)%Z
                       && implb ((0 <? cmp a b)%Z && (0 <? cmp b c)%Z) (0 <? cmp a c)%Z)
                    l)
            l)
    l.

(** The array whose elements are those of [l] in the order of the ranks
    given to their positions; a position without a rank has rank 0, and
    positions of equal rank keep their order. Every rearrangement of [l]
    is of this form. *)
Definition rankedBy {A} (ranks : list nat) (l : list A) : list A :=
  List.map snd
    (sortBy (fun a b => (Z.of_nat (fst a) - Z.of_nat (fst b))%Z)
            (combine (take (length l) (ranks ++ repeat 0%nat (length l))) l)).

(** [arr.sort(cmp)]. The standard fixes the result only for a consistent
    comparator: then it is the stable sort. Otherwise the order is
    implementation-defined: the engine rearranges the array as it
    chooses. *)
Definition arraySort `{Runtime} {A} (cmp : A -> A -> Z) (l : list A) : list A :=
  if consistentOn cmp l then sortBy cmp l
  else rankedBy (sortRanks (fun i j => match l !! i, l !! j with
                                       | Some a, Some b => cmp a b
                                       | _, _ => 0%Z
                                       end)
                           (length l)) l.

(** Run a list of fallible steps in order and concatenate their results. *)
Fixpoint concatOpt {A B} (f : A -> option (list B)) (l : list A) : option (list B) :=
  match l with
  | [] => Some []
  | x :: l' =>
      match f x with
      | None => None
      | Some ys =>
          match concatOpt f l' with
          | None => None
          | Some zs => Some (ys ++ zs)
          end
      end
  end.

(* ===================================================================== *)
(** ** [src/lib/code-analyzer/security.js] *)
(* ===================================================================== *)

Module SecurityLib.

Definition assignQuoted (name : regex) (body : regex) : regex :=
  seqs [name; ws; Cls isAssign; ws; Cls isQuote; body; Cls isQuote].

Definition callWithUserInput (names : list regex) (sources : list regex) : regex :=
  seqs [alts names; ws; lit "("; RepMin (isNot 41) 0; alts sources].

Definition createHashOf (algo : string) : regex :=
  seqs [liti "createHash"; ws; lit "("; ws; Cls isQuote; liti algo; Cls isQuote; lit ")"].

(** The rule for API keys: [api], an optional [_] or [-], [key] (or
    [apikey]), in any case; white space; [:] or [=]; white space; a
    quote; 20 or more of [a-zA-Z0-9_-]; a quote. *)
Definition apiKeyRe : regex :=
  assignQuoted
    (Alt (seqs [liti "api"; Opt (Cls isSep); liti "key"]) (liti "apikey"))
    (RepMin isKeyChar 20).

Definition SECURITY_PATTERNS : list Pattern :=
  [ mkPattern (str "hardcoded-api-key") (str "Hardcoded Secret") (str "critical")
      apiKeyRe
      (str "Hardcoded API Key")
      (str "API key appears to be hardcoded in source code")
      (str "Move API keys to environment variables");
    mkPattern (str "hardcoded-secret") (str "Hardcoded Secret") (str "critical")
      (assignQuoted
         (alts [liti "secret"; liti "password"; liti "passwd"; liti "pwd"])
         (RepMin notQuote 8))
      (str "Hardcoded Secret/Password")
      (str "Secret or password appears to be hardcoded")
      (str "Use environment variables or a secrets manager");
    mkPattern (str "aws-key") (str "Hardcoded Secret") (str "critical")
      (Seq (lit "AKIA") (times 16 (Cls isUpperDigit)))
      (str "AWS Access Key")
      (str "AWS access key ID found in source code")
      (str "Remove and rotate the AWS key immediately");
    mkPattern (str "private-key") (str "Hardcoded Secret") (str "critical")
      (seqs [lit "-----BEGIN ";
             Opt (alts [lit "RSA "; lit "EC "; lit "DSA "; lit "OPENSSH "]);
             lit "PRIVATE KEY-----"])
      (str "Private Key Exposed")
      (str "Private key found in source code")
      (str "Remove private key and store securely outside repo");
    mkPattern (str "jwt-secret") (str "Hardcoded Secret") (str "high")
      (assignQuoted
         (Alt (seqs [liti "jwt"; Opt (Cls isSep); liti "secret"])
              (seqs [liti "token"; Opt (Cls isSep); liti "secret"]))
         (RepMin notQuote 1))
      (str "Hardcoded JWT Secret")
      (str "JWT signing secret is hardcoded")
      (str "Move to environment variables");
    mkPattern (str "sql-injection") (str "SQL Injection") (str "high")
      (seqs [Alt (lit "${") (Seq (lit "+") ws); ws;
             alts [lit "req."; lit "request."; lit "params."; lit "query."; lit "body."];
             RepMin (isNot 125) 1; Opt (lit "}"); ws; Alt (lit "+") (chr 96)])
      (str "Potential SQL Injection")
      (str "User input may be directly concatenated into SQL query")
      (str "Use parameterized queries or prepared statements");
    mkPattern (str "raw-query") (str "SQL Injection") (str "medium")
      (seqs [lit ".raw"; ws; lit "("; ws; Cls isAnyQuote])
      (str "Raw SQL Query")
      (str "Raw SQL queries may be vulnerable to injection")
      (str "Prefer ORM methods or use parameterized queries");
    mkPattern (str "innerhtml") (str "XSS") (str "high")
      (seqs [lit ".innerHTML"; ws; lit "="; ws; RepMin (isNot 59) 1])
      (str "innerHTML Assignment")
      (str "Direct innerHTML assignment may enable XSS")
      (str "Use textContent or sanitize HTML before insertion");
    mkPattern (str "dangerously-set-html") (str "XSS") (str "high")
      (lit "dangerouslySetInnerHTML")
      (str "dangerouslySetInnerHTML Usage")
      (str "React's dangerouslySetInnerHTML bypasses XSS protection")
      (str "Sanitize content with DOMPurify before rendering");
    mkPattern (str "document-write") (str "XSS") (str "high")
      (seqs [lit "document.write"; ws; lit "("])
      (str "document.write Usage")
      (str "document.write can introduce XSS vulnerabilities")
      (str "Use DOM manipulation methods instead");
    mkPattern (str "exec-injection") (str "Command Injection") (str "critical")
      (callWithUserInput
         [lit "exec"; lit "execSync"; lit "spawn"; lit "spawnSync"]
         [lit "${"; lit "req."; lit "request."; lit "params."])
      (str "Command Injection Risk")
      (str "User input may be passed to shell command")
      (str "Sanitize input and avoid shell execution with user data");
    mkPattern (str "eval-usage") (str "Code Injection") (str "critical")
      (seqs [WordB; lit "eval"; ws; lit "("; RepMin (isNot 41) 1; lit ")"])
      (str "eval() Usage")
      (str "eval() can execute arbitrary code")
      (str "Avoid eval(); use safer alternatives like JSON.parse()");
    mkPattern (str "path-traversal") (str "Path Traversal") (str "high")
      (callWithUserInput
         [lit "readFile"; lit "readFileSync"; lit "writeFile"; lit "writeFileSync"]
         [lit "${"; lit "req."; lit "request."; lit "params."])
      (str "Path Traversal Risk")
      (str "User input in file path may allow directory traversal")
      (str "Validate and sanitize file paths; use path.resolve()");
    mkPattern (str "cors-wildcard") (str "Misconfiguration") (str "medium")
      (seqs [liti "cors"; ws; lit "("; ws; lit "{"; ws; liti "origin"; ws; lit ":"; ws;
             Opt (Cls isQuote); lit "*"; Opt (Cls isQuote)])
      (str "CORS Wildcard Origin")
      (str "CORS allows requests from any origin")
      (str "Restrict to specific trusted origins");
    mkPattern (str "https-disabled") (str "Misconfiguration") (str "medium")
      (Alt (seqs [liti "http"; Opt (chri 115); ws; lit ":"; ws; liti "false"])
           (seqs [liti "secure"; ws; lit ":"; ws; liti "false"]))
      (str "HTTPS/Secure Disabled")
      (str "Security feature appears to be disabled")
      (str "Enable HTTPS and secure flags in production");
    mkPattern (str "debug-enabled") (str "Misconfiguration") (str "low")
      (Alt (seqs [liti "debug"; ws; Cls isAssign; ws; liti "true"])
           (seqs [liti "DEBUG"; ws; lit "="; ws; Opt (Cls isQuote); liti "true"]))
      (str "Debug Mode Enabled")
      (str "Debug mode should be disabled in production")
      (str "Use environment-based configuration");
    mkPattern (str "md5-usage") (str "Weak Cryptography") (str "medium")
      (createHashOf "md5")
      (str "MD5 Hash Usage")
      (str "MD5 is cryptographically broken")
      (str "Use SHA-256 or stronger hashing algorithms");
    mkPattern (str "sha1-usage") (str "Weak Cryptography") (str "low")
      (createHashOf "sha1")
      (str "SHA1 Hash Usage")
      (str "SHA1 is considered weak for security purposes")
      (str "Use SHA-256 or stronger algorithms");
    mkPattern (str "no-auth-check") (str "Authentication") (str "medium")
      (seqs [lit "//"; ws; liti "TODO"; Opt (lit ":"); ws;
             Opt (Alt (liti "add") (liti "implement")); ws; liti "auth"])
      (str "Missing Authentication")
      (str "TODO comment suggests authentication not implemented")
      (str "Implement proper authentication before deployment") ].

Definition CODE_EXTENSIONS : list jsstring :=
  List.map str [".js"; ".jsx"; ".ts"; ".tsx"; ".mjs"; ".cjs";
                ".py"; ".rb"; ".php"; ".java"; ".go"; ".rs";
                ".vue"; ".svelte"]%string.

(** [path.substring(path.lastIndexOf(".")).toLowerCase()] *)
Definition extensionOf `{Runtime} (path : jsstring) : jsstring :=
  toLowerCase (substring path (lastIndexOf DOT path)).

Definition isCodeFile `{Runtime} (path : jsstring) : bool :=
  includesStr CODE_EXTENSIONS (extensionOf path).

(** The finding pushed for one match of [pattern] in [scanFile]. *)
Definition findingOf (filePath content : jsstring) (lines : list jsstring)
    (pattern : Pattern) (m : nat * nat) : Finding :=
  let position := fst m in
  let lineNumber := lineNumberOf lines position in
  let snippetStart := Nat.max 0 (lineNumber - 2) in
  let snippetEnd := Nat.min (length lines) (lineNumber + 1) in
  {| f_id := p_id pattern ++ str "-" ++ filePath ++ str "-"
             ++ numToString (N.of_nat lineNumber);
     f_file := filePath;
     f_line := N.of_nat lineNumber;
     f_type := p_type pattern;
     f_severity := p_severity pattern;
     f_title := p_title pattern;
     f_description := p_description pattern;
     f_fix := p_fix pattern;
     f_match := Some (take 100 (sliceArr content (fst m) (snd m)));
     f_snippet := Some (join [NL] (sliceArr lines snippetStart snippetEnd));
     f_confidence := str "high";
     f_source := None |}.

Definition scanPattern (filePath content : jsstring) (lines : list jsstring)
    (pattern : Pattern) : option (list Finding) :=
  match allMatches (p_pattern pattern) content with
  | None => None
  | Some ms => Some (List.map (findingOf filePath content lines pattern) ms)
  end.

(** [scanFile(filePath, content)]; [None] when a rule never leaves its
    match loop. *)
Definition scanFile `{Runtime} (filePath content : jsstring) : option (list Finding) :=
  match content with
  | [] => Some []
  | _ =>
      if negb (isCodeFile filePath) then Some []
      else
        let lines := splitLines content in
        concatOpt (scanPattern filePath content lines) SECURITY_PATTERNS
  end.

Record File := mkFile { path : jsstring; content : option jsstring }.

(** [!file.content]: absent or empty. *)
Definition noContent (c : option jsstring) : bool :=
  match c with
  | None | Some [] => true
  | Some _ => false
  end.

Definition severityOrder (sev : jsstring) : option Z :=
  if streq sev (str "critical") then Some 0%Z
  else if streq sev (str "high") then Some 1%Z
  else if streq sev (str "medium") then Some 2%Z
  else if streq sev (str "low") then Some 3%Z
  else None.

(** The comparator [severityOrder[a.severity] - severityOrder[b.severity]];
    an unknown severity gives [NaN], which the sort reads as 0. *)
Definition bySeverity (a b : Finding) : Z :=
  match severityOrder (f_severity a), severityOrder (f_severity b) with
  | Some x, Some y => (x - y)%Z
  | _, _ => 0%Z
  end.

(** [scanFiles(files)] *)
Definition scanFiles `{Runtime} (files : list File) : option (list Finding) :=
  match concatOpt (fun file =>
                     if noContent (content file) then Some []
                     else scanFile (path file) (default [] (content file))) files with
  | None => None
  | Some allFindings =>
      let deduplicated := dedupLoop ∅ allFindings in
      Some (arraySort bySeverity deduplicated)
  end.

(** [filterCodeFiles(files, maxFiles = 20)] *)
Definition filterCodeFiles `{Runtime} (files : list File) (maxFiles : nat) : list File :=
  take maxFiles (List.filter (fun file => isCodeFile (path file)) files).

End SecurityLib.

(* ===================================================================== *)
(** ** Remote collaborators and the response channel *)
(* ===================================================================== *)

(** One entry of a directory listing of the source host. *)
Record Item := mkItem {
  i_name : jsstring;
  i_path : jsstring;
  i_type : jsstring;
  i_size : N;
  i_sha : jsstring
}.

Record RemoteError := mkRemoteError {
  e_status : option Z;
  e_message : jsstring
}.

(** The answer of [octokit.rest.repos.getContent]: an array for a
    directory, one object (with its decoded text) otherwise, or a thrown
    error. *)
Inductive Contents :=
| Listing (items : list Item)
| Single (item : Item) (text : jsstring)
| Failed (err : RemoteError).

(** [data.type] of an answer; an array has none. *)
Definition dataType (c : Contents) : option jsstring :=
  match c with
  | Single item _ => Some (i_type item)
  | _ => None
  end.

(** The answer of a completion call, as the callers read it: the text
    [response.choices[0].message.content], or an error when the call
    throws or its answer holds no such text (reading it or calling [trim]
    on it throws). *)
Inductive ModelReply :=
| ReplyError (message : jsstring)
| ReplyText (content : jsstring).

(** A streamed completion: the call itself fails, or it yields the
    [delta.content] of each chunk ([None] when absent) and then ends or
    fails. *)
Inductive StreamReply :=
| StreamRefused (message : jsstring)
| StreamOf (chunks : list (option jsstring)) (failure : option jsstring).

Record Grouped := mkGrouped {
  g_critical : list Finding;
  g_high : list Finding;
  g_medium : list Finding;
  g_low : list Finding
}.

Inductive Payload :=
| PStatus (message : jsstring) (progress : Z)
| PFiles (files : list json + jsstring) (reason : option json) (count : nat)
| PChunk (content : jsstring)
| PComplete (findings : list Finding) (grouped : Grouped) (summary : jsstring)
            (scannedFiles totalFindings : nat)
| PDone
| PError (message : jsstring).

Record Event := mkEvent { ev_type : jsstring; ev_data : Payload }.

(** What a handler does to the outside, in order: a plain JSON failure
    response [res.status(s).json({ error })], [res.write] of an event,
    [res.end()], and a content request to the source host. *)
Inductive Action :=
| Reply (status : Z) (error : jsstring)
| Write (e : Event)
| End
| GetContent (path : jsstring).

Inductive Outcome (A : Type) :=
| Ok (a : A)
| Throw (message : jsstring)
| Diverge.
Arguments Ok {A} a.
Arguments Throw {A} message.
Arguments Diverge {A}.

(** Handler code: the actions performed, and then a value, a thrown error,
    or no return at all ([Diverge]: a loop that is never left). *)
Definition M (A : Type) : Type := list Action * Outcome A.

Definition ret {A} (a : A) : M A := ([], Ok a).
Definition throw {A} (message : jsstring) : M A := ([], Throw message).
Definition bind {A B} (m : M A) (f : A -> M B) : M B :=
  match m with
  | (t, Ok a) => let (t', r) := f a in (t ++ t', r)
  | (t, Throw e) => (t, Throw e)
  | (t, Diverge) => (t, Diverge)
  end.
Definition act (a : Action) : M unit := ([a], Ok tt).

(** A step that returns only with enough fuel. *)
Definition orDiverge {A} (o : option A) : M A :=
  match o with
  | Some a => ret a
  | None => ([], Diverge)
  end.

Notation "'let*' x ':=' m 'in' k" := (bind m (fun x => k))
  (at level 10, x name, m at level 100, k at level 200).
Notation "m >>> k" := (bind m (fun _ => k))
  (at level 90, right associativity).

(** [try { body } catch (error) { handler(error.message) }] *)
Definition tryCatch {A} (body : M A) (handler : jsstring -> M A) : M A :=
  match body with
  | (t, Throw e) => let (t', r) := handler e in (t ++ t', r)
  | other => other
  end.

(** [try { body } finally { cleanup }]: the cleanup runs on every way out
    of the body, and its own error replaces the body's result. *)
Definition tryFinally {A} (body : M A) (cleanup : M unit) : M A :=
  match body with
  | (t, Diverge) => (t, Diverge)
  | (t, r) =>
      match cleanup with
      | (t', Ok _) => (t ++ t', r)
      | (t', Throw e) => (t ++ t', Throw e)
      | (t', Diverge) => (t ++ t', Diverge)
      end
  end.

Fixpoint forEach {A} (l : list A) (f : A -> M unit) : M unit :=
  match l with
  | [] => ret tt
  | x :: l' => f x >>> forEach l' f
  end.

Fixpoint mapM {A B} (f : A -> M B) (l : list A) : M (list B) :=
  match l with
  | [] => ret []
  | x :: l' => let* y := f x in let* ys := mapM f l' in ret (y :: ys)
  end.

(** [sendEvent(type, data)] *)
Definition sendEvent (type : string) (data : Payload) : M unit :=
  act (Write (mkEvent (str type) data)).
Arguments sendEvent _%_string _.

Definition trace {A} (m : M A) : list Action := fst m.

(** [message || fallback] *)
Definition orDefault (message fallback : jsstring) : jsstring :=
  match message with
  | [] => fallback
  | _ => message
  end.

(** Consecutive slices [l.slice(i, i + 5)] for [i = 0, 5, 10, ...] while
    [i < l.length]. *)
Fixpoint batchesOf5 {A} (l : list A) : list (list A) :=
  match l with
  | [] => []
  | a :: b :: c :: d :: e :: rest => [a; b; c; d; e] :: batchesOf5 rest
  | _ => [l]
  end.

(** The batches with the loop index [i] each starts at. *)
Fixpoint indexed5 {A} (i : nat) (batches : list (list A)) : list (nat * list A) :=
  match batches with
  | [] => []
  | b :: bs => (i, b) :: indexed5 (i + 5) bs
  end.

(* ===================================================================== *)
(** ** [api/code-analyzer/scan]: the scan route *)
(* ===================================================================== *)

Module ScanRoute.

Definition assignQuoted := SecurityLib.assignQuoted.

Definition SECURITY_PATTERNS : list Pattern :=
  [ mkPattern (str "hardcoded-api-key") (str "Hardcoded Secret") (str "critical")
      SecurityLib.apiKeyRe
      (str "Hardcoded API Key")
      (str "API key appears to be hardcoded in source code")
      (str "Move API keys to environment variables");
    mkPattern (str "hardcoded-secret") (str "Hardcoded Secret") (str "critical")
      (assignQuoted
         (alts [liti "secret"; liti "password"; liti "passwd"; liti "pwd"])
         (RepMin notQuote 8))
      (str "Hardcoded Secret/Password")
      (str "Secret or password appears to be hardcoded")
      (str "Use environment variables or a secrets manager");
    mkPattern (str "aws-key") (str "Hardcoded Secret") (str "critical")
      (Seq (lit "AKIA") (times 16 (Cls isUpperDigit)))
      (str "AWS Access Key")
      (str "AWS access key ID found in source code")
      (str "Remove and rotate the AWS key immediately");
    mkPattern (str "eval-usage") (str "Code Injection") (str "critical")
      (seqs [WordB; lit "eval"; ws; lit "("; RepMin (isNot 41) 1; lit ")"])
      (str "eval() Usage")
      (str "eval() can execute arbitrary code")
      (str "Avoid eval(); use safer alternatives");
    mkPattern (str "innerhtml") (str "XSS") (str "high")
      (seqs [lit ".innerHTML"; ws; lit "="; ws; RepMin (isNot 59) 1])
      (str "innerHTML Assignment")
      (str "Direct innerHTML assignment may enable XSS")
      (str "Use textContent or sanitize HTML");
    mkPattern (str "dangerously-set-html") (str "XSS") (str "high")
      (lit "dangerouslySetInnerHTML")
      (str "dangerouslySetInnerHTML Usage")
      (str "Bypasses React's XSS protection")
      (str "Sanitize content with DOMPurify");
    mkPattern (str "sql-injection") (str "SQL Injection") (str "high")
      (Seq (Alt (lit "${") (Seq (lit "+") ws))
           (alts [lit "req."; lit "request."; lit "params."; lit "query."; lit "body."]))
      (str "Potential SQL Injection")
      (str "User input may be concatenated into SQL")
      (str "Use parameterized queries");
    mkPattern (str "exec-injection") (str "Command Injection") (str "critical")
      (SecurityLib.callWithUserInput
         [lit "exec"; lit "execSync"; lit "spawn"]
         [lit "${"; lit "req."; lit "params."])
      (str "Command Injection Risk")
      (str "User input may be passed to shell")
      (str "Sanitize input; avoid shell execution");
    mkPattern (str "cors-wildcard") (str "Misconfiguration") (str "medium")
      (seqs [liti "cors"; ws; lit "("; ws; lit "{"; ws; liti "origin"; ws; lit ":"; ws;
             Opt (Cls isQuote); lit "*"; Opt (Cls isQuote)])
      (str "CORS Wildcard Origin")
      (str "CORS allows any origin")
      (str "Restrict to trusted origins");
    mkPattern (str "md5-usage") (str "Weak Cryptography") (str "medium")
      (SecurityLib.createHashOf "md5")
      (str "MD5 Hash Usage")
      (str "MD5 is cryptographically broken")
      (str "Use SHA-256 or stronger") ].

Definition CODE_EXTENSIONS : list jsstring :=
  List.map str [".js"; ".jsx"; ".ts"; ".tsx"; ".py"; ".rb"; ".php"; ".go"]%string.

(** The callback of [filePaths.filter(...)] in the handler. *)
Definition isCodePath `{Runtime} (path : jsstring) : bool :=
  let ext := toLowerCase (substring path (lastIndexOf DOT path)) in
  includesStr CODE_EXTENSIONS ext.

(** [(filePaths || []).filter(...).slice(0, 20)] *)
Definition codeFilesOf `{Runtime} (filePaths : option (list jsstring)) : list jsstring :=
  take 20 (List.filter isCodePath (default [] filePaths)).

Record File := mkFile { path : jsstring; content : option jsstring }.

(** One fetch of [fetchFiles]: any failure and any non-file gives a
    record without content. *)
Definition fetchOne (getContent : jsstring -> Contents) (p : jsstring) : M File :=
  act (GetContent p) >>>
  ret (match getContent p with
       | Single item text =>
           if streq (i_type item) (str "file") then mkFile p (Some text)
           else mkFile p None
       | _ => mkFile p None
       end).

(** [f.content] as a truth value: absent and empty content are dropped. *)
Definition hasContent (f : File) : bool :=
  match content f with
  | None | Some [] => false
  | Some _ => true
  end.

(** [fetchFiles(owner, repo, paths, sendEvent)] *)
Definition fetchFiles `{Runtime} (getContent : jsstring -> Contents)
    (paths : list jsstring) : M (list File) :=
  let step (acc : M (list File)) (ib : nat * list jsstring) : M (list File) :=
    let* results := acc in
    let (i, batch) := ib in
    sendEvent "status"
      (PStatus (str "Fetching files (" ++ numToString (N.of_nat (i + length batch))
                  ++ str "/" ++ numToString (N.of_nat (length paths)) ++ str ")...")
               (fetchProgress i (length paths))) >>>
    let* batchResults := mapM (fetchOne getContent) batch in
    ret (results ++ List.filter hasContent batchResults) in
  fold_left step (indexed5 0 (batchesOf5 paths)) (ret []).

(** The finding pushed for one match in [runPatternScan]. *)
Definition findingOf (filePath : jsstring) (lines : list jsstring)
    (pattern : Pattern) (m : nat * nat) : Finding :=
  let lineNumber := lineNumberOf lines (fst m) in
  {| f_id := p_id pattern ++ str "-" ++ filePath ++ str "-"
             ++ numToString (N.of_nat lineNumber);
     f_file := filePath;
     f_line := N.of_nat lineNumber;
     f_type := p_type pattern;
     f_severity := p_severity pattern;
     f_title := p_title pattern;
     f_description := p_description pattern;
     f_fix := p_fix pattern;
     f_match := None;
     f_snippet := None;
     f_confidence := str "high";
     f_source := Some (str "pattern") |}.

(** [runPatternScan(files)]; [None] when a rule never leaves its match
    loop. *)
Definition runPatternScan (files : list File) : option (list Finding) :=
  concatOpt
    (fun file =>
       match content file with
       | None | Some [] => Some []
       | Some text =>
           let lines := splitLines text in
           concatOpt
             (fun pattern =>
                match allMatches (p_pattern pattern) text with
                | None => None
                | Some ms => Some (List.map (findingOf (path file) lines pattern) ms)
                end)
             SECURITY_PATTERNS
       end)
    files.

(** [runAIScan(files)]. The completion call, the parse of its answer and
    the read of [parsed.findings] are the function [model], applied to the
    first ten files with their text cut at 5000 characters; it answers
    [None] when any of these steps throws. *)
Definition runAIScan `{Runtime}
    (model : list (jsstring * jsstring) -> option (list Finding))
    (files : list File) : list Finding :=
  let shown := List.map (fun f => (path f, take 5000 (default [] (content f))))
                        (take 10 files) in
  match model shown with
  | None => []
  | Some found =>
      List.map (fun f =>
        {| f_id := str "ai-" ++ f_file f ++ str "-" ++ numToString (f_line f)
                   ++ str "-" ++ numToString now;
           f_file := f_file f; f_line := f_line f; f_type := f_type f;
           f_severity := f_severity f; f_title := f_title f;
           f_description := f_description f; f_fix := f_fix f;
           f_match := f_match f; f_snippet := f_snippet f;
           f_confidence := str "medium";
           f_source := Some (str "ai") |}) found
  end.

Definition deduplicateFindings (findings : list Finding) : list Finding :=
  dedupLoop ∅ findings.

(** The callback of the final filter of the scan route. *)
Definition keepFinding (f : Finding) : bool :=
  streq (f_severity f) (str "critical")
  || streq (f_severity f) (str "high")
  || streq (f_confidence f) (str "high").

Definition filteredFindings (allFindings : list Finding) : list Finding :=
  List.filter keepFinding allFindings.

Definition groupBySeverity (findings : list Finding) : Grouped :=
  {| g_critical := List.filter (fun f => streq (f_severity f) (str "critical")) findings;
     g_high := List.filter (fun f => streq (f_severity f) (str "high")) findings;
     g_medium := List.filter (fun f => streq (f_severity f) (str "medium")) findings;
     g_low := List.filter (fun f => streq (f_severity f) (str "low")) findings |}.

(** [generateSummary] of the scan route. *)
Definition generateSummary (findings : list Finding) : jsstring :=
  let total := length findings in
  if Nat.eqb total 0%nat then str "No security vulnerabilities detected."
  else
    let grouped := groupBySeverity findings in
    let part (l : list Finding) (label : jsstring) : list jsstring :=
      if Nat.eqb (length l) 0%nat then []
      else [numToString (N.of_nat (length l)) ++ str " " ++ label] in
    let parts := part (g_critical grouped) (str "critical")
                 ++ part (g_high grouped) (str "high")
                 ++ part (g_medium grouped) (str "medium")
                 ++ part (g_low grouped) (str "low") in
    str "Found " ++ numToString (N.of_nat total) ++ str " potential issue"
      ++ (if Nat.eqb total 1%nat then [] else str "s") ++ str ": " ++ join (str ", ") parts.

(** The fields the handler reads from [req.body]. *)
Record Body := mkBody {
  b_owner : jsstring;
  b_repo : jsstring;
  b_filePaths : option (list jsstring)
}.

(** What reaches the handler: [req.method] and [req.body]. The body is
    [None] when the request carries none ([req.body] is [undefined] or
    [null]). *)
Record Request := mkRequest {
  method : jsstring;
  body : option Body
}.

(** The fields of the body of a request, when it has one. *)
Definition owner (req : Request) : jsstring := from_option b_owner [] (body req).
Definition repo (req : Request) : jsstring := from_option b_repo [] (body req).
Definition filePaths (req : Request) : option (list jsstring) :=
  from_option b_filePaths None (body req).

(** [req.body] can be destructured: it is neither [undefined] nor [null]. *)
Definition hasBody (req : Request) : bool :=
  match body req with
  | Some _ => true
  | None => false
  end.

Definition missing (s : jsstring) : bool :=
  match s with
  | [] => true
  | _ => false
  end.

(** The handler of the route. The body is destructured before the [try]
    block: without a body this throws, and nothing is replied, written or
    closed. An early [return res.end()] inside [try] leaves through
    [finally] like every other way out. *)
Definition handler `{Runtime} (getContent : jsstring -> Contents)
    (model : list (jsstring * jsstring) -> option (list Finding))
    (req : Request) : M unit :=
  if negb (streq (method req) (str "POST")) then
    act (Reply 405 (str "Method not allowed"))
  else if negb (hasBody req) then
    throw (str "Cannot destructure property 'owner' of 'req.body' as it is undefined.")
  else if missing (owner req) || missing (repo req) then
    act (Reply 400 (str "Missing owner or repo"))
  else
    tryFinally
      (tryCatch
         (let codeFiles := codeFilesOf (filePaths req) in
          if Nat.eqb (length codeFiles) 0 then
            sendEvent "error" (PError (str "No code files found to scan")) >>>
            act End
          else
            sendEvent "status"
              (PStatus (str "Scanning " ++ numToString (N.of_nat (length codeFiles))
                          ++ str " files...") 10) >>>
            let* files := fetchFiles getContent codeFiles in
            sendEvent "status" (PStatus (str "Running pattern-based scan...") 40) >>>
            let* patternFindings := orDiverge (runPatternScan files) in
            sendEvent "status" (PStatus (str "Running AI analysis...") 60) >>>
            let aiFindings := runAIScan model files in
            let allFindings := deduplicateFindings (patternFindings ++ aiFindings) in
            let filtered := filteredFindings allFindings in
            sendEvent "status" (PStatus (str "Generating summary...") 90) >>>
            let summary := generateSummary filtered in
            sendEvent "complete"
              (PComplete filtered (groupBySeverity filtered) summary
                         (length codeFiles) (length filtered)) >>>
            sendEvent "status" (PStatus (str "Complete") 100))
         (fun e => sendEvent "error" (PError (orDefault e (str "Scan failed")))))
      (act End).

(** The record one fetch of [fetchFiles] gives for a path. *)
Definition fileOf (getContent : jsstring -> Contents) (p : jsstring) : File :=
  match getContent p with
  | Single item text =>
      if streq (i_type item) (str "file") then mkFile p (Some text)
      else mkFile p None
  | _ => mkFile p None
  end.

(** The test [req.method === "POST" && owner && repo], on a request with
    a body, that the handler passes before it opens the stream. *)
Definition accepted (req : Request) : bool :=
  streq (method req) (str "POST") && hasBody req
  && negb (missing (owner req) || missing (repo req)).

End ScanRoute.

(* ===================================================================== *)
(** ** Trees: construction, rendering, flattening *)
(* ===================================================================== *)

Inductive TreeNode := mkNode {
  name : jsstring;
  path : jsstring;
  type : jsstring;
  size : N;
  children : option (list TreeNode)
}.

Definition isDir (t : jsstring) : bool := streq t (str "dir").
Definition isFile (t : jsstring) : bool := streq t (str "file").

(** The comparator of [tree.sort(...)]. *)
Definition compareNodes `{Runtime} (a b : TreeNode) : Z :=
  if streq (type a) (type b) then localeCompare (name a) (name b)
  else if isDir (type a) then (-1)%Z else 1%Z.

(** [Array.isArray(contents) ? contents : [contents]]; [None] when the
    request throws. *)
Definition itemsOf (c : Contents) : option (list Item) :=
  match c with
  | Listing items => Some items
  | Single item _ => Some [item]
  | Failed _ => None
  end.

Section BuildFileTree.
Context `{Runtime}.
Variable getContent : jsstring -> Contents.
Variable skipDirs : list jsstring.

(** The body of [buildFileTree], recursive on the number [k] of levels
    that may still be opened below this one. *)
Fixpoint buildFrom (k : nat) (path : jsstring) (depth maxDepth : nat) : list TreeNode :=
  if (maxDepth <? depth)%nat then []
  else
    match itemsOf (getContent path) with
    | None => []
    | Some items =>
        let tree :=
          flat_map
            (fun item =>
               if isDir (i_type item) && includesStr skipDirs (i_name item) then []
               else
                 [ {| name := i_name item;
                      path := i_path item;
                      type := i_type item;
                      size := i_size item;
                      children :=
                        if isDir (i_type item) && (depth <? maxDepth)%nat then
                          match k with
                          | S k' => Some (buildFrom k' (i_path item) (depth + 1) maxDepth)
                          | O => Some []
                          end
                        else None |} ])
            items in
        arraySort compareNodes tree
    end.

Definition buildTree (path : jsstring) (depth maxDepth : nat) : list TreeNode :=
  buildFrom (maxDepth - depth) path depth maxDepth.
End BuildFileTree.

(** The node [buildFileTree] makes of a listed item at depth [depth], given
    the subtree built below it. *)
Definition nodeOf (maxDepth : nat) (below : list TreeNode) (depth : nat) (item : Item)
    : TreeNode :=
  {| name := i_name item;
     path := i_path item;
     type := i_type item;
     size := i_size item;
     children :=
       if isDir (i_type item) && (depth <? maxDepth)%nat then Some below else None |}.

(** Directories first: once a node that is not a directory is met, no
    directory follows. *)
Fixpoint dirsFirst (tree : list TreeNode) : bool :=
  match tree with
  | [] => true
  | node :: rest =>
      if isDir (type node) then dirsFirst rest
      else forallb (fun n => negb (isDir (type n))) rest
  end.

(** The test [item.type === "dir" && skipDirs.includes(item.name)]. *)
Definition skippedItem (skipDirs : list jsstring) (item : Item) : bool :=
  isDir (i_type item) && includesStr skipDirs (i_name item).

(** The [for] loop of [treeToString] over the nodes of one level, with the
    flag [isLast] of each node; [line] gives what is written for a node and
    below it. *)
Fixpoint renderLevel {B} (line : bool -> TreeNode -> list B) (tree : list TreeNode)
    : list B :=
  match tree with
  | [] => []
  | node :: rest =>
      line (match rest with [] => true | _ => false end) node ++ renderLevel line rest
  end.

Definition connectorOf (isLast : bool) : jsstring :=
  if isLast then [ELL; DASH; DASH; 32] else [TEE; DASH; DASH; 32].

Definition childPrefixOf (isLast : bool) : jsstring :=
  if isLast then str "    " else PIPE :: str "   ".

(** One turn of the loop of [treeToString]: the line of [node], then the
    rendering of its children when it has some. *)
Fixpoint renderNode (prefix : jsstring) (isLast : bool) (node : TreeNode) {struct node}
    : jsstring :=
  let connector := connectorOf isLast in
  let childPrefix := childPrefixOf isLast in
  match node with
  | mkNode nm _ _ _ ch =>
      (prefix ++ connector ++ nm ++ [NL])
      ++ match ch with
         | Some (c :: cs) => renderLevel (renderNode (prefix ++ childPrefix)) (c :: cs)
         | _ => []
         end
  end.

(** [treeToString(tree, prefix)] *)
Definition treeToString (tree : list TreeNode) (prefix : jsstring) : jsstring :=
  renderLevel (renderNode prefix) tree.

(** The lines [treeToString] writes for a node and below it, without their
    line feeds. *)
Fixpoint linesOfNode (prefix : jsstring) (isLast : bool) (node : TreeNode) {struct node}
    : list jsstring :=
  match node with
  | mkNode nm _ _ _ ch =>
      (prefix ++ connectorOf isLast ++ nm)
      :: match ch with
         | Some (c :: cs) =>
             renderLevel (linesOfNode (prefix ++ childPrefixOf isLast)) (c :: cs)
         | _ => []
         end
  end.

Definition treeLines (tree : list TreeNode) (prefix : jsstring) : list jsstring :=
  renderLevel (linesOfNode prefix) tree.

(** A name that fits on a line of the rendering: not empty, and without a
    line terminator. *)
Definition lineSafe (nm : jsstring) : bool :=
  match nm with
  | [] => false
  | _ :: _ => forallb notLineTerminator nm
  end.

Definition noLineFeed (l : jsstring) : bool := forallb (fun c => negb (N.eqb c NL)) l.
Definition withLineFeed (l : jsstring) : jsstring := l ++ [NL].

(** The offset of a line: the lengths of the lines before it, each with
    its line feed. *)
Definition offsetOf (before : list jsstring) : nat :=
  length (flat_map withLineFeed before).

(** A prefix made of characters other than the two connector heads and the
    line feed. *)
Definition plainPrefix (prefix : jsstring) : bool :=
  forallb (fun c => negb (oneOf [TEE; ELL; NL] c)) prefix.

(** One turn of the loop of [getFilePaths]. *)
Fixpoint pathsOfNode (basePath : jsstring) (node : TreeNode) {struct node}
    : list jsstring :=
  match node with
  | mkNode nm _ ty _ ch =>
      let fullPath := match basePath with
                      | [] => nm
                      | _ => basePath ++ str "/" ++ nm
                      end in
      if isFile ty then [fullPath]
      else match ch with
           | Some l => flat_map (pathsOfNode fullPath) l
           | None => []
           end
  end.

(** [getFilePaths(tree, basePath)] *)
Definition getFilePaths (tree : list TreeNode) (basePath : jsstring) : list jsstring :=
  flat_map (pathsOfNode basePath) tree.

(** The paths the source host reported for the files of a tree, in the
    order [getFilePaths] walks it. *)
Fixpoint reportedPathsOfNode (node : TreeNode) {struct node} : list jsstring :=
  match node with
  | mkNode _ pa ty _ ch =>
      if isFile ty then [pa]
      else match ch with
           | Some l => flat_map reportedPathsOfNode l
           | None => []
           end
  end.

Definition reportedPaths (tree : list TreeNode) : list jsstring :=
  flat_map reportedPathsOfNode tree.

(** The path of an entry named [nm] in the directory [dir]; the root
    directory is the empty path. *)
Definition pathUnder (dir nm : jsstring) : jsstring :=
  match dir with
  | [] => nm
  | _ => dir ++ str "/" ++ nm
  end.

(** The answer is one object, not an array. *)
Definition isSingle (c : Contents) : bool :=
  match c with
  | Single _ _ => true
  | _ => false
  end.

(** A source host that answers like the contents API of GitHub. The root
    and every entry of type [dir] of a listing are answered with an array
    or an error, not with one object; and every entry of an array bears
    the path of the listed directory followed by its name. How the path of
    a file is answered is left open. *)
Definition reportsPathsByName (getContent : jsstring -> Contents) : Prop :=
  isSingle (getContent []) = false
  /\ forall dir items item,
       getContent dir = Listing items -> In item items ->
       i_path item = pathUnder dir (i_name item)
       /\ (isDir (i_type item) = true -> isSingle (getContent (i_path item)) = false).

(** A node of type [dir] or [file]. *)
Definition dirOrFile (node : TreeNode) : bool :=
  isDir (type node) || isFile (type node).

(** A node and the nodes below it, each with the depth it sits at. *)
Fixpoint nodeAt (d : nat) (node : TreeNode) {struct node} : list (nat * TreeNode) :=
  (d, node)
  :: match node with
     | mkNode _ _ _ _ (Some ch) => flat_map (nodeAt (S d)) ch
     | _ => []
     end.

(** Every node of a tree with its depth; the top level is at depth [d]. *)
Definition nodesAt (d : nat) (tree : list TreeNode) : list (nat * TreeNode) :=
  flat_map (nodeAt d) tree.

(** A node with its depth: the depth is between [depth] and the cap, and a
    directory does not bear a name of the skip list. *)
Definition wellPlaced (skipDirs : list jsstring) (maxDepth depth : nat)
    (entry : nat * TreeNode) : Prop :=
  (depth <= fst entry <= maxDepth)%nat
  /\ (isDir (type (snd entry)) = true
      -> includesStr skipDirs (name (snd entry)) = false).

(** The name of a node and of the nodes [treeToString] writes below it. *)
Fixpoint namesOfNode (node : TreeNode) : list jsstring :=
  match node with
  | mkNode nm _ _ _ ch =>
      nm :: match ch with
            | Some l => flat_map namesOfNode l
            | None => []
            end
  end.

(** The names of the nodes that [treeToString] writes, in its order: a
    node, then its children, then its later siblings. *)
Definition renderedNames (tree : list TreeNode) : list jsstring :=
  flat_map namesOfNode tree.

(** The line pattern [/[├└]── (.+)$/] of the selectors. *)
Definition treeLineRe : regex :=
  seqs [Cls (oneOf [TEE; ELL]); chr DASH; chr DASH; chr 32;
        RepMin notLineTerminator 1; Eol].

(** [line.match(...)] and its group 1: the text after the four characters
    of the connector. *)
Definition treeLineName (line : jsstring) : option jsstring :=
  match exec treeLineRe line 0 with
  | Some (i, _) => Some (drop (i + 4) line)
  | None => None
  end.

(** What holds of the lines written for a node or for a level: the text
    is the lines with their line feeds, the names read back from the lines
    are [names], and no line holds a line feed. *)
Definition readsBack (rendered : jsstring) (lines names : list jsstring) : Prop :=
  rendered = flat_map withLineFeed lines
  /\ omap treeLineName lines = names
  /\ forallb noLineFeed lines = true.

Definition nodeReadsBack (node : TreeNode) : Prop :=
  forall prefix isLast,
    plainPrefix prefix = true ->
    forallb lineSafe (namesOfNode node) = true ->
    readsBack (renderNode prefix isLast node) (linesOfNode prefix isLast node)
              (namesOfNode node).

(** The names read back from a rendering, line by line. *)
Definition parseTreeNames (rendering : jsstring) : list jsstring :=
  omap treeLineName (splitLines rendering).

(** The loop shared by [extractMentionedFiles] and [findMentionedFiles]. *)
Definition mentionedFiles `{Runtime} (query fileTreeString : jsstring) : list jsstring :=
  flat_map
    (fun line =>
       match treeLineName line with
       | Some fileName =>
           if includes (toLowerCase query) (toLowerCase fileName) then [fileName] else []
       | None => []
       end)
    (splitLines fileTreeString).

(* ===================================================================== *)
(** ** File records and the fetchers *)
(* ===================================================================== *)

Record FileRecord (P : Type) := mkFileRecord {
  fr_path : P;
  fr_content : option jsstring;
  fr_size : option N;
  fr_sha : option jsstring;
  fr_error : option jsstring
}.
Arguments mkFileRecord {P} _ _ _ _ _.
Arguments fr_path {P} _.
Arguments fr_content {P} _.
Arguments fr_size {P} _.
Arguments fr_sha {P} _.
Arguments fr_error {P} _.

(** [!file.content]: absent or empty. *)
Definition noContent (c : option jsstring) : bool :=
  match c with
  | None | Some [] => true
  | Some _ => false
  end.

Definition hasBody {P} (file : FileRecord P) : bool := negb (noContent (fr_content file)).

(** The GitHub helpers of the library. *)
Module GitHubLib.

Definition skipDirs : list jsstring :=
  List.map str ["node_modules"; ".git"; "dist"; "build"; ".next";
                "__pycache__"; "vendor"]%string.

(** [buildFileTree(owner, repo, path, depth = 0, maxDepth = 5)] *)
Definition buildFileTree `{Runtime} (getContent : jsstring -> Contents)
    (path : jsstring) (depth maxDepth : nat) : list TreeNode :=
  buildTree getContent skipDirs path depth maxDepth.

(** [fetchFileContent(owner, repo, path)]: the [throw] for a non-file
    lands in the [catch] of the same function. *)
Definition fetchFileContent (getContent : jsstring -> Contents) (path : jsstring)
    : FileRecord jsstring :=
  match getContent path with
  | Single item text =>
      if isFile (i_type item) then
        mkFileRecord path (Some text) (Some (i_size item)) (Some (i_sha item)) None
      else
        mkFileRecord path None None None
          (Some (str "Path " ++ [DQUOTE] ++ path ++ [DQUOTE] ++ str " is not a file"))
  | Listing _ =>
      mkFileRecord path None None None
        (Some (str "Path " ++ [DQUOTE] ++ path ++ [DQUOTE] ++ str " is not a file"))
  | Failed err =>
      if bool_decide (e_status err = Some 404%Z) then
        mkFileRecord path None None None (Some (str "File not found"))
      else mkFileRecord path None None None (Some (e_message err))
  end.

(** The loop [for (let i = 0; i < paths.length; i += maxConcurrent)] of
    [fetchFilesBatch]: a width of 0 never advances [i], so the loop takes
    fuel. *)
Fixpoint batchLoop (fuel : nat) (getContent : jsstring -> Contents)
    (paths : list jsstring) (maxConcurrent i : nat)
    (results : list (FileRecord jsstring)) : option (list (FileRecord jsstring)) :=
  if (length paths <=? i)%nat then Some results
  else
    match fuel with
    | O => None
    | S fuel' =>
        let chunk := sliceArr paths i (i + maxConcurrent) in
        let chunkResults := List.map (fetchFileContent getContent) chunk in
        batchLoop fuel' getContent paths maxConcurrent (i + maxConcurrent)
                  (results ++ chunkResults)
    end.

(** [fetchFilesBatch(owner, repo, paths, maxConcurrent = 5)] *)
Definition fetchFilesBatch (getContent : jsstring -> Contents)
    (paths : list jsstring) (maxConcurrent : nat) : option (list (FileRecord jsstring)) :=
  batchLoop (length paths) getContent paths maxConcurrent 0 [].

Definition skipExtensions : list jsstring :=
  List.map str [".png"; ".jpg"; ".jpeg"; ".gif"; ".svg"; ".ico"; ".webp";
                ".mp3"; ".mp4"; ".wav"; ".avi"; ".mov";
                ".zip"; ".tar"; ".gz"; ".rar";
                ".pdf"; ".doc"; ".docx";
                ".lock"; ".log";
                ".woff"; ".woff2"; ".ttf"; ".eot"]%string.

Definition skipFiles : list jsstring :=
  List.map str ["package-lock.json"; "yarn.lock"; "pnpm-lock.yaml";
                ".DS_Store"; "Thumbs.db"]%string.

Definition pruneSkipDirs : list jsstring :=
  List.map str ["node_modules"; ".git"; "dist"; "build"; ".next";
                "__pycache__"; "vendor"; ".cache"; "coverage"]%string.

(** The callback of the [filter] of [pruneFileTree]. *)
Definition keepNode `{Runtime} (nm ty : jsstring) : bool :=
  if isDir ty && includesStr pruneSkipDirs nm then false
  else if isFile ty then
    if includesStr skipFiles nm then false
    else negb (includesStr skipExtensions
                 (toLowerCase (substring nm (lastIndexOf DOT nm))))
  else true.

(** [tree.filter(keep).map(f)] in one pass. *)
Definition filterMap {A B} (keep : A -> bool) (f : A -> B) (l : list A) : list B :=
  flat_map (fun x => if keep x then [f x] else []) l.

(** The callback of the [map] of [pruneFileTree], with the recursive
    call [pruneFileTree(node.children)] inlined. *)
Fixpoint pruneNode `{Runtime} (node : TreeNode) {struct node} : TreeNode :=
  match node with
  | mkNode nm pa ty sz ch =>
      mkNode nm pa ty sz
        (match ch with
         | Some l => Some (filterMap (fun n => keepNode (name n) (type n)) pruneNode l)
         | None => None
         end)
  end.

(** [pruneFileTree(tree)] *)
Definition pruneFileTree `{Runtime} (tree : list TreeNode) : list TreeNode :=
  filterMap (fun n => keepNode (name n) (type n)) pruneNode tree.

End GitHubLib.

(* ===================================================================== *)
(** ** [api/code-analyzer/fetch]: the tree of the fetch route *)
(* ===================================================================== *)

Module FetchRoute.

Definition skipDirs : list jsstring :=
  List.map str ["node_modules"; ".git"; "dist"; "build"; ".next";
                "__pycache__"; "vendor"; ".cache"; "coverage"]%string.

(** [buildFileTree(owner, repo, path, depth = 0)], with its fixed
    bound 4. *)
Definition buildFileTree `{Runtime} (getContent : jsstring -> Contents)
    (path : jsstring) (depth : nat) : list TreeNode :=
  buildTree getContent skipDirs path depth 4.

End FetchRoute.

(* ===================================================================== *)
(** ** Reading the answer of the model *)
(* ===================================================================== *)

Fixpoint dropWhile {A} (p : A -> bool) (l : list A) : list A :=
  match l with
  | [] => []
  | x :: l' => if p x then dropWhile p l' else l
  end.

(** [s.trim()] *)
Definition trim (s : jsstring) : jsstring :=
  rev (dropWhile isSpace (rev (dropWhile isSpace s))).

(** The fence pattern [/```json\n?|\n?```/g]. *)
Definition fenceRe : regex :=
  Alt (Seq (lit "```json") (Opt (chr NL))) (Seq (Opt (chr NL)) (lit "```")).

(** Cut the matched ranges out of a text; the ranges are in order and do
    not overlap, and the rightmost is cut first. *)
Definition cutRanges (s : jsstring) (ms : list (nat * nat)) : jsstring :=
  fold_right (fun m acc => take (fst m) acc ++ drop (snd m) acc) s ms.

(** [content.replace(/```json\n?|\n?```/g, empty)]: every fence is removed. *)
Definition stripFences (content : jsstring) : option jsstring :=
  match allMatches fenceRe content with
  | Some ms => Some (cutRanges content ms)
  | None => None
  end.

(** A value as a condition. *)
Definition truthy (v : json) : bool :=
  match v with
  | JNull => false
  | JBool b => b
  | JNum text => negb (streq text (str "0"))
  | JStr s => match s with [] => false | _ => true end
  | JArr _ | JObj _ => true
  end.

(** [value.name]: [None] when the read throws (the value is [null]),
    [Some None] for [undefined]. *)
Definition getProp (name : string) (v : json) : option (option json) :=
  match v with
  | JNull => None
  | JObj fields => Some (lookupField (str name) fields)
  | _ => Some None
  end.
Arguments getProp _%_string _.

(** [value.slice(0, 15)]: arrays and strings have the method; on anything
    else the call throws ([None]). *)
Definition slice15 (v : option json) : option (list json + jsstring) :=
  match v with
  | Some (JArr elems) => Some (inl (take 15 elems))
  | Some (JStr s) => Some (inr (take 15 s))
  | _ => None
  end.

Record Selection := mkSelection {
  files : list json + jsstring;
  reason : option json;
  tier : option jsstring
}.

(** [files.length] *)
Definition filesLength (fs : list json + jsstring) : nat :=
  match fs with
  | inl elems => length elems
  | inr s => length s
  end.

Definition namesAsFiles (names : list jsstring) : list json + jsstring :=
  inl (List.map JStr names).

(** The prompt of a selection call is built from these four texts. *)
Record SelectionPrompt := mkSelectionPrompt {
  sp_tree : jsstring;
  sp_query : jsstring;
  sp_owner : jsstring;
  sp_repo : jsstring
}.

(** The OpenAI helpers of the library. *)
Module OpenAILib.

(** [extractMentionedFiles(query, fileTreeString)] *)
Definition extractMentionedFiles `{Runtime} (query fileTreeString : jsstring)
    : list jsstring :=
  mentionedFiles query fileTreeString.

Definition fallback : Selection :=
  {| files := namesAsFiles (List.map str ["README.md"; "package.json";
                                          "src/index.js"; "src/App.jsx"]%string);
     reason := Some (JStr (str "Fallback to common entry files"));
     tier := Some (str "fallback") |}.

(** The [try] block of [analyzeFileSelection] after the completion call:
    [None] when it never returns, [Some None] when it throws. *)
Definition readReply `{Runtime} (content : jsstring) : option (option Selection) :=
  match stripFences (trim content) with
  | None => None
  | Some text =>
      Some (match parseJSON text with
            | None => None
            | Some parsed =>
                match getProp "files" parsed with
                | None => None
                | Some filesProp =>
                    match slice15 filesProp with
                    | None => None
                    | Some sliced =>
                        Some {| files := sliced;
                                reason := default None (getProp "reason" parsed);
                                tier := Some (str "ai") |}
                    end
                end
            end)
  end.

(** [analyzeFileSelection(query, fileTree, owner, repo)]; [None] when it
    never returns. *)
Definition analyzeFileSelection `{Runtime} (model : SelectionPrompt -> ModelReply)
    (query fileTree owner repo : jsstring) : option Selection :=
  let mentioned := extractMentionedFiles query fileTree in
  if (0 <? length mentioned)%nat then
    Some {| files := namesAsFiles (take 15 mentioned);
            reason := Some (JStr (str "Files explicitly mentioned in query"));
            tier := Some (str "explicit") |}
  else
    match model (mkSelectionPrompt fileTree query owner repo) with
    | ReplyError _ => Some fallback
    | ReplyText content =>
        match readReply content with
        | None => None
        | Some None => Some fallback
        | Some (Some selection) => Some selection
        end
    end.

End OpenAILib.

(* ===================================================================== *)
(** ** The token helpers of the library *)
(* ===================================================================== *)

Module TokensLib.

Definition CHARS_PER_TOKEN : Z := 4.
Definition SAFE_CONTEXT_TOKENS : Z := 80000.

(** [estimateTokens(text)]: [Math.ceil(text.length / 4)] *)
Definition estimateTokens (text : jsstring) : Z :=
  match text with
  | [] => 0
  | _ => (Z.of_nat (length text) + CHARS_PER_TOKEN - 1) / CHARS_PER_TOKEN
  end%Z.

Record Truncation := mkTruncation {
  t_text : jsstring;
  t_truncated : bool;
  t_originalTokens : Z;
  t_truncatedTokens : option Z
}.

Definition truncationMarker : jsstring :=
  [NL; NL] ++ str "[... content truncated due to length ...]".

(** [truncateToTokenLimit(text, maxTokens)]. The test
    [lastNewline > maxChars * 0.8] is between an integer and a double
    product; for integers below 2^53 it holds exactly when
    [5 * lastNewline > 4 * maxChars]. *)
Definition truncateToTokenLimit (text : jsstring) (maxTokens : Z) : Truncation :=
  let currentTokens := estimateTokens text in
  if (currentTokens <=? maxTokens)%Z then
    mkTruncation text false currentTokens None
  else
    let maxChars := (maxTokens * CHARS_PER_TOKEN)%Z in
    let truncated := sliceTo text maxChars in
    let lastNewline := lastIndexOf NL truncated in
    let cleanTruncated :=
      if (4 * maxChars <? 5 * lastNewline)%Z then sliceTo truncated lastNewline
      else truncated in
    mkTruncation (cleanTruncated ++ truncationMarker) true currentTokens
                 (Some (estimateTokens cleanTruncated)).

Record Assembly := mkAssembly {
  context : jsstring;
  totalTokens : Z;
  includedFiles : list (jsstring * bool);
  skippedFiles : list jsstring
}.

Definition fileHeaderOf (path : jsstring) : jsstring :=
  NL :: str "--- FILE: " ++ path ++ str " ---" ++ [NL].

(** The [for] loop of [buildContextWithLimit] from the state [st] on. *)
Fixpoint assemble (files : list (FileRecord jsstring)) (maxTokens : Z) (st : Assembly)
    : Assembly :=
  match files with
  | [] => st
  | file :: rest =>
      match fr_content file with
      | None | Some [] => assemble rest maxTokens st
      | Some body =>
          let fileHeader := fileHeaderOf (fr_path file) in
          let fileContent := fileHeader ++ body ++ [NL] in
          let fileTokens := estimateTokens fileContent in
          if (maxTokens <? totalTokens st + fileTokens)%Z then
            let remainingTokens := (maxTokens - totalTokens st - 100)%Z in
            if (500 <? remainingTokens)%Z then
              let text := t_text (truncateToTokenLimit body remainingTokens) in
              {| context := context st ++ fileHeader ++ text ++ [NL];
                 totalTokens := totalTokens st;
                 includedFiles := includedFiles st ++ [(fr_path file, true)];
                 skippedFiles := skippedFiles st |}
            else
              {| context := context st;
                 totalTokens := totalTokens st;
                 includedFiles := includedFiles st;
                 skippedFiles := skippedFiles st ++ [fr_path file] |}
          else
            assemble rest maxTokens
              {| context := context st ++ fileContent;
                 totalTokens := (totalTokens st + fileTokens)%Z;
                 includedFiles := includedFiles st ++ [(fr_path file, false)];
                 skippedFiles := skippedFiles st |}
      end
  end.

(** The block of a file that has content: header, body, line feed. *)
Definition blockOf (file : FileRecord jsstring) : jsstring :=
  fileHeaderOf (fr_path file) ++ default [] (fr_content file) ++ [NL].

(** The state after a file is taken whole; a file without content leaves
    the state as it is. *)
Definition includeWhole (st : Assembly) (file : FileRecord jsstring) : Assembly :=
  if noContent (fr_content file) then st
  else {| context := context st ++ blockOf file;
          totalTokens := (totalTokens st + estimateTokens (blockOf file))%Z;
          includedFiles := includedFiles st ++ [(fr_path file, false)];
          skippedFiles := skippedFiles st |}.

Definition includeAll (files : list (FileRecord jsstring)) (st : Assembly) : Assembly :=
  fold_left includeWhole files st.

(** Every file with content fits in its turn, from the total [total] on. *)
Fixpoint allFit (files : list (FileRecord jsstring)) (maxTokens total : Z) : bool :=
  match files with
  | [] => true
  | file :: rest =>
      if noContent (fr_content file) then allFit rest maxTokens total
      else
        let total' := (total + estimateTokens (blockOf file))%Z in
        (total' <=? maxTokens)%Z && allFit rest maxTokens total'
  end.

(** The state the loop is left with when the block of [file] does not
    fit after [st]. *)
Definition overflowResult (maxTokens : Z) (st : Assembly) (file : FileRecord jsstring)
    : Assembly :=
  let remainingTokens := (maxTokens - totalTokens st - 100)%Z in
  if (500 <? remainingTokens)%Z then
    {| context := context st ++ fileHeaderOf (fr_path file)
                  ++ t_text (truncateToTokenLimit (default [] (fr_content file))
                                                  remainingTokens)
                  ++ [NL];
       totalTokens := totalTokens st;
       includedFiles := includedFiles st ++ [(fr_path file, true)];
       skippedFiles := skippedFiles st |}
  else
    {| context := context st;
       totalTokens := totalTokens st;
       includedFiles := includedFiles st;
       skippedFiles := skippedFiles st ++ [fr_path file] |}.

(** [buildContextWithLimit(files, maxTokens = SAFE_CONTEXT_TOKENS)] *)
Definition buildContextWithLimit (files : list (FileRecord jsstring)) (maxTokens : Z)
    : Assembly :=
  assemble files maxTokens (mkAssembly [] 0 [] []).

(** What [countMessageTokens] is handed: nothing ([null], [undefined]), a
    plain string, or a message object, whose [content] is a string or
    absent. *)
Inductive MessageArg :=
| MAbsent
| MString (s : jsstring)
| MObject (content : option jsstring).

(** [countMessageTokens(message)]. A number that is not [NaN] is [Some].
    For an object without content, [message.content || message] is the
    object itself; it is not falsy and has no [length], so the estimate
    is [Math.ceil(undefined / 4)], that is [NaN]. *)
Definition countMessageTokens (message : MessageArg) : option Z :=
  match message with
  | MAbsent | MString [] => Some 0%Z
  | MString s => Some (estimateTokens s + 4)%Z
  | MObject (Some (c :: cs)) => Some (estimateTokens (c :: cs) + 4)%Z
  | MObject _ => None
  end.

(** [a + b] on numbers that may be [NaN]. *)
Definition addNum (a b : option Z) : option Z :=
  match a, b with
  | Some x, Some y => Some (x + y)%Z
  | _, _ => None
  end.

(** [countHistoryTokens(history)]; [None] as argument is a value that is
    falsy or not an array. *)
Definition countHistoryTokens (history : option (list MessageArg)) : option Z :=
  match history with
  | None => Some 0%Z
  | Some msgs =>
      fold_left (fun total msg => addNum total (countMessageTokens msg)) msgs (Some 0%Z)
  end.

Record ContextCheck := mkContextCheck {
  contextTokens : Z;
  historyTokens : option Z;
  allTokens : option Z;
  fits : bool;
  remaining : option Z;
  percentUsed : option Z
}.

(** [checkContextFits(context, history)]. [roundPercent a b] stands for
    [Math.round((a / b) * 100)] in double arithmetic; a comparison with
    [NaN] is false. The field [totalTokens] of the result is [allTokens]
    here. *)
Definition checkContextFits (roundPercent : Z -> Z -> Z) (context : jsstring)
    (history : option (list MessageArg)) : ContextCheck :=
  let contextTokens := estimateTokens context in
  let historyTokens := countHistoryTokens history in
  let totalTokens := addNum (Some contextTokens) historyTokens in
  {| contextTokens := contextTokens;
     historyTokens := historyTokens;
     allTokens := totalTokens;
     fits := match totalTokens with
             | Some t => (t <? SAFE_CONTEXT_TOKENS)%Z
             | None => false
             end;
     remaining := option_map (fun t => SAFE_CONTEXT_TOKENS - t)%Z totalTokens;
     percentUsed := option_map (fun t => roundPercent t SAFE_CONTEXT_TOKENS) totalTokens |}.

(** The text of a message that has some: the characters [countMessageTokens]
    counts. *)
Definition messageText (message : MessageArg) : jsstring :=
  match message with
  | MString s => s
  | MObject (Some s) => s
  | _ => []
  end.

End TokensLib.

(* ===================================================================== *)
(** ** [api/code-analyzer/chat]: the chat route *)
(* ===================================================================== *)

(** A value inside a template literal. *)
Fixpoint jsToString (v : json) : jsstring :=
  match v with
  | JNull => str "null"
  | JBool true => str "true"
  | JBool false => str "false"
  | JNum text => text
  | JStr s => s
  | JArr elems =>
      join (str ",")
        (List.map (fun e => match e with JNull => [] | _ => jsToString e end) elems)
  | JObj _ => str "[object Object]"
  end.

Module ChatRoute.

(** [findMentionedFiles(query, tree)] *)
Definition findMentionedFiles `{Runtime} (query tree : jsstring) : list jsstring :=
  mentionedFiles query tree.

Definition fallback : Selection :=
  {| files := namesAsFiles (List.map str ["README.md"; "package.json"]%string);
     reason := Some (JStr (str "Fallback to default files"));
     tier := None |}.

(** [x || fallbackValue] on an optional value. *)
Definition orElse (v : option json) (other : json) : json :=
  match v with
  | Some x => if truthy x then x else other
  | None => other
  end.

(** The [try] block of [selectRelevantFiles] after the completion call:
    [None] when it never returns, [Some None] when it throws. *)
Definition readReply `{Runtime} (content : jsstring) : option (option Selection) :=
  match stripFences (trim content) with
  | None => None
  | Some text =>
      Some (match parseJSON text with
            | None => None
            | Some parsed =>
                match getProp "files" parsed with
                | None => None
                | Some filesProp =>
                    match slice15 (Some (orElse filesProp (JArr []))) with
                    | None => None
                    | Some sliced =>
                        Some {| files := sliced;
                                reason :=
                                  Some (orElse (default None (getProp "reason" parsed))
                                               (JStr (str "AI selected")));
                                tier := None |}
                    end
                end
            end)
  end.

(** [selectRelevantFiles(query, tree, owner, repo)]; [None] when it never
    returns. The result has no [tier]. *)
Definition selectRelevantFiles `{Runtime} (model : SelectionPrompt -> ModelReply)
    (query tree owner repo : jsstring) : option Selection :=
  let mentioned := findMentionedFiles query tree in
  if (0 <? length mentioned)%nat then
    Some {| files := namesAsFiles (take 15 mentioned);
            reason := Some (JStr (str "Files mentioned in query"));
            tier := None |}
  else
    match model (mkSelectionPrompt tree query owner repo) with
    | ReplyError _ => Some fallback
    | ReplyText content =>
        match readReply content with
        | None => None
        | Some None => Some fallback
        | Some (Some selection) => Some selection
        end
    end.

(** One fetch of [fetchFileContents], for a path of any type [P]. *)
Definition fetchOne {P} (getContent : P -> Contents) (path : P) : FileRecord P :=
  match getContent path with
  | Single item text =>
      if isFile (i_type item) then
        mkFileRecord path (Some text) (Some (i_size item)) None None
      else mkFileRecord path None None None (Some (str "Not a file"))
  | Listing _ => mkFileRecord path None None None (Some (str "Not a file"))
  | Failed err => mkFileRecord path None None None (Some (e_message err))
  end.

(** [fetchFileContents(owner, repo, paths)]: batches of five, each mapped
    in its order and appended to the results. *)
Definition fetchFileContents {P} (getContent : P -> Contents) (paths : list P)
    : list (FileRecord P) :=
  fold_left (fun results batch => results ++ List.map (fetchOne getContent) batch)
            (batchesOf5 paths) [].

Definition MAX_CHARS : Z := 80000 * 4.

(** The [for] loop of [buildContext]. *)
Fixpoint contextLoop (files : list (FileRecord json)) (context : jsstring)
    (totalChars : Z) : jsstring :=
  match files with
  | [] => context
  | file :: rest =>
      match fr_content file with
      | None | Some [] => contextLoop rest context totalChars
      | Some body =>
          let header := NL :: str "--- FILE: " ++ jsToString (fr_path file)
                           ++ str " ---" ++ [NL] in
          let fileBlock := header ++ body ++ [NL] in
          let blockChars := Z.of_nat (length fileBlock) in
          if (MAX_CHARS <? totalChars + blockChars)%Z then
            let remaining := (MAX_CHARS - totalChars - 100)%Z in
            if (500 <? remaining)%Z then
              context ++ header ++ sliceTo body remaining
                ++ NL :: str "[truncated]" ++ [NL]
            else context
          else contextLoop rest (context ++ fileBlock) (totalChars + blockChars)%Z
      end
  end.

Definition headerOf (file : FileRecord json) : jsstring :=
  NL :: str "--- FILE: " ++ jsToString (fr_path file) ++ str " ---" ++ [NL].

(** The block of a file that has content. *)
Definition blockOf (file : FileRecord json) : jsstring :=
  headerOf file ++ default [] (fr_content file) ++ [NL].

(** The blocks of the files that have content, one after the other. *)
Definition wholeBlocks (files : list (FileRecord json)) : jsstring :=
  flat_map (fun file => if noContent (fr_content file) then [] else blockOf file) files.

(** Their length, as the loop counts it. *)
Definition charsOf (files : list (FileRecord json)) : Z :=
  Z.of_nat (length (wholeBlocks files)).

(** Every file with content fits in its turn, from [totalChars] on. *)
Fixpoint allFit (files : list (FileRecord json)) (totalChars : Z) : bool :=
  match files with
  | [] => true
  | file :: rest =>
      if noContent (fr_content file) then allFit rest totalChars
      else
        let total' := (totalChars + Z.of_nat (length (blockOf file)))%Z in
        (total' <=? MAX_CHARS)%Z && allFit rest total'
  end.

(** What the loop appends for a file whose block does not fit. *)
Definition overflowText (totalChars : Z) (file : FileRecord json) : jsstring :=
  let remaining := (MAX_CHARS - totalChars - 100)%Z in
  if (500 <? remaining)%Z then
    headerOf file ++ sliceTo (default [] (fr_content file)) remaining
      ++ NL :: str "[truncated]" ++ [NL]
  else [].

(** [buildContext(files)] *)
Definition buildContext (files : list (FileRecord json)) : jsstring :=
  contextLoop files [] 0.

Record RepoDetails := mkRepoDetails {
  full_name : option jsstring;
  description : option jsstring
}.

Record Message := mkMessage { role : jsstring; content : jsstring }.

(** The fields the handler reads from [req.body]; a request without
    [history] has the empty one. *)
Record Body := mkBody {
  b_query : jsstring;
  b_owner : jsstring;
  b_repo : jsstring;
  b_repoDetails : option RepoDetails;
  b_history : list Message;
  b_tree : option jsstring
}.

(** What reaches the handler: [req.method] and [req.body]. The body is
    [None] when the request carries none ([req.body] is [undefined] or
    [null]). *)
Record Request := mkRequest {
  method : jsstring;
  body : option Body
}.

(** The fields of the body of a request, when it has one. *)
Definition query (req : Request) : jsstring := from_option b_query [] (body req).
Definition owner (req : Request) : jsstring := from_option b_owner [] (body req).
Definition repo (req : Request) : jsstring := from_option b_repo [] (body req).
Definition repoDetails (req : Request) : option RepoDetails :=
  from_option b_repoDetails None (body req).
Definition history (req : Request) : list Message := from_option b_history [] (body req).
Definition tree (req : Request) : option jsstring := from_option b_tree None (body req).

(** [req.body] can be destructured: it is neither [undefined] nor [null]. *)
Definition hasBody (req : Request) : bool :=
  match body req with
  | Some _ => true
  | None => false
  end.

(** The messages of the streamed completion after the system prompt. *)
Record ChatPrompt := mkChatPrompt {
  cp_context : jsstring;
  cp_history : list Message;
  cp_query : jsstring
}.

Definition optText (o : option jsstring) : jsstring := default [] o.

(** [repoDetails?.field] *)
Definition detail (field : RepoDetails -> option jsstring) (req : Request) : jsstring :=
  match repoDetails req with
  | Some d => optText (field d)
  | None => []
  end.

Definition contextMessage (req : Request) (context : jsstring) : jsstring :=
  str "## Repository: "
  ++ orDefault (detail full_name req) (owner req ++ str "/" ++ repo req)
  ++ [NL] ++ detail description req ++ [NL; NL]
  ++ str "## File Contents" ++ [NL] ++ context.

Definition missing (s : jsstring) : bool :=
  match s with
  | [] => true
  | _ => false
  end.

(** The handler of the route. The body is destructured before the [try]
    block: without a body this throws, and nothing is replied, written or
    closed. *)
Definition handler `{Runtime} (getContent : json -> Contents)
    (model : SelectionPrompt -> ModelReply) (stream : ChatPrompt -> StreamReply)
    (req : Request) : M unit :=
  if negb (streq (method req) (str "POST")) then
    act (Reply 405 (str "Method not allowed"))
  else if negb (hasBody req) then
    throw (str "Cannot destructure property 'query' of 'req.body' as it is undefined.")
  else if missing (query req) || missing (owner req) || missing (repo req) then
    act (Reply 400 (str "Missing required fields"))
  else
    tryFinally
      (tryCatch
         (sendEvent "status" (PStatus (str "Analyzing query...") 10) >>>
          let* relevantFiles :=
            match tree req with
            | None => throw (str "Cannot read properties of undefined (reading 'split')")
            | Some t => orDiverge (selectRelevantFiles model (query req) t
                                     (owner req) (repo req))
            end in
          let count := filesLength (files relevantFiles) in
          sendEvent "files" (PFiles (files relevantFiles) (reason relevantFiles) count) >>>
          sendEvent "status"
            (PStatus (str "Fetching " ++ numToString (N.of_nat count) ++ str " files...")
                     30) >>>
          let* fileContents :=
            match files relevantFiles with
            | inl paths =>
                forEach paths (fun p => act (GetContent (jsToString p))) >>>
                ret (fetchFileContents getContent paths)
            | inr [] => ret []
            | inr (_ :: _) => throw (str "batch.map is not a function")
            end in
          let context := buildContext fileContents in
          sendEvent "status" (PStatus (str "Generating response...") 60) >>>
          let* chunks :=
            match stream (mkChatPrompt (contextMessage req context)
                            (List.map (fun m =>
                                         mkMessage (if streq (role m) (str "model")
                                                    then str "assistant" else role m)
                                                   (content m))
                                      (history req))
                            (query req)) with
            | StreamRefused message => throw message
            | StreamOf chunks failure => ret (chunks, failure)
            end in
          sendEvent "status" (PStatus (str "Streaming response...") 80) >>>
          forEach (fst chunks)
            (fun chunk =>
               match chunk with
               | Some (c :: cs) => sendEvent "chunk" (PChunk (c :: cs))
               | _ => ret tt
               end) >>>
          match snd chunks with
          | Some message => throw message
          | None => ret tt
          end >>>
          sendEvent "status" (PStatus (str "Complete") 100) >>>
          sendEvent "done" PDone)
         (fun e =>
            sendEvent "error" (PError (orDefault e (str "Failed to generate response")))))
      (act End).

(** The test the handler passes before it opens the stream: a [POST]
    with a body whose [query], [owner] and [repo] are not missing. *)
Definition accepted (req : Request) : bool :=
  streq (method req) (str "POST") && hasBody req
  && negb (missing (query req) || missing (owner req) || missing (repo req)).

End ChatRoute.

(* ===================================================================== *)
(** ** Reading a trace of a handler *)
(* ===================================================================== *)

(** A terminal event is a write of type [complete], [done] or [error]. *)
Definition isTerminal (a : Action) : bool :=
  match a with
  | Write e => includesStr [str "complete"; str "done"; str "error"] (ev_type e)
  | _ => false
  end.

Definition isWrite (a : Action) : bool :=
  match a with
  | Write _ => true
  | _ => false
  end.

Definition isStatus (a : Action) : bool :=
  match a with
  | Write e => streq (ev_type e) (str "status")
  | _ => false
  end.

Definition isEnd (a : Action) : bool :=
  match a with
  | End => true
  | _ => false
  end.

(** The writes and closes of a trace, without the requests to the source
    host. *)
Definition channel (t : list Action) : list Action :=
  List.filter (fun a => isWrite a || isEnd a) t.

(** A write that is not terminal. *)
Definition plainWrite (a : Action) : bool := isWrite a && negb (isTerminal a).

(** The closing discipline on the writes and closes of a request: events
    that are not terminal, then one terminal event, then the close and
    nothing else. *)
Fixpoint disciplined (t : list Action) : bool :=
  match t with
  | [] => false
  | a :: t' =>
      if isTerminal a then
        match t' with
        | [] => false
        | _ :: _ => forallb isEnd t'
        end
      else isWrite a && disciplined t'
  end.

Definition closesAfterTerminal (t : list Action) : Prop :=
  disciplined (channel t) = true.

Definition isGet (a : Action) : bool :=
  match a with
  | GetContent _ => true
  | _ => false
  end.

(** The paths requested from the source host, in order. *)
Definition requested (t : list Action) : list jsstring :=
  flat_map (fun a => match a with GetContent p => [p] | _ => [] end) t.

Definition isReply (a : Action) : bool :=
  match a with
  | Reply _ _ => true
  | _ => false
  end.

(** The number of terminal events of a trace. *)
Definition terminalEvents (t : list Action) : nat := length (List.filter isTerminal t).


(* ===================================================================== *)
(** ** Sample data *)
(* ===================================================================== *)

Definition sampleFinding (file : string) (line : N) (title severity confidence : string)
    : Finding :=
  {| f_id := str file; f_file := str file; f_line := line; f_type := str "Sample";
     f_severity := str severity; f_title := str title; f_description := [];
     f_fix := []; f_match := None; f_snippet := None;
     f_confidence := str confidence; f_source := Some (str "ai") |}.
Arguments sampleFinding _%_string _ _%_string _%_string _%_string.

Definition sampleCritical : Finding := sampleFinding "a.js" 1 "A" "critical" "medium".

(** Two findings that differ in file, line and title and have the same
    key [a:1:2:x]. *)
Definition sampleColonTitle : Finding := sampleFinding "a" 1 "2:x" "high" "medium".
Definition sampleColonFile : Finding := sampleFinding "a:1" 2 "x" "high" "medium".
(** A finding with the file, line and title of [sampleCritical]. *)
Definition sampleCriticalAgain : Finding := sampleFinding "a.js" 1 "A" "low" "high".
Definition sampleMediumLow : Finding := sampleFinding "b.js" 2 "B" "medium" "low".
Definition sampleMediumHigh : Finding := sampleFinding "c.js" 3 "C" "medium" "high".

Definition sampleItem (name type : string) : Item :=
  mkItem (str name) (str name) (str type) 1 [].
Arguments sampleItem _%_string _%_string.

(** A source host that knows one file, [a.js], and fails otherwise. *)
Definition sampleHost (p : jsstring) : Contents :=
  if streq p (str "a.js") then Single (sampleItem "a.js" "file") (str "x = eval(y)")
  else Failed (mkRemoteError (Some 404%Z) (str "Not Found")).

Definition sampleScanRequest : ScanRoute.Request :=
  ScanRoute.mkRequest (str "POST")
    (Some (ScanRoute.mkBody (str "owner") (str "repo") (Some [str "a.js"]))).

Definition sampleRecord (path body : string) : FileRecord jsstring :=
  mkFileRecord (str path) (Some (str body)) None None None.
Arguments sampleRecord _%_string _%_string.

(** Three small files; each block costs 5 tokens. *)
Definition sampleRecords : list (FileRecord jsstring) :=
  [sampleRecord "a" "x"; sampleRecord "b" "x"; sampleRecord "c" "x"].

(** A repository with a file named [build] and a directory [coverage]
    below [src]. *)
Definition sampleRepo (p : jsstring) : Contents :=
  if streq p [] then
    Listing [sampleItem "build" "file"; sampleItem "src" "dir"; sampleItem "dist" "dir"]
  else if streq p (str "src") then
    Listing [sampleItem "main.js" "file"; sampleItem "coverage" "dir"]
  else Listing [].

(** A tree of one file whose name holds a line feed. *)
Definition sampleTwoLineName : list TreeNode :=
  [mkNode (str "a" ++ [NL] ++ str "b") (str "a" ++ [NL] ++ str "b") (str "file") 1 None].

Definition sampleTree : list TreeNode :=
  [mkNode (str "src") (str "src") (str "dir") 0
     (Some [mkNode (str "index.js") (str "src/index.js") (str "file") 10 None;
            mkNode (str "lib") (str "src/lib") (str "dir") 0 (Some [])]);
   mkNode (str "README.md") (str "README.md") (str "file") 20 None].

Definition quoted (s : string) : jsstring := [DQUOTE] ++ str s ++ [DQUOTE].
Arguments quoted _%_string.

(** The line of scenario B, the text of it that the rule for API keys
    matches, and a file of three lines with that line in the middle. *)
Definition apiKeyAssignment : jsstring :=
  str "apiKey = " ++ quoted "sk-aaaaaaaaaaaaaaaaaaaaaaaa".
Definition apiKeyLine : jsstring := str "const " ++ apiKeyAssignment ++ str ";".
Definition sampleSource : jsstring :=
  str "// config" ++ [NL] ++ apiKeyLine ++ [NL] ++ str "export default apiKey;".

(** The reply [{"files":["index.js"],"reason":"entry point"}] and its
    value. *)

Definition sampleReplyText : jsstring :=
  str "{" ++ quoted "files" ++ str ":[" ++ quoted "index.js" ++ str "],"
  ++ quoted "reason" ++ str ":" ++ quoted "entry point" ++ str "}".

Definition sampleReplyValue : json :=
  JObj [(str "files", JArr [JStr (str "index.js")]);
        (str "reason", JStr (str "entry point"))].

(** A parser that knows two documents: the reply above and [{}]. *)
Definition sampleParse (text : jsstring) : option json :=
  if streq text sampleReplyText then Some sampleReplyValue
  else if streq text (str "{}") then Some (JObj [])
  else None.

Definition sampleRuntime : Runtime :=
  {| toLowerCase := List.map asciiLower;
     localeCompare := asciiCompare;
     fetchProgress i n := (10 + (60 * Z.of_nat i + Z.of_nat n) / (2 * Z.of_nat n))%Z;
     now := 0;
     parseJSON := sampleParse;
     sortRanks := fun _ _ => [] |}.

(** Three files of about 1000 tokens each (scenario C). *)
Definition sampleLargeRecords : list (FileRecord jsstring) :=
  List.map (fun nm => mkFileRecord (str nm) (Some (repeat 120 4000)) None None None)
           ["a.js"; "b.js"; "c.js"]%string.

(* ===================================================================== *)
(** ** The report helpers of [src/lib/code-analyzer/security.js] *)
(* ===================================================================== *)

Module SecurityReport.

(** [groupBySeverity(findings)] *)
Definition groupBySeverity (findings : list Finding) : Grouped :=
  {| g_critical := List.filter (fun f => streq (f_severity f) (str "critical")) findings;
     g_high := List.filter (fun f => streq (f_severity f) (str "high")) findings;
     g_medium := List.filter (fun f => streq (f_severity f) (str "medium")) findings;
     g_low := List.filter (fun f => streq (f_severity f) (str "low")) findings |}.

(** The groups of a grouping, one after the other. *)
Definition inOrder (g : Grouped) : list Finding :=
  g_critical g ++ g_high g ++ g_medium g ++ g_low g.

(** A severity the order of [scanFiles] knows. *)
Definition knownSeverity (f : Finding) : bool :=
  match SecurityLib.severityOrder (f_severity f) with
  | Some _ => true
  | None => false
  end.

End SecurityReport.

(* ===================================================================== *)
(** ** Reading the input of the fetch route *)
(* ===================================================================== *)

Inductive ParsedInput :=
| RepoInput (owner repo : jsstring)
| ProfileInput (username : jsstring).

(** [s.split(sep)] for a separator of one character: always at least one
    piece. *)
Fixpoint splitOn (sep : char) (s : jsstring) : list jsstring :=
  match s with
  | [] => [[]]
  | c :: rest =>
      if N.eqb c sep then [] :: splitOn sep rest
      else match splitOn sep rest with
           | [] => [[c]]
           | l :: ls => (c :: l) :: ls
           end
  end.

Definition SLASH : char := 47.
Definition notSlash (c : char) : bool := negb (N.eqb c SLASH).

(** The text between two places of a text, each place given by the text
    from it on. *)
Definition between (from to : jsstring) : jsstring :=
  take (length from - length to) from.

(** One try of the pattern [github\.com\/([^\/]+)(?:\/(S+))?] at the head
    of a text, where [S] is the class [second]: the groups 1 and 2. The
    matcher runs the parts of the pattern in turn; the continuation of a
    part records where a group starts and ends. The optional group is
    tried first and given up when it fails. *)
Definition urlMatchHere (second : char -> bool) (prev : option char) (s : jsstring)
    : option (jsstring * option jsstring) :=
  run (lit "github.com/") prev s (fun p1 s1 =>
    run (RepMin notSlash 1) p1 s1 (fun p2 s2 =>
      let group1 := between s1 s2 in
      match run (chr SLASH) p2 s2 (fun p3 s3 =>
              run (RepMin second 1) p3 s3 (fun _ s4 =>
                Some (group1, Some (between s3 s4)))) with
      | Some groups => Some groups
      | None => Some (group1, None)
      end)).

(** [input.match(pattern)] without the flag [g]: the leftmost place where
    a try succeeds. *)
Fixpoint firstMatch {A} (try : option char -> jsstring -> option A)
    (prev : option char) (s : jsstring) : option A :=
  match try prev s with
  | Some a => Some a
  | None =>
      match s with
      | [] => None
      | c :: s' => firstMatch try (Some c) s'
      end
  end.

(** The pattern [\.git$]. *)
Definition gitSuffixRe : regex := Seq (lit ".git") Eol.

(** [repo.replace(/\.git$/, empty)] *)
Definition stripGitSuffix (repo : jsstring) : jsstring :=
  match exec gitSuffixRe repo 0 with
  | Some (i, _) => take i repo
  | None => repo
  end.

(** The body shared by the two copies of [parseGitHubInput]; they differ
    in the class of group 2. *)
Definition parseInputWith (second : char -> bool) (input : jsstring) : ParsedInput :=
  match firstMatch (urlMatchHere second) None input with
  | Some (group1, Some group2) => RepoInput group1 (stripGitSuffix group2)
  | Some (group1, None) => ProfileInput group1
  | None =>
      if includes input [SLASH] then
        match splitOn SLASH input with
        | (_ :: _) as owner :: (_ :: _) as repo :: _ => RepoInput owner repo
        | _ => ProfileInput input
        end
      else ProfileInput input
  end.

(** [parseGitHubInput] of the fetch route; the handler hands it the
    trimmed input. *)
Module FetchRouteInput.

(** [[^\/\s]] *)
Definition second (c : char) : bool := notSlash c && negb (isSpace c).

Definition parseGitHubInput (input : jsstring) : ParsedInput :=
  parseInputWith second input.

End FetchRouteInput.

(** [parseGitHubInput] of the library. *)
Module GitHubLibInput.

Definition parseGitHubInput (input : jsstring) : ParsedInput :=
  parseInputWith notSlash (trim input).

End GitHubLibInput.

(* ===================================================================== *)
(** ** The diagram helpers *)
(* ===================================================================== *)

(** Replace the matched ranges of a text; the ranges are in order and do
    not overlap, and the rightmost is replaced first. *)
Definition replaceRanges (s replacement : jsstring) (ms : list (nat * nat)) : jsstring :=
  fold_right (fun m acc => take (fst m) acc ++ replacement ++ drop (snd m) acc) s ms.

(** [s.replace(pattern, replacement)] for a global pattern; [None] when
    the search never ends. *)
Definition replaceAll (r : regex) (replacement s : jsstring) : option jsstring :=
  match allMatches r s with
  | Some ms => Some (replaceRanges s replacement ms)
  | None => None
  end.

Module Mermaid.

Definition LT : char := 60.
Definition GT : char := 62.
Definition BACKTICK : char := 96.
Definition BACKSLASH : char := 92.
Definition UNDERSCORE : char := 95.
Definition SPACE : char := 32.

(** The pattern of a tag: [<], any characters but [>], then [>]. *)
Definition tagRe : regex := seqs [chr LT; RepMin (isNot GT) 0; chr GT].

(** The pattern [\s+]. *)
Definition spacesRe : regex := RepMin isSpace 1.

(** A global replacement of every character of a class by one
    character. *)
Definition replaceChars (class : char -> bool) (by_ : char) (s : jsstring) : jsstring :=
  List.map (fun c => if class c then by_ else c) s.

(** [sanitizeMermaidText(text)] for a string (the empty string stands for
    every falsy value); [None] when a search never ends. *)
Definition sanitizeMermaidText (text : jsstring) : option jsstring :=
  match text with
  | [] => Some []
  | _ =>
      match replaceAll tagRe [] text with
      | None => None
      | Some noTags =>
          let t := replaceChars (N.eqb BACKTICK) SQUOTE noTags in
          let t := replaceChars (N.eqb DQUOTE) SQUOTE t in
          let t := replaceChars (N.eqb SQUOTE) SQUOTE t in
          let t := List.filter (fun c => negb (oneOf [LT; GT] c)) t in
          let t := replaceChars (oneOf [BACKSLASH; SLASH]) SPACE t in
          let t := replaceChars (oneOf [NL; CR]) SPACE t in
          match replaceAll spacesRe [SPACE] t with
          | None => None
          | Some normal => Some (take 50 (trim normal))
          end
      end
  end.

(** [[a-zA-Z0-9]] *)
Definition isAlnum (c : char) : bool :=
  inRange 97 122 c || inRange 65 90 c || inRange 48 57 c.

Definition isDigit (c : char) : bool := inRange 48 57 c.

(** [sanitizeNodeId(id)] for a string; [random] stands for the text
    [Math.random().toString(36).slice(2, 8)]. *)
Definition sanitizeNodeId (random : jsstring) (id : jsstring) : jsstring :=
  match id with
  | [] => str "node" ++ random
  | _ =>
      let replaced := replaceChars (fun c => negb (isAlnum c)) UNDERSCORE id in
      let prefixed := match replaced with
                      | c :: _ => if isDigit c then UNDERSCORE :: replaced else replaced
                      | [] => replaced
                      end in
      take 30 prefixed
  end.

Inductive Validation :=
| Valid
| Invalid (error : jsstring).

Definition validTypes : list jsstring :=
  List.map str ["graph"; "flowchart"; "sequenceDiagram"; "classDiagram";
                "stateDiagram"; "erDiagram"; "gantt"; "pie"; "gitGraph"]%string.

(** The lines of [code.trim().split(line feed)] that are not blank. *)
Definition codeLines (code : jsstring) : list jsstring :=
  List.filter (fun l => match trim l with [] => false | _ => true end)
              (splitLines (trim code)).

(** [validateMermaidSyntax(code)] for a string. *)
Definition validateMermaidSyntax `{Runtime} (code : jsstring) : Validation :=
  match code with
  | [] => Invalid (str "Empty or invalid code")
  | _ =>
      let lines := codeLines code in
      if (length lines <? 2)%nat then Invalid (str "Diagram too short")
      else
        let firstLine := toLowerCase (trim (List.hd [] lines)) in
        if existsb (fun type => startsWith type firstLine) validTypes then Valid
        else Invalid (str "Invalid diagram type")
  end.

(** A character that can stand in a quoted label: none of the two angle
    brackets, the backtick, the double quote, the two slashes, the line
    feed and the carriage return. *)
Definition labelSafe (c : char) : bool :=
  negb (oneOf [LT; GT; BACKTICK; DQUOTE; BACKSLASH; SLASH; NL; CR] c).

(** An ASCII capital letter. *)
Definition isUpper (c : char) : bool := inRange 65 90 c.

End Mermaid.

(* ===================================================================== *)
(** ** A fenced answer *)
(* ===================================================================== *)

(** The two fences a model puts around a JSON answer, each with its line
    feed. *)
Definition fenceOpen : jsstring := str "```json" ++ [NL].
Definition fenceClose : jsstring := NL :: str "```".

(** A character that is not a backtick. *)
Definition notBacktick (c : char) : bool := negb (N.eqb 96 c).

(** A repository whose listings report full paths: a file [README.md] and
    a directory [src] with the file [main.js]. The path of a file is
    answered with that file, any other path with an error. *)
Definition samplePathHost (p : jsstring) : Contents :=
  if streq p [] then
    Listing [mkItem (str "README.md") (str "README.md") (str "file") 1 [];
             mkItem (str "src") (str "src") (str "dir") 0 []]
  else if streq p (str "src") then
    Listing [mkItem (str "main.js") (str "src/main.js") (str "file") 1 []]
  else if streq p (str "README.md") then
    Single (mkItem (str "README.md") (str "README.md") (str "file") 1 []) (str "x")
  else if streq p (str "src/main.js") then
    Single (mkItem (str "main.js") (str "src/main.js") (str "file") 1 []) (str "y")
  else Failed (mkRemoteError (Some 404%Z) (str "Not Found")).
(* ===================================================================== *)
(** * Verification *)
(* ===================================================================== *)

(** ** Deduplication *)

Section Dedup.
Implicit Types (seen extra : gset jsstring) (l : list Finding) (f : Finding).

Lemma dedupLoop_snoc seen l f :
  dedupLoop seen (l ++ [f]) =
    if bool_decide (findingKey f ∈ seen ∨ findingKey f ∈ findingKey <$> l)
    then dedupLoop seen l
    else dedupLoop seen l ++ [f].
Proof.
  revert seen. induction l as [|g l IH]; intros seen; cbn [dedupLoop app].
  - destruct (bool_decide (findingKey f ∈ seen)) eqn:E.
    + apply bool_decide_eq_true in E. rewrite bool_decide_eq_true_2; auto.
    + apply bool_decide_eq_false in E. rewrite bool_decide_eq_false_2; auto.
      intros [?|Hin]; [done|]. by apply elem_of_nil in Hin.
  - rewrite fmap_cons. destruct (bool_decide (findingKey g ∈ seen)) eqn:E.
    + apply bool_decide_eq_true in E. rewrite IH.
      apply (f_equal (fun b : bool => if b then _ else _)).
      apply bool_decide_ext. rewrite elem_of_cons.
      split; [tauto|]. intros [?|[->|?]]; auto.
    + rewrite IH.
      assert (bool_decide (findingKey f ∈ {[findingKey g]} ∪ seen
                           ∨ findingKey f ∈ findingKey <$> l)
              = bool_decide (findingKey f ∈ seen
                             ∨ findingKey f ∈ findingKey g :: (findingKey <$> l))) as ->.
      { apply bool_decide_ext. rewrite elem_of_cons, elem_of_union, elem_of_singleton.
        tauto. }
      clear E. destruct (bool_decide _); reflexivity.
Qed.

Lemma dedupLoop_union extra seen l :
  dedupLoop (extra ∪ seen) l =
    List.filter (fun f => negb (bool_decide (findingKey f ∈ extra))) (dedupLoop seen l).
Proof.
  revert seen. induction l as [|g l IH]; intros seen; simpl; [done|].
  destruct (bool_decide (findingKey g ∈ seen)) eqn:Es.
  - apply bool_decide_eq_true in Es.
    rewrite bool_decide_eq_true_2 by set_solver. apply IH.
  - apply bool_decide_eq_false in Es. simpl.
    destruct (bool_decide (findingKey g ∈ extra)) eqn:Ee; simpl.
    + apply bool_decide_eq_true in Ee.
      rewrite bool_decide_eq_true_2 by set_solver.
      rewrite <- IH. f_equal. set_solver.
    + apply bool_decide_eq_false in Ee.
      rewrite bool_decide_eq_false_2 by set_solver.
      f_equal. rewrite <- IH. f_equal. set_solver.
Qed.

Lemma dedupLoop_app seen l1 l2 :
  dedupLoop seen (l1 ++ l2) =
    dedupLoop seen l1 ++ dedupLoop (list_to_set (findingKey <$> l1) ∪ seen) l2.
Proof.
  revert seen. induction l1 as [|g l1 IH]; intros seen; simpl.
  - f_equal. set_solver.
  - destruct (bool_decide (findingKey g ∈ seen)) eqn:E.
    + apply bool_decide_eq_true in E. rewrite IH. do 2 f_equal. set_solver.
    + rewrite <- app_comm_cons, IH. do 3 f_equal. set_solver.
Qed.

Lemma dedupLoop_again seen seen' l :
  seen' ⊆ seen -> dedupLoop seen' (dedupLoop seen l) = dedupLoop seen l.
Proof.
  revert seen seen'. induction l as [|g l IH]; intros seen seen' Hsub; simpl; [done|].
  destruct (bool_decide (findingKey g ∈ seen)) eqn:E.
  - by apply IH.
  - apply bool_decide_eq_false in E. simpl.
    rewrite bool_decide_eq_false_2 by set_solver.
    f_equal. apply IH. set_solver.
Qed.
End Dedup.

Section Keys.

Lemma colonFree_app (a b : jsstring) :
  colonFree (a ++ b) = colonFree a && colonFree b.
Proof. apply forallb_app. Qed.

(** A text is cut at its first colon in one way only. *)
Lemma cut_at_colon (a a' b b' : jsstring) :
  colonFree a = true -> colonFree a' = true ->
  a ++ 58 :: b = a' ++ 58 :: b' -> a = a' /\ b = b'.
Proof.
  revert a'. induction a as [|c a IH]; intros [|c' a'] Ha Ha' Heq; cbn in *.
  - by injection Heq as ->.
  - injection Heq as <- _. by rewrite N.eqb_refl in Ha'.
  - injection Heq as -> _. by rewrite N.eqb_refl in Ha.
  - injection Heq as <- Heq.
    apply andb_true_iff in Ha as [_ Ha]. apply andb_true_iff in Ha' as [_ Ha'].
    destruct (IH a' Ha Ha' Heq) as [-> ->]. done.
Qed.

Lemma str_inj (s t : string) : str s = str t -> s = t.
Proof.
  unfold str. intros Heq.
  rewrite <- (string_of_list_ascii_of_string s), <- (string_of_list_ascii_of_string t).
  f_equal. revert Heq. generalize (list_ascii_of_string s) (list_ascii_of_string t).
  induction l as [|x l IH]; intros [|y l'] Heq; cbn in Heq; try discriminate; [done|].
  injection Heq as Hxy Heq. f_equal; [|by apply IH].
  by rewrite <- (ascii_N_embedding x), <- (ascii_N_embedding y), Hxy.
Qed.

Lemma to_uint_nonnil (n : N) : N.to_uint n <> Decimal.Nil.
Proof. destruct n as [|p]; [discriminate|apply DecimalPos.Unsigned.to_uint_nonnil]. Qed.

(** [String(n)] tells the number. *)
Lemma numToString_inj (n m : N) : numToString n = numToString m -> n = m.
Proof.
  unfold numToString. intros Heq%str_inj.
  apply DecimalN.Unsigned.to_uint_inj.
  pose proof (NilZero.usu _ (to_uint_nonnil n)) as Hn.
  pose proof (NilZero.usu _ (to_uint_nonnil m)) as Hm.
  rewrite Heq in Hn. congruence.
Qed.

(** [String(n)] is made of digits. *)
Lemma string_of_uint_colonFree (d : Decimal.uint) :
  colonFree (str (NilZero.string_of_uint d)) = true.
Proof.
  destruct d as [|d|d|d|d|d|d|d|d|d|d]; [reflexivity|..];
    induction d as [|d IH|d IH|d IH|d IH|d IH|d IH|d IH|d IH|d IH|d IH];
    try reflexivity; exact IH.
Qed.

Lemma numToString_colonFree (n : N) : colonFree (numToString n) = true.
Proof. apply string_of_uint_colonFree. Qed.

(** Findings with the same file, line and title have the same key; for
    files without a colon the key tells the three. *)
Lemma findingKey_triple (f g : Finding) :
  colonFree (f_file f) = true -> colonFree (f_file g) = true ->
  findingKey f = findingKey g -> findingTriple f = findingTriple g.
Proof.
  unfold findingKey, findingTriple. change (str ":") with [58]. cbn [app].
  intros Hf Hg Heq.
  apply cut_at_colon in Heq as [-> Heq]; [|done..].
  apply cut_at_colon in Heq as [Hline ->]; [|apply numToString_colonFree..].
  by rewrite (numToString_inj _ _ Hline).
Qed.

Lemma findingTriple_key (f g : Finding) :
  findingTriple f = findingTriple g -> findingKey f = findingKey g.
Proof. unfold findingTriple, findingKey. by intros [= -> -> ->]. Qed.

End Keys.

(** X30. What deduplication does. The key of a finding is the text
    [file:line:title]. Deduplication keeps a finding exactly when no
    earlier finding of the list has the same key; with the pattern findings
    listed before the model findings, all first occurrences among the
    pattern findings are kept and a model finding is kept only when its key
    is new; and deduplicating twice gives the same list as once. Findings
    with the same file, line and title have the same key; the converse
    holds for findings whose file names hold no colon, and on such
    findings deduplication keeps a finding exactly when no earlier finding
    has its file, line and title. *)
Theorem dedup_keeps_first_occurrence :
  (forall (l : list Finding) (f : Finding),
      ScanRoute.deduplicateFindings (l ++ [f]) =
        if bool_decide (findingKey f ∈ findingKey <$> l)
        then ScanRoute.deduplicateFindings l
        else ScanRoute.deduplicateFindings l ++ [f])
  /\ (forall patternFindings aiFindings : list Finding,
         ScanRoute.deduplicateFindings (patternFindings ++ aiFindings) =
           ScanRoute.deduplicateFindings patternFindings
           ++ List.filter
                (fun a => negb (bool_decide (findingKey a ∈ findingKey <$> patternFindings)))
                (ScanRoute.deduplicateFindings aiFindings))
  /\ (forall l : list Finding,
         ScanRoute.deduplicateFindings (ScanRoute.deduplicateFindings l) =
           ScanRoute.deduplicateFindings l)
  /\ (forall f g : Finding,
         (findingTriple f = findingTriple g -> findingKey f = findingKey g)
         /\ (colonFree (f_file f) = true -> colonFree (f_file g) = true ->
             findingKey f = findingKey g -> findingTriple f = findingTriple g))
  /\ (forall (l : list Finding) (f : Finding),
         forallb (fun g => colonFree (f_file g)) (f :: l) = true ->
         ScanRoute.deduplicateFindings (l ++ [f]) =
           if bool_decide (findingTriple f ∈ findingTriple <$> l)
           then ScanRoute.deduplicateFindings l
           else ScanRoute.deduplicateFindings l ++ [f]).
Proof.
  assert (Hsnoc : forall (l : list Finding) (f : Finding),
      ScanRoute.deduplicateFindings (l ++ [f]) =
        if bool_decide (findingKey f ∈ findingKey <$> l)
        then ScanRoute.deduplicateFindings l
        else ScanRoute.deduplicateFindings l ++ [f]).
  { unfold ScanRoute.deduplicateFindings. intros l f. rewrite dedupLoop_snoc.
    apply (f_equal (fun b : bool => if b then _ else _)).
    apply bool_decide_ext. set_solver. }
  split; [exact Hsnoc|]. unfold ScanRoute.deduplicateFindings. split; [|split; [|split]].
  - intros ps ais. rewrite dedupLoop_app. f_equal.
    rewrite dedupLoop_union. apply filter_ext. intros a.
    f_equal. apply bool_decide_ext. set_solver.
  - intros l. by apply dedupLoop_again.
  - intros f g. split; [apply findingTriple_key|apply findingKey_triple].
  - intros l f Hfree. cbn [forallb] in Hfree. apply andb_true_iff in Hfree as [Hf Hl].
    rewrite forallb_forall in Hl.
    fold (ScanRoute.deduplicateFindings (l ++ [f])). rewrite Hsnoc.
    apply (f_equal (fun b : bool => if b then _ else _)).
    apply bool_decide_ext. rewrite !list_elem_of_fmap. split.
    + intros (g & Hkey & Hg). exists g. split; [|done].
      apply findingKey_triple; [done| |done]. apply Hl. by apply list_elem_of_In.
    + intros (g & Htriple & Hg). exists g. split; [|done]. by apply findingTriple_key.
Qed.

(** On the sample findings, whose file names hold no colon: a later
    finding with the file, line and title of an earlier one is dropped,
    whatever its other fields. *)
Lemma dedup_keeps_first_occurrence_witness :
  forallb (fun g => colonFree (f_file g)) [sampleCriticalAgain; sampleCritical] = true
  /\ findingTriple sampleCriticalAgain = findingTriple sampleCritical
  /\ ScanRoute.deduplicateFindings ([sampleCritical] ++ [sampleCriticalAgain])
     = ScanRoute.deduplicateFindings [sampleCritical].
Proof.
  split; [reflexivity|]. split; [reflexivity|].
  destruct dedup_keeps_first_occurrence as (_ & _ & _ & _ & Htriple).
  rewrite (Htriple [sampleCritical] sampleCriticalAgain); [|reflexivity].
  rewrite bool_decide_eq_true_2; [reflexivity|].
  apply list_elem_of_fmap. exists sampleCritical. split; [reflexivity|]. by left.
Defined.

(** C9 fails on the code. The key is one text, and two findings that
    differ in file, line and title can have the same key: the findings
    (a, 1, 2:x) and (a:1, 2, x) both have the key [a:1:2:x]. The second is
    dropped by the route and by the deduplication of the library, although
    no earlier finding has its file, its line or its title. *)
Lemma dedup_drops_finding_with_new_triple :
  findingTriple sampleColonTitle = (str "a", 1, str "2:x")
  /\ findingTriple sampleColonFile = (str "a:1", 2, str "x")
  /\ findingTriple sampleColonTitle <> findingTriple sampleColonFile
  /\ findingKey sampleColonTitle = str "a:1:2:x"
  /\ findingKey sampleColonFile = str "a:1:2:x"
  /\ ScanRoute.deduplicateFindings [sampleColonTitle; sampleColonFile]
     = [sampleColonTitle]
  /\ dedupLoop ∅ [sampleColonTitle; sampleColonFile] = [sampleColonTitle].
Proof.
  split; [reflexivity|]. split; [reflexivity|]. split; [discriminate|].
  split; [reflexivity|]. split; [reflexivity|]. split; vm_compute; reflexivity.
Qed.

(** ** The final filter *)

Lemma streq_true (a b : jsstring) : streq a b = true <-> a = b.
Proof. unfold streq. apply bool_decide_eq_true. Qed.

Lemma keepFinding_true (f : Finding) :
  ScanRoute.keepFinding f = true <->
    f_severity f = str "critical" \/ f_severity f = str "high"
    \/ f_confidence f = str "high".
Proof.
  unfold ScanRoute.keepFinding. rewrite !orb_true_iff, !streq_true. tauto.
Qed.

(** C7. The final filter of the scan keeps, in their order, exactly the
    findings whose severity is critical or high or whose confidence is
    high; of one critical, one medium with low confidence and one medium
    with high confidence it keeps the first and the last. *)
Theorem final_filter_retains :
  (forall (fs : list Finding) (f : Finding),
      In f (ScanRoute.filteredFindings fs) <->
        In f fs /\ (f_severity f = str "critical" \/ f_severity f = str "high"
                    \/ f_confidence f = str "high"))
  /\ (forall fs : list Finding, sublist (ScanRoute.filteredFindings fs) fs)
  /\ ScanRoute.filteredFindings [sampleCritical; sampleMediumLow; sampleMediumHigh]
     = [sampleCritical; sampleMediumHigh].
Proof.
  split; [|split].
  - intros fs f. unfold ScanRoute.filteredFindings.
    rewrite filter_In, keepFinding_true. tauto.
  - intros fs. unfold ScanRoute.filteredFindings.
    induction fs as [|g fs IH]; simpl; [constructor|].
    destruct (ScanRoute.keepFinding g); by constructor.
  - reflexivity.
Qed.

(** ** The matcher *)

Section MatcherFacts.
Context {A : Type}.
Implicit Types (k : option char -> jsstring -> option A) (s w rest : jsstring).

Lemma lastOr_nil (prev : option char) : lastOr prev [] = prev.
Proof. reflexivity. Qed.

Lemma lastOr_cons (prev : option char) (c : char) (w : jsstring) :
  lastOr prev (c :: w) = lastOr (Some c) w.
Proof.
  unfold lastOr. destruct w as [|d w]; [reflexivity|].
  rewrite last_cons. by destruct (last (d :: w)).
Qed.

Lemma lastOr_app (prev : option char) (u v : jsstring) :
  lastOr prev (u ++ v) = lastOr (lastOr prev u) v.
Proof.
  revert prev. induction u as [|c u IH]; intros prev; [reflexivity|].
  cbn [app]. by rewrite !lastOr_cons, IH.
Qed.

Lemma repMin_sound p n prev s k a :
  repMin p n prev s k = Some a ->
  exists w rest,
    s = w ++ rest /\ (n <= length w)%nat /\ Forall (fun c => p c = true) w
    /\ k (lastOr prev w) rest = Some a.
Proof.
  revert n prev. induction s as [|c s IH]; intros n prev Hrun.
  - destruct n; simpl in Hrun; [|discriminate].
    exists [], []. repeat split; auto.
  - cbn [repMin] in Hrun.
    assert (Hstop : match n with O => k prev (c :: s) | S _ => None end = Some a ->
                    exists w rest,
                      c :: s = w ++ rest /\ (n <= length w)%nat
                      /\ Forall (fun c => p c = true) w
                      /\ k (lastOr prev w) rest = Some a).
    { destruct n; [|discriminate]. intros Hk.
      exists [], (c :: s). repeat split; auto. }
    destruct (p c) eqn:Hp; [|auto].
    destruct (repMin p (Nat.pred n) (Some c) s k) as [b|] eqn:Hrec; [|auto].
    inversion Hrun; subst b.
    apply IH in Hrec as (w & rest & -> & Hlen & Hall & Hk).
    exists (c :: w), rest. rewrite lastOr_cons. repeat split; auto.
    simpl. lia.
Qed.

(** What the matcher finds is a match in the sense of [lang], in the
    context the matcher was started in. *)
Lemma run_sound r : forall prev s k a,
  run r prev s k = Some a ->
  exists w rest, s = w ++ rest /\ lang r prev w rest /\ k (lastOr prev w) rest = Some a.
Proof.
  induction r as [|p|r1 IH1 r2 IH2|r1 IH1 r2 IH2|r1 IH1|p n| |];
    intros prev s k a Hrun; simpl in Hrun.
  - exists [], s. simpl. auto.
  - destruct s as [|c s]; [discriminate|].
    destruct (p c) eqn:Hp; [|discriminate].
    exists [c], s. simpl. eauto.
  - apply IH1 in Hrun as (u & rest1 & -> & Hu & Hrun).
    apply IH2 in Hrun as (v & rest & -> & Hv & Hk).
    exists (u ++ v), rest. rewrite <- app_assoc, lastOr_app. simpl. eauto 10.
  - destruct (run r1 prev s k) as [b|] eqn:H1.
    + inversion Hrun; subst b.
      apply IH1 in H1 as (w & rest & -> & Hw & Hk).
      exists w, rest. simpl. auto.
    + apply IH2 in Hrun as (w & rest & -> & Hw & Hk).
      exists w, rest. simpl. auto.
  - destruct (run r1 prev s k) as [b|] eqn:H1.
    + inversion Hrun; subst b.
      apply IH1 in H1 as (w & rest & -> & Hw & Hk).
      exists w, rest. simpl. auto.
    + exists [], s. simpl. auto.
  - apply repMin_sound in Hrun as (w & rest & -> & Hlen & Hall & Hk).
    exists w, rest. simpl. auto.
  - destruct (atBoundary prev s) eqn:Hb; [|discriminate].
    exists [], s. simpl. auto.
  - destruct s; [|discriminate]. exists [], []. simpl. auto.
Qed.
End MatcherFacts.

Lemma matchHere_sound r prev s rest :
  matchHere r prev s = Some rest -> exists w, s = w ++ rest /\ lang r prev w rest.
Proof.
  unfold matchHere. intros Hrun.
  apply run_sound in Hrun as (w & rest' & -> & Hw & Hk).
  inversion Hk; subst. eauto.
Qed.

Lemma lang_not_nullable r : forall prev w rest,
  nullable r = false -> lang r prev w rest -> w <> [].
Proof.
  induction r as [|p|r1 IH1 r2 IH2|r1 IH1 r2 IH2|r1 IH1|p n| |];
    intros prev w rest Hn Hw; simpl in *; try discriminate.
  - destruct Hw as (c & -> & _). discriminate.
  - destruct Hw as (u & v & -> & Hu & Hv).
    apply andb_false_iff in Hn as [Hn|Hn].
    + specialize (IH1 _ _ _ Hn Hu). destruct u; [done|discriminate].
    + specialize (IH2 _ _ _ Hn Hv). destruct v; [done|]. by destruct u.
  - apply orb_false_iff in Hn as [Hn1 Hn2]. destruct Hw; eauto.
  - destruct Hw as [Hlen _]. destruct n; [discriminate|].
    destruct w; simpl in Hlen; [lia|discriminate].
Qed.

(** What a successful search returns: a match of the pattern between the
    two indices, after the text passed over. *)
Lemma search_sound r : forall s prev i j e,
  search r prev s i = Some (j, e) ->
  exists pre w rest,
    s = pre ++ w ++ rest /\ j = (i + length pre)%nat /\ e = (j + length w)%nat
    /\ lang r (lastOr prev pre) w rest.
Proof.
  induction s as [|c s IH]; intros prev i j e Hs; simpl in Hs.
  - destruct (matchHere r prev []) as [rest|] eqn:Hm; [|discriminate].
    inversion Hs; subst.
    apply matchHere_sound in Hm as (w & Heq & Hw).
    symmetry in Heq. apply app_eq_nil in Heq as [-> ->].
    exists [], [], []. simpl. repeat split; auto.
  - destruct (matchHere r prev (c :: s)) as [rest|] eqn:Hm.
    + inversion Hs; subst.
      apply matchHere_sound in Hm as (w & Heq & Hw).
      exists [], w, rest. split; [exact Heq|]. split; [simpl; lia|]. split; [|exact Hw].
      apply (f_equal length) in Heq. rewrite length_app in Heq. simpl in *. lia.
    + apply IH in Hs as (pre & w & rest & -> & -> & -> & Hw).
      exists (c :: pre), w, rest. rewrite lastOr_cons. simpl. repeat split; auto; lia.
Qed.

Lemma charBefore_app (a b : jsstring) :
  charBefore (a ++ b) (length a) = lastOr None a.
Proof.
  unfold lastOr. destruct a as [|c a _] using rev_ind; [reflexivity|].
  rewrite length_app, Nat.add_1_r, last_snoc. cbn [charBefore].
  rewrite <- app_assoc. cbn [app].
  by apply list_lookup_middle.
Qed.

Lemma lastOr_pre (a pre : jsstring) :
  lastOr (lastOr None a) pre = lastOr None (a ++ pre).
Proof. by rewrite lastOr_app. Qed.

(** A match found by [exec] is a match of the pattern at its place in the
    content: after the character before it and before the text that
    follows it. *)
Lemma exec_sound r content lastIndex j e :
  exec r content lastIndex = Some (j, e) ->
  (lastIndex <= j)%nat /\ (j <= e)%nat /\ (e <= length content)%nat
  /\ lang r (charBefore content j) (sliceArr content j e) (drop e content).
Proof.
  unfold exec. destruct (length content <? lastIndex)%nat eqn:Hlt; [discriminate|].
  apply Nat.ltb_ge in Hlt. intros Hs.
  apply search_sound in Hs as (pre & w & rest & Hdrop & -> & -> & Hw).
  assert (Hlen : length (drop lastIndex content) = (length content - lastIndex)%nat)
    by apply length_drop.
  rewrite Hdrop, !length_app in Hlen.
  repeat split; try lia.
  unfold sliceArr.
  assert (Hcontent : content = take lastIndex content ++ pre ++ w ++ rest)
    by (rewrite <- Hdrop; symmetry; apply take_drop).
  assert (Htl : length (take lastIndex content) = lastIndex)
    by (rewrite length_take; lia).
  set (head := take lastIndex content) in *.
  assert (Hbefore : charBefore content (lastIndex + length pre)
                    = lastOr (charBefore content lastIndex) pre).
  { assert (H1 : charBefore content (lastIndex + length pre) = lastOr None (head ++ pre)).
    { rewrite Hcontent.
      replace (head ++ pre ++ w ++ rest) with ((head ++ pre) ++ w ++ rest)
        by (rewrite <- !app_assoc; reflexivity).
      replace (lastIndex + length pre)%nat with (length (head ++ pre))
        by (rewrite length_app; lia).
      apply charBefore_app. }
    assert (H2 : charBefore content lastIndex = lastOr None head).
    { rewrite Hcontent. rewrite <- Htl at 1. apply charBefore_app. }
    rewrite H1, H2. apply lastOr_app. }
  rewrite Hbefore.
  assert (Hafter : drop (lastIndex + length pre + length w) content = rest).
  { rewrite Hcontent.
    replace (head ++ pre ++ w ++ rest) with ((head ++ pre ++ w) ++ rest)
      by (rewrite <- !app_assoc; reflexivity).
    apply drop_app_length'. rewrite !length_app. lia. }
  rewrite Hafter.
  assert (Hslice : drop (lastIndex + length pre)
                        (take (lastIndex + length pre + length w) content) = w).
  { rewrite Hcontent.
    replace (head ++ pre ++ w ++ rest)
      with ((head ++ pre ++ w) ++ rest)
      by (rewrite <- !app_assoc; reflexivity).
    rewrite take_app_length'
      by (rewrite !length_app, Htl; lia).
    replace (head ++ pre ++ w)
      with ((head ++ pre) ++ w)
      by (rewrite <- !app_assoc; reflexivity).
    apply drop_app_length'. rewrite !length_app, Htl. lia. }
  rewrite Hslice.
  exact Hw.
Qed.

(** A pattern that cannot match the empty text leaves its match loop. *)
Lemma execLoop_total r content :
  nullable r = false ->
  forall fuel lastIndex,
    (0 < fuel)%nat -> (length content + 2 <= fuel + lastIndex)%nat ->
    exists ms, execLoop fuel r content lastIndex = Some ms.
Proof.
  intros Hn. induction fuel as [|fuel IH]; intros lastIndex Hpos Hfuel; [lia|].
  simpl. destruct (exec r content lastIndex) as [[j e]|] eqn:He; [|eauto].
  apply exec_sound in He as (Hle & Hje & Hlen & Hw).
  assert (j <> e).
  { intros ->. apply (lang_not_nullable _ _ _ _ Hn) in Hw. apply Hw.
    unfold sliceArr. apply nil_length_inv. rewrite length_drop, length_take. lia. }
  destruct (IH e) as [ms ->]; [lia|lia|]. eauto.
Qed.

Lemma allMatches_total r content :
  nullable r = false -> exists ms, allMatches r content = Some ms.
Proof.
  intros Hn. unfold allMatches. apply execLoop_total; [done|lia|lia].
Qed.

(** ** The scan route *)

Lemma concatOpt_total {A B} (f : A -> option (list B)) (l : list A) :
  Forall (fun x => exists ys, f x = Some ys) l -> exists zs, concatOpt f l = Some zs.
Proof.
  induction 1 as [|x l [ys Hx] _ [zs IH]]; simpl; [eauto|].
  rewrite Hx, IH. eauto.
Qed.

Lemma scan_patterns_not_nullable :
  forallb (fun p => negb (nullable (p_pattern p))) ScanRoute.SECURITY_PATTERNS = true.
Proof. vm_compute. reflexivity. Qed.

Lemma runPatternScan_total (files : list ScanRoute.File) :
  exists findings, ScanRoute.runPatternScan files = Some findings.
Proof.
  unfold ScanRoute.runPatternScan. apply concatOpt_total.
  apply List.Forall_forall. intros file _.
  destruct (ScanRoute.content file) as [[|c text]|]; eauto.
  apply concatOpt_total, List.Forall_forall. intros pattern Hin.
  pose proof scan_patterns_not_nullable as Hall.
  rewrite forallb_forall in Hall. specialize (Hall _ Hin).
  apply negb_true_iff in Hall.
  destruct (allMatches_total _ (c :: text) Hall) as [ms ->]. eauto.
Qed.

Lemma requested_app (t1 t2 : list Action) :
  requested (t1 ++ t2) = requested t1 ++ requested t2.
Proof. unfold requested. apply flat_map_app. Qed.

Lemma channel_app (t1 t2 : list Action) :
  channel (t1 ++ t2) = channel t1 ++ channel t2.
Proof. unfold channel. apply List.filter_app. Qed.

Lemma concat_batchesOf5 {A} (l : list A) : concat (batchesOf5 l) = l.
Proof.
  assert (H : forall n (l : list A), (length l <= n)%nat -> concat (batchesOf5 l) = l).
  { induction n as [|n IH]; intros l' Hn.
    - destruct l'; [done|simpl in Hn; lia].
    - destruct l' as [|a [|b [|c [|d [|e rest]]]]]; try reflexivity.
      cbn [batchesOf5 concat app]. rewrite IH; [done|]. simpl in Hn. lia. }
  by apply (H (length l)).
Qed.

Lemma mapM_fetchOne gh (batch : list jsstring) :
  exists files,
    mapM (ScanRoute.fetchOne gh) batch = (List.map GetContent batch, Ok files).
Proof.
  induction batch as [|p batch [files IH]]; [by exists []|].
  cbn [mapM]. rewrite IH. unfold ScanRoute.fetchOne. simpl.
  rewrite app_nil_r. eauto.
Qed.

(** Status events and content requests: what [fetchFiles] does. *)
Definition quiet (a : Action) : bool := isStatus a || isGet a.

Lemma requested_gets (ps : list jsstring) : requested (List.map GetContent ps) = ps.
Proof. induction ps; simpl; congruence. Qed.

Lemma quiet_gets (ps : list jsstring) : forallb quiet (List.map GetContent ps) = true.
Proof. by induction ps. Qed.

Lemma fetchFiles_trace `{Runtime} gh (paths : list jsstring) :
  exists t files,
    ScanRoute.fetchFiles gh paths = (t, Ok files)
    /\ requested t = paths
    /\ forallb quiet t = true.
Proof.
  unfold ScanRoute.fetchFiles.
  set (n := length paths).
  assert (Hgen : forall (bs : list (list jsstring)) i t0 (r0 : list ScanRoute.File),
    exists t files,
      fold_left
        (fun (acc : M (list ScanRoute.File)) (ib : nat * list jsstring) =>
           let* results := acc in
           let (i, batch) := ib in
           sendEvent "status"
             (PStatus (str "Fetching files (" ++ numToString (N.of_nat (i + length batch))
                         ++ str "/" ++ numToString (N.of_nat n) ++ str ")...")
                      (fetchProgress i n)) >>>
           let* batchResults := mapM (ScanRoute.fetchOne gh) batch in
           ret (results ++ List.filter ScanRoute.hasContent batchResults))
        (indexed5 i bs) (t0, Ok r0) = (t0 ++ t, Ok files)
      /\ requested t = concat bs /\ forallb quiet t = true).
  { induction bs as [|b bs IH]; intros i t0 r0.
    - exists [], r0. simpl. by rewrite app_nil_r.
    - cbn [indexed5 fold_left].
      destruct (mapM_fetchOne gh b) as [fs Hfs].
      cbn [bind]. unfold sendEvent, act. cbn [bind]. rewrite Hfs. cbn [bind ret].
      edestruct IH as (t & files & -> & Hreq & Hquiet).
      eexists _, files. split.
      + rewrite <- app_assoc. reflexivity.
      + cbn [app]. rewrite !app_nil_r. split.
        * unfold requested in *. cbn [flat_map app].
          rewrite flat_map_app. fold (requested (List.map GetContent b)).
          rewrite requested_gets, Hreq. reflexivity.
        * cbn [forallb]. rewrite forallb_app, quiet_gets, Hquiet. reflexivity. }
  destruct (Hgen (batchesOf5 paths) 0%nat [] []) as (t & files & Heq & Hreq & ?).
  rewrite concat_batchesOf5 in Hreq.
  exists t, files. split; [|done]. exact Heq.
Qed.

Lemma missing_false (s : jsstring) : s <> [] -> ScanRoute.missing s = false.
Proof. by destruct s. Qed.

(** A request that names an owner has a body. *)
Lemma scan_owner_hasBody (req : ScanRoute.Request) :
  ScanRoute.owner req <> [] -> ScanRoute.hasBody req = true.
Proof.
  unfold ScanRoute.owner, ScanRoute.hasBody. by destruct (ScanRoute.body req).
Qed.

(** The two ways the scan handler goes once the stream is open. *)
Lemma scan_handler_trace `{Runtime} gh model (req : ScanRoute.Request) :
  ScanRoute.method req = str "POST" ->
  ScanRoute.owner req <> [] -> ScanRoute.repo req <> [] ->
  let codeFiles := ScanRoute.codeFilesOf (ScanRoute.filePaths req) in
  (codeFiles = []
   /\ ScanRoute.handler gh model req =
        ([Write (mkEvent (str "error") (PError (str "No code files found to scan")));
          End; End], Ok tt))
  \/ (codeFiles <> []
      /\ exists pre payload,
           ScanRoute.handler gh model req =
             (pre ++ [Write (mkEvent (str "complete") payload);
                      Write (mkEvent (str "status") (PStatus (str "Complete") 100));
                      End], Ok tt)
           /\ requested pre = codeFiles
           /\ forallb quiet pre = true).
Proof.
  intros Hmethod Howner Hrepo codeFiles.
  unfold ScanRoute.handler. fold codeFiles.
  rewrite Hmethod, (scan_owner_hasBody _ Howner),
    (missing_false _ Howner), (missing_false _ Hrepo).
  replace (streq (str "POST") (str "POST")) with true by reflexivity.
  cbn [negb orb].
  destruct codeFiles as [|p ps] eqn:Hcf.
  - left. split; [done|]. reflexivity.
  - right. split; [done|].
    destruct (fetchFiles_trace gh (p :: ps)) as (t & files & Hfetch & Hreq & Hquiet).
    destruct (runPatternScan_total files) as [patternFindings Hscan].
    replace (Nat.eqb (length (p :: ps)) 0) with false by reflexivity.
    rewrite Hfetch.
    unfold sendEvent, act, ret. cbn [bind app]. rewrite Hscan.
    unfold orDiverge, ret. cbn [bind tryCatch tryFinally app].
    eexists (_ :: t ++ [_; _; _]), _. split; [|split].
    + f_equal. cbn [app]. f_equal. rewrite <- !app_assoc. reflexivity.
    + unfold requested in *. cbn [flat_map app]. rewrite flat_map_app, Hreq.
      cbn [flat_map app]. by rewrite app_nil_r.
    + cbn [forallb]. rewrite forallb_app, Hquiet. reflexivity.
Qed.

Lemma status_not_terminal (a : Action) : isStatus a = true -> isTerminal a = false.
Proof.
  destruct a as [| [ty data] | |]; simpl; try done.
  intros Heq%streq_true. rewrite Heq. reflexivity.
Qed.

Lemma status_is_write (a : Action) : isStatus a = true -> isWrite a = true.
Proof. by destruct a. Qed.

Lemma channel_quiet (t : list Action) :
  forallb quiet t = true -> forallb isStatus (channel t) = true.
Proof.
  induction t as [|a t IH]; simpl; [done|].
  intros [Ha Ht]%andb_true_iff. unfold quiet in Ha.
  destruct a as [| e | |]; simpl in *; try discriminate; auto.
  rewrite orb_false_r in Ha. rewrite Ha. auto.
Qed.

Lemma disciplined_status_prefix (xs rest : list Action) :
  forallb isStatus xs = true -> disciplined (xs ++ rest) = disciplined rest.
Proof.
  induction xs as [|x xs IH]; simpl; [done|].
  intros [Hx Hxs]%andb_true_iff.
  rewrite (status_not_terminal _ Hx), (status_is_write _ Hx). simpl. auto.
Qed.

(** C1, on the scan route. Every scan request that passes the checks of
    the handler and names a code file ends its stream with the event
    [complete], then one more [status] event, and only then the close: an
    event is written after the terminal event, and the closing discipline
    of the stream does not hold. *)
Theorem scan_writes_status_after_complete `{Runtime}
    (gh : jsstring -> Contents)
    (model : list (jsstring * jsstring) -> option (list Finding))
    (req : ScanRoute.Request) :
  streq (ScanRoute.method req) (str "POST") = true ->
  ScanRoute.missing (ScanRoute.owner req) || ScanRoute.missing (ScanRoute.repo req)
    = false ->
  Nat.eqb (length (ScanRoute.codeFilesOf (ScanRoute.filePaths req))) 0 = false ->
  (exists pre payload,
      ScanRoute.handler gh model req =
        (pre ++ [Write (mkEvent (str "complete") payload);
                 Write (mkEvent (str "status") (PStatus (str "Complete") 100));
                 End], Ok tt)
      /\ forallb isStatus (channel pre) = true)
  /\ ~ closesAfterTerminal (trace (ScanRoute.handler gh model req)).
Proof.
  intros Hmethod%streq_true [Howner Hrepo]%orb_false_iff Hfiles.
  destruct (scan_handler_trace gh model req Hmethod) as
    [[Hnil _]|(_ & pre & payload & Hrun & _ & Hquiet)].
  - by destruct (ScanRoute.owner req).
  - by destruct (ScanRoute.repo req).
  - rewrite Hnil in Hfiles. discriminate.
  - apply channel_quiet in Hquiet. split; [eauto|].
    unfold closesAfterTerminal. rewrite Hrun. unfold trace. cbn [fst].
    rewrite channel_app, (disciplined_status_prefix _ _ Hquiet). simpl. discriminate.
Qed.

Lemma scan_writes_status_after_complete_witness :
  streq (ScanRoute.method sampleScanRequest) (str "POST") = true
  /\ ScanRoute.missing (ScanRoute.owner sampleScanRequest)
     || ScanRoute.missing (ScanRoute.repo sampleScanRequest) = false
  /\ Nat.eqb (length (ScanRoute.codeFilesOf (H := asciiRuntime)
                        (ScanRoute.filePaths sampleScanRequest))) 0 = false
  /\ ~ closesAfterTerminal
        (trace (ScanRoute.handler (H := asciiRuntime) sampleHost (fun _ => Some [])
                                  sampleScanRequest)).
Proof.
  split; [reflexivity|]. split; [reflexivity|]. split; [reflexivity|].
  apply (scan_writes_status_after_complete (H := asciiRuntime) sampleHost
           (fun _ => Some []) sampleScanRequest); reflexivity.
Defined.

(** The stream of the sample request, event by event. *)
Example scan_sample_stream :
  List.map (fun a => match a with
                     | Write e => ev_type e
                     | End => str "(end)"
                     | _ => []
                     end)
           (channel (trace (ScanRoute.handler (H := asciiRuntime) sampleHost
                              (fun _ => Some []) sampleScanRequest)))
  = [str "status"; str "status"; str "status"; str "status"; str "status";
     str "complete"; str "status"; str "(end)"].
Proof. vm_compute. reflexivity. Qed.

(** C10. The scan handler keeps the first 20 of the paths whose extension
    is in the allow-list, and the content requests it sends to the source
    host are exactly these paths, or none at all when the request is
    refused or names no code file; [filterCodeFiles] of the library cuts its
    list at 20 in the same way. *)
Theorem scan_examines_first_twenty_code_files `{Runtime}
    (gh : jsstring -> Contents)
    (model : list (jsstring * jsstring) -> option (list Finding))
    (req : ScanRoute.Request) (files : list SecurityLib.File) :
  let codeFiles := ScanRoute.codeFilesOf (ScanRoute.filePaths req) in
  codeFiles = take 20 (List.filter ScanRoute.isCodePath
                         (default [] (ScanRoute.filePaths req)))
  /\ (length codeFiles <= 20)%nat
  /\ (requested (trace (ScanRoute.handler gh model req)) = codeFiles
      \/ requested (trace (ScanRoute.handler gh model req)) = [])
  /\ SecurityLib.filterCodeFiles files 20
     = take 20 (List.filter (fun file => SecurityLib.isCodeFile (SecurityLib.path file))
                            files)
  /\ (length (SecurityLib.filterCodeFiles files 20) <= 20)%nat.
Proof.
  intros codeFiles. split; [reflexivity|]. split.
  { unfold codeFiles, ScanRoute.codeFilesOf. rewrite length_take. lia. }
  split.
  - destruct (streq (ScanRoute.method req) (str "POST")) eqn:Hmethod.
    + destruct (ScanRoute.hasBody req) eqn:Hbody.
      2:{ right. unfold ScanRoute.handler. rewrite Hmethod, Hbody. reflexivity. }
      destruct (ScanRoute.missing (ScanRoute.owner req)) eqn:Howner.
      { right. unfold ScanRoute.handler. rewrite Hmethod, Hbody, Howner. reflexivity. }
      destruct (ScanRoute.missing (ScanRoute.repo req)) eqn:Hrepo.
      { right. unfold ScanRoute.handler. rewrite Hmethod, Hbody, Howner, Hrepo.
        reflexivity. }
      apply streq_true in Hmethod.
      destruct (scan_handler_trace gh model req Hmethod) as
        [[Hnil Hrun]|(_ & pre & payload & Hrun & Hreq & _)].
      * by destruct (ScanRoute.owner req).
      * by destruct (ScanRoute.repo req).
      * right. rewrite Hrun. reflexivity.
      * left. rewrite Hrun. unfold trace. cbn [fst].
        rewrite requested_app, Hreq. simpl. by rewrite app_nil_r.
    + right. unfold ScanRoute.handler. rewrite Hmethod. reflexivity.
  - split; [reflexivity|].
    unfold SecurityLib.filterCodeFiles. rewrite length_take. lia.
Qed.

(** ** The batched fetchers *)

Section Fetchers.
Variable getContent : jsstring -> Contents.

Lemma batchLoop_enough (paths : list jsstring) (maxConcurrent : nat) :
  (0 < maxConcurrent)%nat ->
  forall fuel i,
    (length paths - i <= fuel)%nat ->
    GitHubLib.batchLoop fuel getContent paths maxConcurrent i
      (List.map (GitHubLib.fetchFileContent getContent) (take i paths))
    = Some (List.map (GitHubLib.fetchFileContent getContent) paths).
Proof.
  intros Hpos. induction fuel as [|fuel IH]; intros i Hfuel.
  - simpl. destruct (length paths <=? i)%nat eqn:Hle.
    + apply Nat.leb_le in Hle. by rewrite take_ge.
    + apply Nat.leb_gt in Hle. lia.
  - cbn [GitHubLib.batchLoop]. destruct (length paths <=? i)%nat eqn:Hle.
    + apply Nat.leb_le in Hle. by rewrite take_ge.
    + rewrite <- List.map_app. unfold sliceArr.
      replace (take i paths) with (take i (take (i + maxConcurrent) paths))
        by (rewrite take_take; f_equal; lia).
      rewrite take_drop. apply IH. lia.
Qed.

Lemma fold_append {P R} (f : P -> R) (batches : list (list P)) (acc : list R) :
  fold_left (fun results batch => results ++ List.map f batch) batches acc
  = acc ++ List.map f (concat batches).
Proof.
  revert acc. induction batches as [|b bs IH]; intros acc; simpl.
  - by rewrite app_nil_r.
  - rewrite IH, List.map_app, app_assoc. reflexivity.
Qed.
End Fetchers.

Definition isFileAnswer (c : Contents) : Prop :=
  exists item text, c = Single item text /\ i_type item = str "file".

(** C6. Both batched fetchers return the records of the input paths in
    the order of the input: [fetchFilesBatch] of the library for every
    positive width, [fetchFileContents] of the chat route with its width 5.
    A record carries its path; when the answer for a path is not a file, or
    the request fails, the record has no content and an error text
    instead, and the batch goes on. *)
Theorem batched_fetch_preserves_order
    (getContent : jsstring -> Contents) (paths : list jsstring) (maxConcurrent : nat) :
  (0 < maxConcurrent)%nat ->
  GitHubLib.fetchFilesBatch getContent paths maxConcurrent
    = Some (List.map (GitHubLib.fetchFileContent getContent) paths)
  /\ ChatRoute.fetchFileContents getContent paths
     = List.map (ChatRoute.fetchOne getContent) paths
  /\ (forall path,
         let r := GitHubLib.fetchFileContent getContent path in
         let r' := ChatRoute.fetchOne getContent path in
         fr_path r = path /\ fr_path r' = path
         /\ (isFileAnswer (getContent path) \/
             fr_content r = None /\ is_Some (fr_error r)
             /\ fr_content r' = None /\ is_Some (fr_error r'))).
Proof.
  intros Hpos. split; [|split].
  - unfold GitHubLib.fetchFilesBatch.
    apply (batchLoop_enough getContent paths maxConcurrent Hpos (length paths) 0%nat).
    lia.
  - unfold ChatRoute.fetchFileContents.
    by rewrite fold_append, concat_batchesOf5.
  - intros path. unfold GitHubLib.fetchFileContent, ChatRoute.fetchOne, isFileAnswer.
    destruct (getContent path) as [items|item text|err]; simpl.
    + split; [done|]. split; [done|]. right. eauto.
    + destruct (isFile (i_type item)) eqn:Hfile; simpl.
      * split; [done|]. split; [done|]. left. apply streq_true in Hfile. eauto.
      * split; [done|]. split; [done|]. right. eauto.
    + destruct (bool_decide (e_status err = Some 404%Z)); simpl;
        (split; [done|]); (split; [done|]); right; eauto.
Qed.

Lemma batched_fetch_preserves_order_witness :
  (0 < 2)%nat
  /\ GitHubLib.fetchFilesBatch sampleHost [str "a.js"; str "b.js"; str "c.js"] 2
     = Some (List.map (GitHubLib.fetchFileContent sampleHost)
                      [str "a.js"; str "b.js"; str "c.js"]).
Proof.
  split; [lia|].
  apply (batched_fetch_preserves_order sampleHost [str "a.js"; str "b.js"; str "c.js"] 2).
  lia.
Defined.

(** ** Context assembly *)

Lemma sliceTo_prefix (s : jsstring) (n : Z) : exists k, sliceTo s n = take k s.
Proof. unfold sliceTo. destruct (n <? 0)%Z; eauto. Qed.

(** The text [truncateToTokenLimit] returns: the text itself when it fits,
    else a prefix of it followed by the marker. *)
Lemma truncateToTokenLimit_text (text : jsstring) (maxTokens : Z) :
  let t := TokensLib.truncateToTokenLimit text maxTokens in
  ((TokensLib.estimateTokens text <= maxTokens)%Z
   /\ TokensLib.t_text t = text /\ TokensLib.t_truncated t = false)
  \/ ((maxTokens < TokensLib.estimateTokens text)%Z
      /\ TokensLib.t_truncated t = true
      /\ exists k, TokensLib.t_text t = take k text ++ TokensLib.truncationMarker).
Proof.
  unfold TokensLib.truncateToTokenLimit.
  destruct (TokensLib.estimateTokens text <=? maxTokens)%Z eqn:Hfit; simpl.
  - left. apply Z.leb_le in Hfit. auto.
  - right. apply Z.leb_gt in Hfit. split; [done|]. split; [done|].
    destruct (sliceTo_prefix text (maxTokens * TokensLib.CHARS_PER_TOKEN)) as [k ->].
    destruct (_ <? _)%Z; [|eauto].
    destruct (sliceTo_prefix (take k text) (lastIndexOf NL (take k text))) as [j ->].
    rewrite take_take. eauto.
Qed.

Section Assemble.
Import TokensLib.
Variable maxTokens : Z.
Implicit Types (files pre post : list (FileRecord jsstring)) (st : Assembly).

(** One turn of the loop of [buildContextWithLimit]. *)
Lemma assemble_cons file files st :
  assemble (file :: files) maxTokens st =
    if noContent (fr_content file) then assemble files maxTokens st
    else if (maxTokens <? totalTokens st + estimateTokens (blockOf file))%Z
         then overflowResult maxTokens st file
         else assemble files maxTokens (includeWhole st file).
Proof.
  cbn [assemble]. unfold overflowResult, includeWhole, blockOf.
  destruct (fr_content file) as [[|c body]|]; reflexivity.
Qed.

Lemma includeAll_cons file files st :
  includeAll (file :: files) st = includeAll files (includeWhole st file).
Proof. reflexivity. Qed.

Lemma totalTokens_includeWhole st file :
  noContent (fr_content file) = false ->
  totalTokens (includeWhole st file)
  = (totalTokens st + estimateTokens (blockOf file))%Z.
Proof. unfold includeWhole. by intros ->. Qed.

Lemma assemble_cases files : forall st,
  (allFit files maxTokens (totalTokens st) = true
   /\ assemble files maxTokens st = includeAll files st)
  \/ (exists pre file post,
        files = pre ++ file :: post
        /\ noContent (fr_content file) = false
        /\ allFit pre maxTokens (totalTokens st) = true
        /\ (maxTokens < totalTokens (includeAll pre st)
                        + estimateTokens (blockOf file))%Z
        /\ assemble files maxTokens st
           = overflowResult maxTokens (includeAll pre st) file).
Proof.
  induction files as [|file rest IH]; intros st; [left; auto|].
  rewrite assemble_cons. cbn [allFit].
  destruct (noContent (fr_content file)) eqn:Hcontent.
  - assert (Hskip : includeWhole st file = st)
      by (unfold includeWhole; by rewrite Hcontent).
    destruct (IH st) as [[Hfit Hrun]|(pre & f & post & -> & Hf & Hfit & Hover & Hrun)].
    + left. by rewrite includeAll_cons, Hskip.
    + right. exists (file :: pre), f, post.
      rewrite includeAll_cons, Hskip. cbn [allFit]. rewrite Hcontent. auto.
  - destruct (maxTokens <? totalTokens st + estimateTokens (blockOf file))%Z eqn:Hover.
    + right. exists [], file, rest. apply Z.ltb_lt in Hover. repeat split; auto.
    + apply Z.ltb_ge in Hover.
      pose proof (totalTokens_includeWhole st file Hcontent) as Htotal.
      destruct (IH (includeWhole st file))
        as [[Hfit Hrun]|(pre & f & post & -> & Hf & Hfit & Hov & Hrun)].
      * left. rewrite includeAll_cons, Hrun. split; [|done].
        rewrite Htotal in Hfit. rewrite Hfit, andb_true_r. by apply Z.leb_le.
      * right. exists (file :: pre), f, post. rewrite includeAll_cons.
        cbn [allFit]. rewrite Hcontent. rewrite Htotal in Hfit.
        repeat split; auto. rewrite Hfit, andb_true_r. by apply Z.leb_le.
Qed.
End Assemble.

Section ChatContext.
Import ChatRoute.
Implicit Types (files pre post : list (FileRecord json)).

(** One turn of the loop of [buildContext]. *)
Lemma contextLoop_cons file files context totalChars :
  contextLoop (file :: files) context totalChars =
    if noContent (fr_content file) then contextLoop files context totalChars
    else if (MAX_CHARS <? totalChars + Z.of_nat (length (blockOf file)))%Z
         then context ++ overflowText totalChars file
         else contextLoop files (context ++ blockOf file)
                          (totalChars + Z.of_nat (length (blockOf file)))%Z.
Proof.
  cbn [contextLoop]. unfold overflowText, blockOf, headerOf.
  destruct (fr_content file) as [[|c body]|]; try reflexivity.
  cbn [default noContent].
  destruct (_ <? _)%Z; [|reflexivity].
  destruct (_ <? _)%Z; [reflexivity|by rewrite app_nil_r].
Qed.

Lemma wholeBlocks_cons file files :
  wholeBlocks (file :: files)
  = (if noContent (fr_content file) then [] else blockOf file) ++ wholeBlocks files.
Proof. reflexivity. Qed.

Lemma contextLoop_cases files : forall context totalChars,
  (allFit files totalChars = true
   /\ contextLoop files context totalChars = context ++ wholeBlocks files)
  \/ (exists pre file post,
        files = pre ++ file :: post
        /\ noContent (fr_content file) = false
        /\ allFit pre totalChars = true
        /\ (MAX_CHARS < totalChars + charsOf pre + Z.of_nat (length (blockOf file)))%Z
        /\ contextLoop files context totalChars
           = context ++ wholeBlocks pre ++ overflowText (totalChars + charsOf pre) file).
Proof.
  induction files as [|file rest IH]; intros context totalChars.
  { left. simpl. by rewrite app_nil_r. }
  rewrite contextLoop_cons. cbn [allFit].
  destruct (noContent (fr_content file)) eqn:Hcontent.
  - destruct (IH context totalChars)
      as [[Hfit Hrun]|(pre & f & post & -> & Hf & Hfit & Hover & Hrun)].
    + left. rewrite wholeBlocks_cons, Hcontent. auto.
    + right. exists (file :: pre), f, post. unfold charsOf in *.
      rewrite wholeBlocks_cons, Hcontent. cbn [allFit app]. rewrite Hcontent. auto.
  - destruct (MAX_CHARS <? totalChars + Z.of_nat (length (blockOf file)))%Z eqn:Hover.
    + right. exists [], file, rest. apply Z.ltb_lt in Hover.
      unfold charsOf. cbn [wholeBlocks flat_map app length].
      rewrite Z.add_0_r. repeat split; auto; lia.
    + apply Z.ltb_ge in Hover.
      destruct (IH (context ++ blockOf file)
                   (totalChars + Z.of_nat (length (blockOf file)))%Z)
        as [[Hfit Hrun]|(pre & f & post & -> & Hf & Hfit & Hov & Hrun)].
      * left. rewrite wholeBlocks_cons, Hcontent, Hrun, Hfit, andb_true_r.
        split; [by apply Z.leb_le|by rewrite app_assoc].
      * right. exists (file :: pre), f, post.
        assert (Hchars : charsOf (file :: pre)
                         = (Z.of_nat (length (blockOf file)) + charsOf pre)%Z).
        { unfold charsOf. rewrite wholeBlocks_cons, Hcontent, length_app. lia. }
        rewrite Hchars, wholeBlocks_cons, Hcontent. cbn [allFit]. rewrite Hcontent.
        rewrite Hfit, andb_true_r, Hrun.
        replace (totalChars + (Z.of_nat (length (blockOf file)) + charsOf pre))%Z
          with (totalChars + Z.of_nat (length (blockOf file)) + charsOf pre)%Z by lia.
        repeat split; auto; [by apply Z.leb_le|by rewrite <- !app_assoc].
Qed.
End ChatContext.

Section WholeFiles.
Import TokensLib.

(** The state after a run of files that were all taken whole. *)
Lemma includeAll_fields (files : list (FileRecord jsstring)) : forall st,
  context (includeAll files st)
    = context st ++ flat_map blockOf (List.filter hasBody files)
  /\ includedFiles (includeAll files st)
     = includedFiles st
       ++ List.map (fun file => (fr_path file, false)) (List.filter hasBody files)
  /\ skippedFiles (includeAll files st) = skippedFiles st.
Proof.
  induction files as [|file files IH]; intros st.
  - simpl. by rewrite !app_nil_r.
  - rewrite includeAll_cons. destruct (IH (includeWhole st file)) as (-> & -> & ->).
    unfold includeWhole, hasBody. cbn [List.filter].
    destruct (noContent (fr_content file)); cbn [negb context includedFiles skippedFiles].
    + done.
    + cbn [flat_map List.map]. rewrite <- !app_assoc. done.
Qed.
End WholeFiles.

Section TokenEstimates.
Import TokensLib.

Lemma estimateTokens_ceil (text : jsstring) :
  (4 * (estimateTokens text - 1) < Z.of_nat (length text) <= 4 * estimateTokens text)%Z.
Proof.
  unfold estimateTokens, CHARS_PER_TOKEN. destruct text as [|c text]; [simpl; lia|].
  set (n := Z.of_nat (length (c :: text))).
  pose proof (Z.div_mod (n + 4 - 1) 4 ltac:(lia)) as Hdiv.
  pose proof (Z.mod_pos_bound (n + 4 - 1) 4 ltac:(lia)) as Hmod.
  lia.
Qed.

Lemma estimateTokens_nonneg (text : jsstring) : (0 <= estimateTokens text)%Z.
Proof. pose proof (estimateTokens_ceil text). lia. Qed.

Lemma estimateTokens_least (text : jsstring) (t : Z) :
  (Z.of_nat (length text) <= 4 * t)%Z -> (estimateTokens text <= t)%Z.
Proof. pose proof (estimateTokens_ceil text). lia. Qed.

Lemma estimateTokens_app (a b : jsstring) :
  (estimateTokens (a ++ b) <= estimateTokens a + estimateTokens b)%Z.
Proof.
  apply estimateTokens_least. rewrite length_app.
  pose proof (estimateTokens_ceil a). pose proof (estimateTokens_ceil b). lia.
Qed.

Lemma estimateTokens_prefix (a b : jsstring) :
  (estimateTokens a <= estimateTokens (a ++ b))%Z.
Proof.
  apply estimateTokens_least.
  pose proof (estimateTokens_ceil (a ++ b)) as Hab. rewrite length_app in Hab. lia.
Qed.

End TokenEstimates.

Section LastIndex.

Lemma lastIndexOfFrom_spec (c : char) (s : jsstring) : forall i found,
  lastIndexOfFrom c s i found = found
  \/ ((i <= lastIndexOfFrom c s i found < i + Z.of_nat (length s))%Z
      /\ s !! Z.to_nat (lastIndexOfFrom c s i found - i) = Some c).
Proof.
  induction s as [|d s IH]; intros i found; [left; reflexivity|].
  cbn [lastIndexOfFrom length].
  destruct (IH (i + 1)%Z (if N.eqb d c then i else found)) as [E|[Hr Hl]].
  - rewrite E. destruct (N.eqb_spec d c) as [->|_]; [right|left; reflexivity].
    split; [lia|]. replace (i - i)%Z with 0%Z by lia. reflexivity.
  - right. split; [lia|].
    replace (Z.to_nat (lastIndexOfFrom c s (i + 1) (if N.eqb d c then i else found) - i))
      with (S (Z.to_nat (lastIndexOfFrom c s (i + 1)
                           (if N.eqb d c then i else found) - (i + 1)))) by lia.
    exact Hl.
Qed.

(** [s.lastIndexOf(c)] is [-1] or the index of an occurrence of [c]. *)
Lemma lastIndexOf_spec (c : char) (s : jsstring) :
  lastIndexOf c s = (-1)%Z
  \/ ((0 <= lastIndexOf c s < Z.of_nat (length s))%Z
      /\ s !! Z.to_nat (lastIndexOf c s) = Some c).
Proof.
  unfold lastIndexOf.
  destruct (lastIndexOfFrom_spec c s 0 (-1)) as [E|[Hr Hl]]; [by left|right].
  split; [lia|]. by rewrite Z.sub_0_r in Hl.
Qed.

Lemma sliceTo_length (s : jsstring) (n : Z) :
  (0 <= n)%Z -> (Z.of_nat (length (sliceTo s n)) <= n)%Z.
Proof.
  intros Hn. unfold sliceTo. destruct (Z.ltb_spec n 0); [lia|].
  rewrite length_take. lia.
Qed.

Lemma sliceTo_shorter (s : jsstring) (n : Z) : (length (sliceTo s n) <= length s)%nat.
Proof. destruct (sliceTo_prefix s n) as [k ->]. rewrite length_take. lia. Qed.

End LastIndex.

Section Cut.
Import TokensLib.

(** What [truncateToTokenLimit] hands back for a budget that is not
    negative: the text itself when its estimate is within the budget;
    otherwise the marker after a prefix that is cut at the budget of
    [4 * maxTokens] characters, or at the last line feed before it when
    that lies beyond four fifths of the budget. *)
Lemma truncateToTokenLimit_cut (text : jsstring) (maxTokens : Z) :
  (0 <= maxTokens)%Z ->
  let t := truncateToTokenLimit text maxTokens in
  let lastNewline := lastIndexOf NL (take (Z.to_nat (4 * maxTokens)) text) in
  ((estimateTokens text <= maxTokens)%Z /\ t_text t = text)
  \/ ((maxTokens < estimateTokens text)%Z
      /\ exists k : nat,
           t_text t = take k text ++ truncationMarker
           /\ k = (if (16 * maxTokens <? 5 * lastNewline)%Z then Z.to_nat lastNewline
                   else Z.to_nat (4 * maxTokens))
           /\ (k < length text)%nat
           /\ (16 * maxTokens <= 5 * Z.of_nat k)%Z
           /\ (Z.of_nat k <= 4 * maxTokens)%Z
           /\ (Z.of_nat k = 4 * maxTokens \/ text !! k = Some NL)%Z).
Proof.
  intros Hmax. cbv zeta. unfold truncateToTokenLimit, CHARS_PER_TOKEN.
  destruct (Z.leb_spec (estimateTokens text) maxTokens) as [Hfit|Hover];
    [left; by split|right]. split; [exact Hover|]. cbn [t_text].
  pose proof (estimateTokens_ceil text) as Hlen.
  replace (maxTokens * 4)%Z with (4 * maxTokens)%Z by lia.
  replace (4 * (4 * maxTokens))%Z with (16 * maxTokens)%Z by lia.
  assert (Hcut : sliceTo text (4 * maxTokens) = take (Z.to_nat (4 * maxTokens)) text).
  { unfold sliceTo. destruct (Z.ltb_spec (4 * maxTokens) 0); [lia|reflexivity]. }
  rewrite Hcut. set (truncated := take (Z.to_nat (4 * maxTokens)) text).
  assert (Htrunc : length truncated = Z.to_nat (4 * maxTokens)).
  { unfold truncated. rewrite length_take. lia. }
  destruct (Z.ltb_spec (16 * maxTokens) (5 * lastIndexOf NL truncated))
    as [Hclean|Hplain].
  - destruct (lastIndexOf_spec NL truncated) as [E|[Hrange Hat]]; [lia|].
    exists (Z.to_nat (lastIndexOf NL truncated)).
    assert (Hslice : sliceTo truncated (lastIndexOf NL truncated)
                     = take (Z.to_nat (lastIndexOf NL truncated)) text).
    { unfold sliceTo. destruct (Z.ltb_spec (lastIndexOf NL truncated) 0); [lia|].
      change (take (Z.to_nat (lastIndexOf NL truncated))
                   (take (Z.to_nat (4 * maxTokens)) text)
              = take (Z.to_nat (lastIndexOf NL truncated)) text).
      rewrite take_take. f_equal. lia. }
    rewrite Hslice. repeat split; try reflexivity; try lia.
    right. etrans; [|exact Hat]. symmetry.
    apply (lookup_take_lt text (Z.to_nat (4 * maxTokens))). lia.
  - exists (Z.to_nat (4 * maxTokens)). fold truncated.
    repeat split; try reflexivity; try lia.
Qed.

(** A block that does not fit although its content fits the allowance
    has a header of more than 400 characters. *)
Lemma whole_content_long_path (file : FileRecord jsstring) (total maxTokens : Z) :
  (maxTokens < total + estimateTokens (blockOf file))%Z ->
  (estimateTokens (default [] (fr_content file)) <= maxTokens - total - 100)%Z ->
  (384 <= length (fr_path file))%nat.
Proof.
  intros Hover Hfit. unfold blockOf in Hover.
  pose proof (estimateTokens_ceil
                (fileHeaderOf (fr_path file) ++ default [] (fr_content file) ++ [NL]))
    as Hblock.
  pose proof (estimateTokens_ceil (default [] (fr_content file))) as Hcontent.
  rewrite !length_app in Hblock.
  assert (Hheader : length (fileHeaderOf (fr_path file)) = (16 + length (fr_path file))%nat).
  { unfold fileHeaderOf. cbn [length]. rewrite !length_app. cbn [length str].
    change (length (str "--- FILE: ")) with 10%nat.
    change (length (str " ---")) with 4%nat. lia. }
  rewrite Hheader in Hblock. cbn [length] in Hblock.
  unfold jsstring, char in *. lia.
Qed.

End Cut.

(** C3, as the code has it. [buildContextWithLimit] passes over files
    without content and takes whole blocks while they fit. At the first
    block that does not fit it stops. When the allowance left after a
    buffer of 100 tokens is above 500 tokens and the content does not fit
    that allowance, it adds the header of the file, the text
    [truncateToTokenLimit] hands back for the content and the allowance,
    and a line feed, and lists the file as truncated; that text is the
    marker after a prefix of the content cut at [4 * allowance]
    characters, or at the last line feed before that when it lies beyond
    four fifths of it. The content can fit the allowance only when the
    path has at least 384 characters; nothing is stated for that case.
    When the allowance is at most 500 tokens the function lists that one
    file as skipped. Later files are in neither list. [buildContext] of
    the chat route does the same with 100 and 500 characters, a prefix of
    the content cut at the allowance and followed by the marker line of
    the route, and no lists. *)
Theorem context_assembly_stops_at_first_overflow
    (files : list (FileRecord jsstring)) (maxTokens : Z)
    (records : list (FileRecord json)) :
  (let start := TokensLib.mkAssembly [] 0 [] [] in
   let r := TokensLib.buildContextWithLimit files maxTokens in
   (TokensLib.allFit files maxTokens 0 = true
    /\ r = TokensLib.includeAll files start
    /\ TokensLib.includedFiles r
       = List.map (fun file => (fr_path file, false)) (List.filter hasBody files)
    /\ TokensLib.skippedFiles r = [])
   \/ (exists pre file post,
         files = pre ++ file :: post
         /\ noContent (fr_content file) = false
         /\ TokensLib.allFit pre maxTokens 0 = true
         /\ let st := TokensLib.includeAll pre start in
            let remaining := (maxTokens - TokensLib.totalTokens st - 100)%Z in
            let whole := List.map (fun file => (fr_path file, false))
                                  (List.filter hasBody pre) in
            let body := default [] (fr_content file) in
            let cut := TokensLib.truncateToTokenLimit body remaining in
            let lastNewline := lastIndexOf NL (take (Z.to_nat (4 * remaining)) body) in
            (maxTokens < TokensLib.totalTokens st
                         + TokensLib.estimateTokens (TokensLib.blockOf file))%Z
            /\ TokensLib.totalTokens r = TokensLib.totalTokens st
            /\ if (500 <? remaining)%Z then
                 ((TokensLib.estimateTokens body <= remaining)%Z
                  /\ (384 <= length (fr_path file))%nat)
                 \/ ((remaining < TokensLib.estimateTokens body)%Z
                     /\ TokensLib.includedFiles r = whole ++ [(fr_path file, true)]
                     /\ TokensLib.skippedFiles r = []
                     /\ TokensLib.context r
                        = TokensLib.context st ++ TokensLib.fileHeaderOf (fr_path file)
                          ++ TokensLib.t_text cut ++ [NL]
                     /\ exists k : nat,
                          TokensLib.t_text cut
                          = take k body ++ TokensLib.truncationMarker
                          /\ k = (if (16 * remaining <? 5 * lastNewline)%Z
                                  then Z.to_nat lastNewline
                                  else Z.to_nat (4 * remaining))
                          /\ (k < length body)%nat
                          /\ (16 * remaining <= 5 * Z.of_nat k)%Z
                          /\ (Z.of_nat k <= 4 * remaining)%Z
                          /\ (Z.of_nat k = 4 * remaining \/ body !! k = Some NL)%Z)
               else
                 TokensLib.context r = TokensLib.context st
                 /\ TokensLib.includedFiles r = whole
                 /\ TokensLib.skippedFiles r = [fr_path file]))
  /\ ((ChatRoute.allFit records 0 = true
       /\ ChatRoute.buildContext records = ChatRoute.wholeBlocks records)
      \/ (exists pre file post,
            records = pre ++ file :: post
            /\ noContent (fr_content file) = false
            /\ ChatRoute.allFit pre 0 = true
            /\ let remaining := (ChatRoute.MAX_CHARS - ChatRoute.charsOf pre - 100)%Z in
               (ChatRoute.MAX_CHARS
                < ChatRoute.charsOf pre + Z.of_nat (length (ChatRoute.blockOf file)))%Z
               /\ ChatRoute.buildContext records
                  = ChatRoute.wholeBlocks pre
                    ++ (if (500 <? remaining)%Z then
                          ChatRoute.headerOf file
                          ++ take (Z.to_nat remaining) (default [] (fr_content file))
                          ++ NL :: str "[truncated]" ++ [NL]
                        else []))).
Proof.
  split.
  - intros start r. unfold r, TokensLib.buildContextWithLimit. fold start.
    destruct (assemble_cases maxTokens files start)
      as [[Hfit Hrun]|(pre & file & post & -> & Hfile & Hfit & Hover & Hrun)].
    + left. rewrite Hrun.
      destruct (includeAll_fields files start) as (_ & -> & ->). auto.
    + right. exists pre, file, post. split; [done|]. split; [done|]. split; [done|].
      cbv zeta. split; [done|]. rewrite Hrun.
      destruct (includeAll_fields pre start) as (_ & Hincl & Hskip).
      unfold TokensLib.overflowResult.
      destruct (Z.ltb_spec 500 (maxTokens - TokensLib.totalTokens
                                  (TokensLib.includeAll pre start) - 100)) as [Hroom|Hnone];
        cbn [TokensLib.totalTokens TokensLib.includedFiles
             TokensLib.skippedFiles TokensLib.context].
      * rewrite Hincl, Hskip. split; [done|].
        destruct (truncateToTokenLimit_cut (default [] (fr_content file))
                    (maxTokens - TokensLib.totalTokens (TokensLib.includeAll pre start)
                     - 100) ltac:(lia)) as [[Hwhole Htext]|[Hlong Hk]].
        -- left. split; [exact Hwhole|]. by eapply whole_content_long_path.
        -- right. split; [exact Hlong|]. split; [done|]. split; [done|].
           split; [done|exact Hk].
      * rewrite Hincl, Hskip. auto.
  - unfold ChatRoute.buildContext.
    destruct (contextLoop_cases records [] 0%Z)
      as [[Hfit Hrun]|(pre & file & post & -> & Hfile & Hfit & Hover & Hrun)].
    + left. auto.
    + right. exists pre, file, post. rewrite Z.add_0_l in Hover, Hrun.
      split; [done|]. split; [done|]. split; [done|]. cbv zeta. split; [done|].
      rewrite Hrun. cbn [app]. f_equal. unfold ChatRoute.overflowText.
      destruct (Z.ltb_spec 500 (ChatRoute.MAX_CHARS - ChatRoute.charsOf pre - 100));
        [|reflexivity].
      unfold sliceTo.
      destruct (Z.ltb_spec (ChatRoute.MAX_CHARS - ChatRoute.charsOf pre - 100) 0);
        [lia|reflexivity].
Qed.

(** C3 as stated fails: with a budget of 6 tokens and three files of 5
    tokens each, the second file does not fit and is listed as skipped;
    the third file, which comes after it, is not listed at all. *)
Lemma context_later_files_not_marked_skipped :
  let r := TokensLib.buildContextWithLimit sampleRecords 6 in
  TokensLib.includedFiles r = [(str "a", false)]
  /\ TokensLib.skippedFiles r = [str "b"]
  /\ ~ In (str "c") (TokensLib.skippedFiles r).
Proof.
  vm_compute. split; [reflexivity|]. split; [reflexivity|].
  intros [Hc|[]]. discriminate Hc.
Qed.

(** The case left out above, run: with a path of 400 characters and a
    budget of 604 tokens, the block of the file does not fit, but its
    content alone fits the allowance of 504 tokens. The whole block is
    added then: the file is listed as truncated although nothing was cut,
    no marker is written, and the context costs more than the budget. *)
Example context_long_path_exceeds_budget :
  let file := mkFileRecord (repeat 120 400) (Some (repeat 120 2016)) None None None in
  let r := TokensLib.buildContextWithLimit [file] 604 in
  TokensLib.includedFiles r = [(repeat 120 400, true)]
  /\ TokensLib.context r = TokensLib.blockOf file
  /\ TokensLib.estimateTokens (TokensLib.context r) = 609%Z.
Proof. vm_compute. repeat split; reflexivity. Qed.


(** ** Tree acquisition *)

Lemma insertBy_perm {A} (cmp : A -> A -> Z) (x : A) (l : list A) :
  Permutation (insertBy cmp x l) (x :: l).
Proof.
  induction l as [|y l IH]; simpl; [done|].
  destruct (cmp x y <=? 0)%Z; [done|].
  rewrite IH. apply perm_swap.
Qed.

Lemma sortBy_perm {A} (cmp : A -> A -> Z) (l : list A) : Permutation (sortBy cmp l) l.
Proof.
  induction l as [|x l IH]; simpl; [done|].
  rewrite insertBy_perm. by constructor.
Qed.

Lemma in_sortBy {A} (cmp : A -> A -> Z) (l : list A) (x : A) :
  In x (sortBy cmp l) <-> In x l.
Proof.
  split; apply Permutation_in; [apply sortBy_perm|symmetry; apply sortBy_perm].
Qed.

Lemma map_snd_combine {A B} (r : list A) : forall l : list B,
  (length l <= length r)%nat -> List.map snd (combine r l) = l.
Proof.
  induction r as [|a r IH]; intros [|b l] Hlen; simpl in *; try reflexivity; try lia.
  f_equal. apply IH. lia.
Qed.

(** Whatever the ranks, [rankedBy] rearranges the list. *)
Lemma rankedBy_perm {A} (ranks : list nat) (l : list A) :
  Permutation (rankedBy ranks l) l.
Proof.
  unfold rankedBy. etrans; [apply Permutation_map, sortBy_perm|].
  rewrite map_snd_combine; [reflexivity|].
  rewrite length_take, length_app, repeat_length. lia.
Qed.

(** [Array.prototype.sort] rearranges the array, for every comparator and
    every engine. *)
Lemma arraySort_perm `{Runtime} {A} (cmp : A -> A -> Z) (l : list A) :
  Permutation (arraySort cmp l) l.
Proof.
  unfold arraySort. destruct (consistentOn cmp l); [apply sortBy_perm|apply rankedBy_perm].
Qed.

Lemma in_arraySort `{Runtime} {A} (cmp : A -> A -> Z) (l : list A) (x : A) :
  In x (arraySort cmp l) <-> In x l.
Proof.
  split; apply Permutation_in; [apply arraySort_perm|symmetry; apply arraySort_perm].
Qed.

Section Consistency.
Context {A : Type} (cmp : A -> A -> Z).

(** The comparator is a consistent comparison of the elements of [l]. *)
Lemma consistentOn_spec (l : list A) :
  consistentOn cmp l = true <->
  forall a, In a l ->
    cmp a a = 0%Z
    /\ forall b, In b l ->
         (cmp a b = 0%Z -> cmp b a = 0%Z)
         /\ forall c, In c l ->
              (cmp a b = 0%Z -> cmp b c = 0%Z -> cmp a c = 0%Z)
              /\ (cmp a b < 0 -> cmp b c < 0 -> cmp a c < 0)%Z
              /\ (0 < cmp a b -> 0 < cmp b c -> 0 < cmp a c)%Z.
Proof.
  unfold consistentOn. rewrite forallb_forall. split.
  - intros Hall a Ha. specialize (Hall a Ha).
    apply andb_true_iff in Hall as [Haa Hb]. split; [lia|].
    rewrite forallb_forall in Hb. intros b Hb'. specialize (Hb b Hb').
    apply andb_true_iff in Hb as [Hsym Hc]. split.
    { destruct (Z.eqb_spec (cmp a b) 0); [|done]. cbn in Hsym. lia. }
    rewrite forallb_forall in Hc. intros c Hc'. specialize (Hc c Hc').
    apply andb_true_iff in Hc as [[Heq Hlt]%andb_true_iff Hgt].
    destruct (Z.eqb_spec (cmp a b) 0), (Z.eqb_spec (cmp b c) 0),
      (Z.ltb_spec (cmp a b) 0), (Z.ltb_spec (cmp b c) 0),
      (Z.ltb_spec 0 (cmp a b)), (Z.ltb_spec 0 (cmp b c));
      cbn in Heq, Hlt, Hgt; lia.
  - intros Hall a Ha. destruct (Hall a Ha) as [Haa Hb].
    apply andb_true_iff. split; [lia|].
    apply forallb_forall. intros b Hb'. destruct (Hb b Hb') as [Hsym Hc].
    apply andb_true_iff. split.
    { destruct (Z.eqb_spec (cmp a b) 0); [|done]. cbn. lia. }
    apply forallb_forall. intros c Hc'. destruct (Hc c Hc') as (Heq & Hlt & Hgt).
    destruct (Z.eqb_spec (cmp a b) 0), (Z.eqb_spec (cmp b c) 0),
      (Z.ltb_spec (cmp a b) 0), (Z.ltb_spec (cmp b c) 0),
      (Z.ltb_spec 0 (cmp a b)), (Z.ltb_spec 0 (cmp b c)); cbn; lia.
Qed.

(** Consistency is a matter of the elements, not of their order. *)
Lemma consistentOn_perm (l l' : list A) :
  Permutation l l' -> consistentOn cmp l = consistentOn cmp l'.
Proof.
  intros Hperm. apply eq_true_iff_eq. rewrite !consistentOn_spec.
  assert (Hin : forall x, In x l <-> In x l').
  { intros x. split; apply Permutation_in; [done|by symmetry]. }
  split; intros Hall a Ha; (destruct (Hall a) as [Haa Hb]; [by apply Hin|]);
    (split; [exact Haa|]); intros b Hb';
    (destruct (Hb b) as [Hsym Hc]; [by apply Hin|]);
    (split; [exact Hsym|]); intros c Hc'; apply Hc; by apply Hin.
Qed.

End Consistency.

(** A sort with a consistent comparator is the stable sort. *)
Lemma arraySort_stable `{Runtime} {A} (cmp : A -> A -> Z) (l : list A) :
  consistentOn cmp l = true -> arraySort cmp l = sortBy cmp l.
Proof. unfold arraySort. by intros ->. Qed.

Lemma arraySort_consistent `{Runtime} {A} (cmp : A -> A -> Z) (l : list A) :
  consistentOn cmp (arraySort cmp l) = true -> arraySort cmp l = sortBy cmp l.
Proof.
  rewrite (consistentOn_perm cmp _ _ (arraySort_perm cmp l)). apply arraySort_stable.
Qed.

Section TreeFacts.
Context `{Runtime}.
Variable getContent : jsstring -> Contents.
Variable skipDirs : list jsstring.
Variable maxDepth : nat.

(** The recursive equation of [buildFileTree], as it is written in the
    source. *)
Lemma buildTree_unfold (path : jsstring) (depth : nat) :
  buildTree getContent skipDirs path depth maxDepth =
    if (maxDepth <? depth)%nat then []
    else
      match itemsOf (getContent path) with
      | None => []
      | Some items =>
          arraySort compareNodes
            (flat_map
               (fun item =>
                  if skippedItem skipDirs item then []
                  else [nodeOf maxDepth
                               (buildTree getContent skipDirs (i_path item)
                                          (depth + 1) maxDepth)
                               depth item])
               items)
      end.
Proof.
  unfold buildTree.
  destruct (maxDepth - depth)%nat as [|k] eqn:Hk; cbn [buildFrom];
    destruct (maxDepth <? depth)%nat eqn:Hcap; try reflexivity;
    destruct (itemsOf (getContent path)) as [items|]; try reflexivity;
    f_equal; apply flat_map_ext; intros item; unfold skippedItem, nodeOf;
    destruct (isDir (i_type item) && includesStr skipDirs (i_name item)); try reflexivity.
  - assert ((depth <? maxDepth)%nat = false) as -> by (apply Nat.ltb_ge; lia).
    by rewrite andb_false_r.
  - replace (maxDepth - (depth + 1))%nat with k by lia. reflexivity.
Qed.

Lemma buildFrom_wellPlaced (k : nat) : forall path depth entry,
  In entry (nodesAt depth (buildFrom getContent skipDirs k path depth maxDepth)) ->
  wellPlaced skipDirs maxDepth depth entry.
Proof.
  induction k as [|k IH]; intros path depth entry; cbn [buildFrom];
    (destruct (maxDepth <? depth)%nat eqn:Hcap; [intros []|]);
    apply Nat.ltb_ge in Hcap;
    (destruct (itemsOf (getContent path)) as [items|]; [|intros []]);
    unfold nodesAt; rewrite in_flat_map; intros (node & Hnode & Hentry);
    apply in_arraySort, in_flat_map in Hnode as (item & _ & Hnode);
    destruct (isDir (i_type item) && includesStr skipDirs (i_name item)) eqn:Hskip;
    try (by destruct Hnode);
    destruct Hnode as [<-|[]]; cbn [nodeAt] in Hentry;
    (destruct Hentry as [<-|Hbelow];
     [split; cbn [fst snd name type]; [lia|];
      intros Hdir; rewrite Hdir in Hskip; exact Hskip|]).
  - destruct (isDir (i_type item) && (depth <? maxDepth)%nat); by destruct Hbelow.
  - destruct (isDir (i_type item) && (depth <? maxDepth)%nat); [|by destruct Hbelow].
    replace (S depth) with (depth + 1)%nat in Hbelow by lia.
    apply (IH (i_path item) (depth + 1)%nat) in Hbelow as [Hdepth Hname].
    split; [lia|done].
Qed.
End TreeFacts.

(** C4, as the code has it. In every tree built by [buildFileTree] (the
    library's, for any depth cap, and the fetch route's, with its cap 4),
    no node sits deeper than the cap, and no directory bears a name of the
    skip list of the function that built the tree. The test is made on
    directories only. *)
Theorem tree_skips_directories_and_respects_cap `{Runtime}
    (getContent : jsstring -> Contents) (path : jsstring) (depth maxDepth : nat) :
  Forall (wellPlaced GitHubLib.skipDirs maxDepth depth)
         (nodesAt depth (GitHubLib.buildFileTree getContent path depth maxDepth))
  /\ Forall (wellPlaced FetchRoute.skipDirs 4 depth)
            (nodesAt depth (FetchRoute.buildFileTree getContent path depth)).
Proof.
  split; apply List.Forall_forall; intros entry Hin;
    unfold GitHubLib.buildFileTree, FetchRoute.buildFileTree, buildTree in Hin;
    by apply buildFrom_wellPlaced in Hin.
Qed.

(** C4 as stated fails: a file named [build] is listed in the tree of the
    fetch route although [build] is in the skip list, and the library's
    tree keeps the directory [coverage]. *)
Lemma tree_keeps_file_named_build :
  (exists node,
      In (0%nat, node)
         (nodesAt 0 (FetchRoute.buildFileTree (H := asciiRuntime) sampleRepo [] 0))
      /\ name node = str "build"
      /\ includesStr FetchRoute.skipDirs (name node) = true)
  /\ (exists node,
         In (1%nat, node)
            (nodesAt 0 (GitHubLib.buildFileTree (H := asciiRuntime) sampleRepo [] 0 5))
         /\ name node = str "coverage"
         /\ type node = str "dir").
Proof.
  split.
  - eexists. split; [|split].
    + vm_compute. right. right. left. reflexivity.
    + reflexivity.
    + reflexivity.
  - eexists. split; [|split].
    + vm_compute. right. left. reflexivity.
    + reflexivity.
    + reflexivity.
Qed.

(** ** Rendering a tree and reading the names back *)

Lemma TreeNode_nested_ind (P : TreeNode -> Prop) :
  (forall nm pa ty sz ch, Forall P (default [] ch) -> P (mkNode nm pa ty sz ch)) ->
  forall node, P node.
Proof.
  intros Hnode. fix IH 1. intros [nm pa ty sz ch]. apply Hnode.
  destruct ch as [l|]; simpl; [|constructor].
  revert l. fix IHl 1. intros [|x l]; constructor; [apply IH|apply IHl].
Qed.

Lemma splitLines_line (a b : jsstring) :
  noLineFeed a = true -> splitLines (a ++ NL :: b) = a :: splitLines b.
Proof.
  induction a as [|c a IH]; simpl; [done|].
  intros [Hc Ha]%andb_true_iff. apply negb_true_iff in Hc. rewrite Hc, (IH Ha). done.
Qed.

Lemma splitLines_lines (ls : list jsstring) :
  forallb noLineFeed ls = true ->
  splitLines (flat_map withLineFeed ls) = ls ++ [[]].
Proof.
  induction ls as [|l ls IH]; simpl; [done|].
  intros [Hl Hls]%andb_true_iff. unfold withLineFeed at 1.
  rewrite <- app_assoc. simpl. rewrite (splitLines_line _ _ Hl), (IH Hls). done.
Qed.

Section LinePattern.
Implicit Types (prev : option char) (s nm prefix : jsstring).

Lemma repMin_all {A} (p : char -> bool) (k : option char -> jsstring -> option A) a :
  (forall prev, k prev [] = Some a) ->
  forall s n prev,
    forallb p s = true -> (n <= length s)%nat -> repMin p n prev s k = Some a.
Proof.
  intros Hk. induction s as [|c s IH]; intros n prev Hall Hn.
  - destruct n; [apply Hk|simpl in Hn; lia].
  - simpl in Hall. apply andb_true_iff in Hall as [Hc Hs].
    cbn [repMin]. rewrite Hc, (IH (Nat.pred n) (Some c) Hs); [done|].
    simpl in Hn. lia.
Qed.

Lemma matchHere_no_connector prev c s :
  oneOf [TEE; ELL] c = false -> matchHere treeLineRe prev (c :: s) = None.
Proof. intros Hc. unfold matchHere, treeLineRe. cbn [seqs run]. by rewrite Hc. Qed.

Lemma matchHere_connector prev isLast nm :
  lineSafe nm = true -> matchHere treeLineRe prev (connectorOf isLast ++ nm) = Some [].
Proof.
  intros Hsafe. unfold matchHere, treeLineRe.
  assert (Hrest : forall prev',
             repMin notLineTerminator 1 prev' nm
               (fun prev'' s' => run Eol prev'' s' (fun _ rest => Some rest))
             = Some []).
  { intros prev'. apply repMin_all; [done| |].
    - destruct nm; [discriminate|exact Hsafe].
    - destruct nm; [discriminate|simpl; lia]. }
  destruct isLast; cbn [connectorOf app seqs run chr]; cbn; apply Hrest.
Qed.

Lemma search_plain prefix : forall prev s i,
  plainPrefix prefix = true -> s <> [] ->
  exists prev',
    search treeLineRe prev (prefix ++ s) i
    = search treeLineRe prev' s (i + length prefix).
Proof.
  induction prefix as [|c prefix IH]; intros prev s i Hplain Hs.
  - exists prev. simpl. f_equal. lia.
  - simpl in Hplain. apply andb_true_iff in Hplain as [Hc Hplain].
    assert (Hconn : oneOf [TEE; ELL] c = false).
    { apply negb_true_iff in Hc. unfold oneOf in *. simpl in *.
      destruct (N.eqb c TEE); [discriminate|].
      destruct (N.eqb c ELL); [discriminate|]. reflexivity. }
    cbn [app search]. rewrite (matchHere_no_connector _ _ _ Hconn).
    destruct (IH (Some c) s (S i) Hplain Hs) as [prev' ->].
    exists prev'. f_equal. simpl. lia.
Qed.

(** A line of the rendering gives back its name. *)
Lemma treeLineName_line prefix isLast nm :
  plainPrefix prefix = true -> lineSafe nm = true ->
  treeLineName (prefix ++ connectorOf isLast ++ nm) = Some nm.
Proof.
  intros Hplain Hsafe. unfold treeLineName, exec. cbn [charBefore].
  replace (length _ <? 0)%nat with false by (symmetry; apply Nat.ltb_ge; lia).
  rewrite drop_0.
  destruct (search_plain prefix None (connectorOf isLast ++ nm) 0%nat Hplain)
    as [prev' ->]; [by destruct isLast|].
  assert (Hsearch : search treeLineRe prev' (connectorOf isLast ++ nm)
                           (0 + length prefix)
                    = Some ((0 + length prefix)%nat,
                            (0 + length prefix
                             + (length (connectorOf isLast ++ nm) - 0))%nat)).
  { destruct (connectorOf isLast ++ nm) eqn:Hline; [by destruct isLast|].
    cbn [search]. rewrite <- Hline, (matchHere_connector _ _ _ Hsafe). reflexivity. }
  rewrite Hsearch. f_equal.
  replace (0 + length prefix + 4)%nat
    with (length (prefix ++ connectorOf isLast))
    by (rewrite length_app; destruct isLast; simpl; lia).
  rewrite app_assoc. apply drop_app_length.
Qed.

Lemma treeLineName_empty : treeLineName [] = None.
Proof. reflexivity. Qed.
End LinePattern.

Section RoundTrip.
Implicit Types (prefix nm : jsstring) (tree : list TreeNode) (node : TreeNode).

Lemma lineSafe_noLineFeed nm : lineSafe nm = true -> noLineFeed nm = true.
Proof.
  destruct nm as [|c nm]; [discriminate|]. unfold lineSafe, noLineFeed.
  generalize (c :: nm). intros l. induction l as [|d l IH]; simpl; [done|].
  intros [Hd Hl]%andb_true_iff. rewrite (IH Hl), andb_true_r.
  unfold notLineTerminator, oneOf in Hd. simpl in Hd.
  destruct (N.eqb d NL) eqn:E; [|done].
  apply N.eqb_eq in E. subst d. discriminate.
Qed.

Lemma plainPrefix_noLineFeed prefix : plainPrefix prefix = true -> noLineFeed prefix = true.
Proof.
  unfold plainPrefix, noLineFeed. induction prefix as [|d l IH]; simpl; [done|].
  intros [Hd Hl]%andb_true_iff. rewrite (IH Hl), andb_true_r.
  unfold oneOf in Hd. simpl in Hd.
  destruct (N.eqb d NL) eqn:E; [|done].
  rewrite !orb_true_r in Hd. discriminate.
Qed.

Lemma noLineFeed_app (a b : jsstring) :
  noLineFeed (a ++ b) = noLineFeed a && noLineFeed b.
Proof. apply forallb_app. Qed.

Lemma plainPrefix_child prefix isLast :
  plainPrefix prefix = true -> plainPrefix (prefix ++ childPrefixOf isLast) = true.
Proof.
  intros Hp. unfold plainPrefix in *. rewrite forallb_app, Hp. by destruct isLast.
Qed.

Lemma readsBack_app r1 l1 n1 r2 l2 n2 :
  readsBack r1 l1 n1 -> readsBack r2 l2 n2 ->
  readsBack (r1 ++ r2) (l1 ++ l2) (n1 ++ n2).
Proof.
  intros (-> & <- & H1) (-> & <- & H2). repeat split.
  - by rewrite flat_map_app.
  - by rewrite omap_app.
  - by rewrite forallb_app, H1, H2.
Qed.

Lemma level_readsBack tree :
  Forall nodeReadsBack tree ->
  forall prefix,
    plainPrefix prefix = true ->
    forallb lineSafe (flat_map namesOfNode tree) = true ->
    readsBack (renderLevel (renderNode prefix) tree)
              (renderLevel (linesOfNode prefix) tree)
              (flat_map namesOfNode tree).
Proof.
  induction 1 as [|node rest Hnode _ IH]; intros prefix Hplain Hsafe.
  - repeat split.
  - cbn [renderLevel flat_map] in *. rewrite forallb_app in Hsafe.
    apply andb_true_iff in Hsafe as [Hsafe1 Hsafe2].
    apply readsBack_app; [by apply Hnode|by apply IH].
Qed.

Lemma node_readsBack node : nodeReadsBack node.
Proof.
  induction node as [nm pa ty sz ch IH] using TreeNode_nested_ind.
  intros prefix isLast Hplain Hsafe.
  cbn [namesOfNode forallb] in Hsafe. apply andb_true_iff in Hsafe as [Hnm Hsafe].
  cbn [renderNode linesOfNode namesOfNode].
  change (nm :: ?l) with ([nm] ++ l).
  change ((prefix ++ connectorOf isLast ++ nm) :: ?l)
    with ([prefix ++ connectorOf isLast ++ nm] ++ l).
  apply readsBack_app.
  - repeat split.
    + unfold withLineFeed. simpl. rewrite app_nil_r, <- !app_assoc. reflexivity.
    + simpl. by rewrite (treeLineName_line _ _ _ Hplain Hnm).
    + simpl. rewrite !noLineFeed_app, (plainPrefix_noLineFeed _ Hplain),
        (lineSafe_noLineFeed _ Hnm). by destruct isLast.
  - destruct ch as [[|c cs]|]; try (repeat split; done).
    apply level_readsBack; [exact IH|by apply plainPrefix_child|exact Hsafe].
Qed.
End RoundTrip.

(** [extractMentionedFiles] reads the names of the rendering in this way
    and keeps those the query mentions. *)
Lemma mentionedFiles_parse `{Runtime} (query rendering : jsstring) :
  mentionedFiles query rendering
  = List.filter (fun nm => includes (toLowerCase query) (toLowerCase nm))
                (parseTreeNames rendering).
Proof.
  unfold mentionedFiles, parseTreeNames.
  induction (splitLines rendering) as [|line lines IH]; [done|].
  cbn [flat_map omap]. unfold omap, list_omap in *. fold (@list_omap jsstring jsstring) in *.
  destruct (treeLineName line) as [nm|]; [|exact IH].
  cbn [List.filter]. rewrite IH. by destruct (includes _ _).
Qed.

(** C8, as the code has it. For every tree whose rendered names are not
    empty and hold no line terminator, reading the rendering back line by
    line with the pattern of the selectors gives exactly the names of the
    nodes, in the order the rendering lists them. *)
Theorem tree_names_roundtrip (tree : list TreeNode) :
  forallb lineSafe (renderedNames tree) = true ->
  parseTreeNames (treeToString tree []) = renderedNames tree.
Proof.
  intros Hsafe. unfold parseTreeNames, treeToString, renderedNames in *.
  destruct (level_readsBack tree) with (prefix := @nil char) as (-> & <- & Hlines);
    [|done|exact Hsafe|].
  - apply List.Forall_forall. intros node _. apply node_readsBack.
  - rewrite (splitLines_lines _ Hlines), omap_app. simpl. by rewrite app_nil_r.
Qed.

Lemma tree_names_roundtrip_witness :
  forallb lineSafe (renderedNames sampleTree) = true
  /\ parseTreeNames (treeToString sampleTree []) = renderedNames sampleTree.
Proof.
  split; [reflexivity|]. apply (tree_names_roundtrip sampleTree). reflexivity.
Defined.

(** C8 as stated fails: a file whose name holds a line feed is rendered on
    two lines, and reading them back gives the part of the name before the
    line feed. *)
Lemma tree_names_roundtrip_breaks_on_line_feed :
  parseTreeNames (treeToString sampleTwoLineName []) = [str "a"]
  /\ parseTreeNames (treeToString sampleTwoLineName [])
     <> renderedNames sampleTwoLineName.
Proof. split; [reflexivity|]. vm_compute. discriminate. Qed.

(** ** Relevance selection *)

Lemma stripFences_total (content : jsstring) : exists text, stripFences content = Some text.
Proof.
  unfold stripFences.
  destruct (allMatches_total fenceRe content) as [ms ->]; [reflexivity|eauto].
Qed.

Lemma slice15_length (v : option json) (sliced : list json + jsstring) :
  slice15 v = Some sliced -> (filesLength sliced <= 15)%nat.
Proof.
  destruct v as [[| | | s | elems |]|]; try discriminate; intros [= <-]; simpl;
    rewrite length_take; lia.
Qed.

Lemma namesAsFiles_length (names : list jsstring) :
  (filesLength (namesAsFiles (take 15 names)) <= 15)%nat.
Proof. simpl. rewrite length_map, length_take. lia. Qed.

Lemma getProp_other (a b : string) (v : json) (x : option json) :
  getProp a v = Some x -> exists y, getProp b v = Some y.
Proof. destruct v; try discriminate; simpl; eauto. Qed.

(** C2, as the code has it. For text inputs [analyzeFileSelection] always
    returns a result with at most 15 files whose tier is ["explicit"],
    ["ai"] or ["fallback"], and which of the three is fixed by the inputs.
    When the query mentions names of the tree, the result is the first 15
    of them under the tier ["explicit"]. Otherwise, when the model answers
    with a text that parses to a value whose [files] can be sliced, the
    result is the first 15 of these files with the [reason] of the value,
    under the tier ["ai"]. Otherwise (the call fails, the text is not
    JSON, the value is [null], or its [files] is missing or neither an
    array nor a string) the result is the fallback with its four default
    files. [selectRelevantFiles] of the chat route returns a result
    without tier and with at most 15 files, fixed in the same way, with
    two differences: a [files] that is missing or falsy is read as the
    empty list, which is then the result, and a falsy [reason] is replaced
    by a fixed text; its fallback has two default files. *)
Theorem selection_returns_bounded_result `{Runtime}
    (model : SelectionPrompt -> ModelReply) (query fileTree owner repo : jsstring) :
  let mentioned := mentionedFiles query fileTree in
  let reply := model (mkSelectionPrompt fileTree query owner repo) in
  (exists sel,
      OpenAILib.analyzeFileSelection model query fileTree owner repo = Some sel
      /\ (filesLength (files sel) <= 15)%nat
      /\ In (tier sel) [Some (str "explicit"); Some (str "ai"); Some (str "fallback")]
      /\ ((mentioned <> []
           /\ sel = mkSelection (namesAsFiles (take 15 mentioned))
                      (Some (JStr (str "Files explicitly mentioned in query")))
                      (Some (str "explicit")))
          \/ (mentioned = []
              /\ exists content text parsed filesProp reasonProp sliced,
                   reply = ReplyText content
                   /\ stripFences (trim content) = Some text
                   /\ parseJSON text = Some parsed
                   /\ getProp "files" parsed = Some filesProp
                   /\ getProp "reason" parsed = Some reasonProp
                   /\ slice15 filesProp = Some sliced
                   /\ sel = mkSelection sliced reasonProp (Some (str "ai")))
          \/ (mentioned = []
              /\ sel = OpenAILib.fallback
              /\ tier sel = Some (str "fallback")
              /\ filesLength (files sel) = 4%nat
              /\ ((exists message, reply = ReplyError message)
                  \/ exists content text,
                       reply = ReplyText content
                       /\ stripFences (trim content) = Some text
                       /\ (parseJSON text = None
                           \/ exists parsed,
                                parseJSON text = Some parsed
                                /\ (getProp "files" parsed = None
                                    \/ exists filesProp,
                                         getProp "files" parsed = Some filesProp
                                         /\ slice15 filesProp = None))))))
  /\ (exists sel,
         ChatRoute.selectRelevantFiles model query fileTree owner repo = Some sel
         /\ (filesLength (files sel) <= 15)%nat
         /\ tier sel = None
         /\ ((mentioned <> []
              /\ sel = mkSelection (namesAsFiles (take 15 mentioned))
                         (Some (JStr (str "Files mentioned in query"))) None)
             \/ (mentioned = []
                 /\ exists content text parsed filesProp reasonProp sliced,
                      reply = ReplyText content
                      /\ stripFences (trim content) = Some text
                      /\ parseJSON text = Some parsed
                      /\ getProp "files" parsed = Some filesProp
                      /\ getProp "reason" parsed = Some reasonProp
                      /\ slice15 (Some (ChatRoute.orElse filesProp (JArr []))) = Some sliced
                      /\ match filesProp with
                         | None => sliced = inl []
                         | Some value => truthy value = false -> sliced = inl []
                         end
                      /\ sel = mkSelection sliced
                                 (Some (ChatRoute.orElse reasonProp (JStr (str "AI selected"))))
                                 None)
             \/ (mentioned = []
                 /\ sel = ChatRoute.fallback
                 /\ filesLength (files sel) = 2%nat
                 /\ ((exists message, reply = ReplyError message)
                     \/ exists content text,
                          reply = ReplyText content
                          /\ stripFences (trim content) = Some text
                          /\ (parseJSON text = None
                              \/ exists parsed,
                                   parseJSON text = Some parsed
                                   /\ (getProp "files" parsed = None
                                       \/ exists filesProp,
                                            getProp "files" parsed = Some filesProp
                                            /\ slice15 (Some (ChatRoute.orElse filesProp
                                                                (JArr [])))
                                               = None)))))).
Proof.
  intros mentioned reply. split.
  - unfold OpenAILib.analyzeFileSelection, OpenAILib.extractMentionedFiles.
    fold mentioned. fold reply.
    destruct mentioned as [|nm rest] eqn:Hm.
    + cbn [length Nat.ltb Nat.leb].
      destruct reply as [message|content] eqn:Hreply.
      * eexists. split; [reflexivity|]. split; [simpl; lia|].
        split; [right; right; left; reflexivity|].
        right. right. repeat split; eauto.
      * unfold OpenAILib.readReply.
        destruct (stripFences_total (trim content)) as [text Htext]. rewrite Htext.
        destruct (parseJSON text) as [parsed|] eqn:Hparse.
        2:{ eexists. split; [reflexivity|]. split; [simpl; lia|].
            split; [right; right; left; reflexivity|].
            right. right. repeat split; eauto 10. }
        destruct (getProp "files" parsed) as [filesProp|] eqn:Hprop.
        2:{ eexists. split; [reflexivity|]. split; [simpl; lia|].
            split; [right; right; left; reflexivity|].
            right. right. repeat split; eauto 12. }
        destruct (slice15 filesProp) as [sliced|] eqn:Hslice.
        2:{ eexists. split; [reflexivity|]. split; [simpl; lia|].
            split; [right; right; left; reflexivity|].
            right. right. repeat split; eauto 15. }
        destruct (getProp_other "files" "reason" parsed _ Hprop) as [reasonProp Hreason].
        rewrite Hreason. cbn [default].
        eexists. split; [reflexivity|]. cbn [files tier].
        split; [by apply (slice15_length filesProp)|].
        split; [right; left; reflexivity|].
        right. left. split; [reflexivity|].
        exists content, text, parsed, filesProp, reasonProp, sliced. by repeat split.
    + replace (0 <? length (nm :: rest))%nat with true by reflexivity.
      eexists. split; [reflexivity|]. split; [apply namesAsFiles_length|].
      split; [left; reflexivity|].
      left. split; [discriminate|reflexivity].
  - unfold ChatRoute.selectRelevantFiles, ChatRoute.findMentionedFiles.
    fold mentioned. fold reply.
    destruct mentioned as [|nm rest] eqn:Hm.
    + cbn [length Nat.ltb Nat.leb].
      destruct reply as [message|content] eqn:Hreply.
      * eexists. split; [reflexivity|]. split; [simpl; lia|]. split; [reflexivity|].
        right. right. repeat split; eauto.
      * unfold ChatRoute.readReply.
        destruct (stripFences_total (trim content)) as [text Htext]. rewrite Htext.
        destruct (parseJSON text) as [parsed|] eqn:Hparse.
        2:{ eexists. split; [reflexivity|]. split; [simpl; lia|]. split; [reflexivity|].
            right. right. repeat split; eauto 10. }
        destruct (getProp "files" parsed) as [filesProp|] eqn:Hprop.
        2:{ eexists. split; [reflexivity|]. split; [simpl; lia|]. split; [reflexivity|].
            right. right. repeat split; eauto 12. }
        destruct (slice15 (Some (ChatRoute.orElse filesProp (JArr [])))) as [sliced|]
          eqn:Hslice.
        2:{ eexists. split; [reflexivity|]. split; [simpl; lia|]. split; [reflexivity|].
            right. right. repeat split; eauto 15. }
        destruct (getProp_other "files" "reason" parsed _ Hprop) as [reasonProp Hreason].
        rewrite Hreason. cbn [default].
        eexists. split; [reflexivity|]. cbn [files tier].
        split; [by apply (slice15_length _ _ Hslice)|]. split; [reflexivity|].
        right. left. split; [reflexivity|].
        exists content, text, parsed, filesProp, reasonProp, sliced.
        repeat split; try done.
        destruct filesProp as [value|]; cbn in Hslice.
        -- intros Hfalsy. rewrite Hfalsy in Hslice. by injection Hslice as <-.
        -- by injection Hslice as <-.
    + replace (0 <? length (nm :: rest))%nat with true by reflexivity.
      eexists. split; [reflexivity|]. split; [apply namesAsFiles_length|].
      split; [reflexivity|]. left. split; [discriminate|reflexivity].
Qed.

(** C2 as stated fails: when the model answers, the tier of the result is
    ["ai"], which is none of ["explicit"], ["model"], ["fallback"]; and
    the selector of the chat route gives no tier at all and, for the reply
    [{}] without [files], an empty file list. *)
Lemma selection_tier_is_ai :
  (exists sel,
      OpenAILib.analyzeFileSelection (H := sampleRuntime)
        (fun _ => ReplyText sampleReplyText) (str "how does it start") [] [] []
      = Some sel
      /\ tier sel = Some (str "ai")
      /\ ~ In (tier sel) [Some (str "explicit"); Some (str "model"); Some (str "fallback")])
  /\ (exists sel,
         ChatRoute.selectRelevantFiles (H := sampleRuntime)
           (fun _ => ReplyText (str "{}")) (str "how does it start") [] [] []
         = Some sel
         /\ tier sel = None
         /\ files sel = inl []).
Proof.
  split.
  - eexists. split; [vm_compute; reflexivity|]. split; [reflexivity|].
    cbn [tier]. intros [Hin|[Hin|[Hin|[]]]]; vm_compute in Hin; discriminate Hin.
  - eexists. split; [vm_compute; reflexivity|]. split; reflexivity.
Qed.

(** ** The chat route *)

Lemma disciplined_plain_prefix (xs rest : list Action) :
  forallb plainWrite xs = true -> disciplined (xs ++ rest) = disciplined rest.
Proof.
  induction xs as [|x xs IH]; simpl; [done|].
  intros [Hx Hxs]%andb_true_iff. apply andb_true_iff in Hx as [Hw Ht].
  apply negb_true_iff in Ht. rewrite Ht, Hw. simpl. auto.
Qed.

Lemma selectRelevantFiles_total `{Runtime} model (query tree owner repo : jsstring) :
  exists sel, ChatRoute.selectRelevantFiles model query tree owner repo = Some sel.
Proof.
  unfold ChatRoute.selectRelevantFiles.
  destruct (0 <? _)%nat; [eauto|].
  destruct (model _) as [message|content]; [eauto|].
  unfold ChatRoute.readReply.
  destruct (stripFences_total (trim content)) as [text ->].
  destruct (parseJSON text) as [parsed|]; [|eauto].
  destruct (getProp "files" parsed) as [filesProp|]; [|eauto].
  destruct (slice15 _); eauto.
Qed.

Lemma forEach_requests (paths : list json) :
  exists t,
    forEach paths (fun p => act (GetContent (jsToString p))) = (t, Ok tt)
    /\ channel t = [].
Proof.
  induction paths as [|p paths (t & IH & Hch)]; [by exists []|].
  cbn [forEach]. rewrite IH. unfold act. cbn [bind]. eexists. split; [reflexivity|].
  exact Hch.
Qed.

Lemma forEach_chunks (chunks : list (option jsstring)) :
  exists t,
    forEach chunks
      (fun chunk =>
         match chunk with
         | Some (c :: cs) => sendEvent "chunk" (PChunk (c :: cs))
         | _ => ret tt
         end) = (t, Ok tt)
    /\ channel t = t /\ forallb plainWrite t = true.
Proof.
  induction chunks as [|chunk chunks (t & IH & Hch & Hplain)]; [by exists []|].
  cbn [forEach]. rewrite IH.
  destruct chunk as [[|c cs]|]; unfold sendEvent, act, ret; cbn [bind app];
    eexists; (split; [reflexivity|]); try done.
  split; [simpl; by rewrite Hch|simpl; exact Hplain].
Qed.

Lemma channel_write (e : Event) (t : list Action) :
  channel (Write e :: t) = Write e :: channel t.
Proof. reflexivity. Qed.

Lemma channel_end (t : list Action) : channel (End :: t) = End :: channel t.
Proof. reflexivity. Qed.

Lemma channel_nil : channel [] = [].
Proof. reflexivity. Qed.

Create Rewrite HintDb channel.
#[local] Hint Rewrite channel_app channel_write channel_end channel_nil
  @app_nil_r @app_nil_l : channel.

Lemma disciplined_plain (a : Action) (t : list Action) :
  plainWrite a = true -> disciplined (a :: t) = disciplined t.
Proof. intros Ha. apply (disciplined_plain_prefix [a]). simpl. by rewrite Ha. Qed.

Ltac close_stream :=
  autorewrite with channel;
  repeat first
    [ rewrite disciplined_plain by reflexivity
    | rewrite disciplined_plain_prefix by assumption
    | rewrite <- app_assoc
    | progress cbn [app] ];
  try reflexivity.

(** A request that carries a query has a body. *)
Lemma chat_query_hasBody (req : ChatRoute.Request) :
  ChatRoute.missing (ChatRoute.query req) || ChatRoute.missing (ChatRoute.owner req)
    || ChatRoute.missing (ChatRoute.repo req) = false ->
  ChatRoute.hasBody req = true.
Proof.
  unfold ChatRoute.query, ChatRoute.hasBody. by destruct (ChatRoute.body req).
Qed.

(** Every chat request that passes the checks of the handler gets a stream
    of events that are not terminal, then one terminal event ([done] or
    [error]), then the close. *)
Lemma chat_closes_after_terminal `{Runtime} gh model stream (req : ChatRoute.Request) :
  streq (ChatRoute.method req) (str "POST") = true ->
  ChatRoute.missing (ChatRoute.query req) || ChatRoute.missing (ChatRoute.owner req)
    || ChatRoute.missing (ChatRoute.repo req) = false ->
  closesAfterTerminal (trace (ChatRoute.handler gh model stream req)).
Proof.
  intros Hmethod Hmissing. unfold ChatRoute.handler, closesAfterTerminal, trace.
  rewrite Hmethod, (chat_query_hasBody _ Hmissing), Hmissing. cbn [negb].
  destruct (ChatRoute.tree req) as [tree|]; [|reflexivity].
  destruct (selectRelevantFiles_total model (ChatRoute.query req) tree
              (ChatRoute.owner req) (ChatRoute.repo req)) as [sel ->].
  unfold sendEvent, act, orDiverge, ret, throw. cbn [bind app].
  destruct (files sel) as [paths|[|c cs]]; [| |reflexivity].
  - destruct (forEach_requests paths) as (tr & Hfe & Hreq).
    unfold act in Hfe. rewrite Hfe. cbn [bind app].
    destruct (stream _) as [message|chunks failure].
    + cbn [bind app tryCatch tryFinally fst]. close_stream. by rewrite Hreq.
    + destruct (forEach_chunks chunks) as (tc & Hfc & Hch & Hplain).
      unfold sendEvent, act, ret in Hfc. cbn [bind app fst snd]. rewrite Hfc.
      destruct failure as [message|]; cbn [bind app tryCatch tryFinally fst snd];
        autorewrite with channel; rewrite Hreq, Hch; close_stream.
  - cbn [bind app].
    destruct (stream _) as [message|chunks failure]; [reflexivity|].
    destruct (forEach_chunks chunks) as (tc & Hfc & Hch & Hplain).
    unfold sendEvent, act, ret in Hfc. cbn [bind app fst snd]. rewrite Hfc.
    destruct failure as [message|]; cbn [bind app tryCatch tryFinally fst snd];
      autorewrite with channel; rewrite Hch; close_stream.
Qed.

(** ** Scanning a file *)

(** *** Lines and offsets *)

Lemma splitLines_nonempty (s : jsstring) : splitLines s <> [].
Proof.
  destruct s as [|c s]; simpl; [done|].
  destruct (N.eqb c NL); [done|]. by destruct (splitLines s).
Qed.

Lemma join_splitLines (s : jsstring) : join [NL] (splitLines s) = s.
Proof.
  induction s as [|c s IH]; [done|]. cbn [splitLines].
  pose proof (splitLines_nonempty s) as Hne.
  destruct (N.eqb c NL) eqn:Hc.
  - apply N.eqb_eq in Hc. subst c.
    destruct (splitLines s) as [|l ls]; [done|].
    change (join [NL] ([] :: l :: ls)) with ([] ++ [NL] ++ join [NL] (l :: ls)).
    by rewrite IH.
  - destruct (splitLines s) as [|l ls]; [done|].
    destruct ls as [|l' ls]; simpl in *; by rewrite IH.
Qed.

Lemma join_middle (before after : list jsstring) (l : jsstring) :
  exists rest,
    join [NL] (before ++ l :: after) = flat_map withLineFeed before ++ l ++ rest
    /\ (rest = [] \/ exists rest', rest = NL :: rest').
Proof.
  induction before as [|b before (rest & IH & Hrest)].
  - destruct after as [|a after].
    + exists []. simpl. rewrite app_nil_r. auto.
    + exists (NL :: join [NL] (a :: after)). simpl. eauto.
  - exists rest. split; [|done].
    change ((b :: before) ++ l :: after) with (b :: (before ++ l :: after)).
    destruct (before ++ l :: after) as [|x xs] eqn:Hx; [by destruct before|].
    change (join [NL] (b :: x :: xs)) with (b ++ [NL] ++ join [NL] (x :: xs)).
    rewrite IH. cbn [flat_map]. unfold withLineFeed at 2.
    by rewrite <- !app_assoc.
Qed.

(** A text around its line [i]. *)
Lemma content_around_line (content l : jsstring) (i : nat) :
  splitLines content !! i = Some l ->
  exists head rest,
    content = head ++ l ++ rest
    /\ head = flat_map withLineFeed (take i (splitLines content))
    /\ (rest = [] \/ exists rest', rest = NL :: rest').
Proof.
  intros Hi.
  destruct (join_middle (take i (splitLines content)) (drop (S i) (splitLines content)) l)
    as (rest & Hjoin & Hrest).
  exists (flat_map withLineFeed (take i (splitLines content))), rest.
  rewrite (take_drop_middle _ _ _ Hi), join_splitLines in Hjoin.
  split; [exact Hjoin|]. split; [reflexivity|exact Hrest].
Qed.

Lemma offsetOf_cons (b : jsstring) (before : list jsstring) :
  offsetOf (b :: before) = (length b + 1 + offsetOf before)%nat.
Proof.
  unfold offsetOf. cbn [flat_map]. unfold withLineFeed at 1.
  rewrite !length_app. simpl. lia.
Qed.

Lemma lineNumberLoop_at (before : list jsstring) : forall idx charCount l after position,
  (charCount + offsetOf before <= position)%nat ->
  (position <= charCount + offsetOf before + length l)%nat ->
  lineNumberLoop (before ++ l :: after) idx charCount position
  = (idx + length before + 1)%nat.
Proof.
  induction before as [|b before IH]; intros idx charCount l after position Hlo Hhi.
  - unfold offsetOf in *. simpl in *.
    replace (position <? charCount + length l + 1)%nat with true
      by (symmetry; apply Nat.ltb_lt; lia). lia.
  - rewrite offsetOf_cons in Hlo, Hhi. cbn [app lineNumberLoop].
    replace (position <? charCount + length b + 1)%nat with false
      by (symmetry; apply Nat.ltb_ge; lia).
    rewrite IH; simpl; lia.
Qed.

Lemma lineNumberOf_line (lines : list jsstring) (l : jsstring) (i position : nat) :
  lines !! i = Some l ->
  (offsetOf (take i lines) <= position <= offsetOf (take i lines) + length l)%nat ->
  lineNumberOf lines position = (i + 1)%nat.
Proof.
  intros Hi [Hlo Hhi]. unfold lineNumberOf.
  rewrite <- (take_drop_middle _ _ _ Hi).
  rewrite lineNumberLoop_at with (l := l); try lia.
  rewrite length_take. apply lookup_lt_Some in Hi. lia.
Qed.

(** *** What the rule for API keys can match *)

Lemma lang_alphabet (r : regex) : forall prev w rest,
  lang r prev w rest -> Forall (fun c => alphabet r c = true) w.
Proof.
  induction r as [|p|r1 IH1 r2 IH2|r1 IH1 r2 IH2|r1 IH1|p n| |];
    intros prev w rest Hw; simpl in *.
  - subst. constructor.
  - destruct Hw as (c & -> & Hc). by repeat constructor.
  - destruct Hw as (u & v & -> & Hu & Hv). apply Forall_app. split.
    + eapply Forall_impl; [exact (IH1 _ _ _ Hu)|]. simpl. intros c ->. done.
    + eapply Forall_impl; [exact (IH2 _ _ _ Hv)|]. simpl. intros c ->. apply orb_true_r.
  - destruct Hw as [Hw|Hw].
    + eapply Forall_impl; [exact (IH1 _ _ _ Hw)|]. simpl. intros c ->. done.
    + eapply Forall_impl; [exact (IH2 _ _ _ Hw)|]. simpl. intros c ->. apply orb_true_r.
  - destruct Hw as [->|Hw]; [constructor|eauto].
  - by destruct Hw.
  - destruct Hw as [-> _]. constructor.
  - destruct Hw as [-> _]. constructor.
Qed.

Section Adjacent.
Variables a b : N.
Implicit Types (u v w : list N).

Lemma adjacent_cons x w :
  adjacent a b (x :: w)
  = (N.eqb x a && from_option (N.eqb b) false (head w)) || adjacent a b w.
Proof.
  destruct w as [|y w]; simpl; [by rewrite andb_false_r|].
  by rewrite (N.eqb_sym b y).
Qed.

(** No [a] in [u]: a pair starts in [v]. *)
Lemma adjacent_app_first u v :
  Forall (fun c => N.eqb c a = false) u -> adjacent a b (u ++ v) = adjacent a b v.
Proof.
  induction 1 as [|x u Hx _ IH]; [done|].
  change ((x :: u) ++ v) with (x :: (u ++ v)). rewrite adjacent_cons, Hx. exact IH.
Qed.

(** No [b] in [u] and none at the head of [v]: a pair starts in [v]. *)
Lemma adjacent_app_second u v :
  Forall (fun c => N.eqb c b = false) u ->
  from_option (N.eqb b) false (head v) = false ->
  adjacent a b (u ++ v) = adjacent a b v.
Proof.
  intros Hu Hv. induction Hu as [|x u Hx Hu IH]; [done|].
  change ((x :: u) ++ v) with (x :: (u ++ v)). rewrite adjacent_cons.
  assert (from_option (N.eqb b) false (head (u ++ v)) = false) as ->.
  { destruct Hu as [|y u Hy _]; [exact Hv|]. simpl. by rewrite N.eqb_sym. }
  rewrite andb_false_r. exact IH.
Qed.

Lemma adjacent_here u w : adjacent a b (u ++ a :: b :: w) = true.
Proof.
  induction u as [|x u IH].
  - simpl. by rewrite !N.eqb_refl.
  - change ((x :: u) ++ a :: b :: w) with (x :: (u ++ a :: b :: w)).
    rewrite adjacent_cons. apply orb_true_iff. right. exact IH.
Qed.
End Adjacent.

Lemma Forall_pred_not (p : char -> bool) (c : char) (w : jsstring) :
  p c = false -> Forall (fun x => p x = true) w -> Forall (fun x => N.eqb x c = false) w.
Proof.
  intros Hc Hall. eapply Forall_impl; [exact Hall|]. intros x Hx. simpl in *.
  destruct (N.eqb x c) eqn:E; [|done]. apply N.eqb_eq in E. congruence.
Qed.

(** No match of the rule holds a line feed directly followed by [c]: a
    line feed can only stand in the white space before the sign or before
    the quote. *)
Lemma apiKey_match_shape (prev : option char) (w rest : jsstring) :
  lang SecurityLib.apiKeyRe prev w rest -> adjacent NL 99 w = false.
Proof.
  unfold SecurityLib.apiKeyRe, SecurityLib.assignQuoted. cbn [seqs lang].
  intros (g & t1 & -> & Hg & w1 & t2 & -> & [_ Hw1] & s & t3 & -> & (cs & -> & Hs)
          & w2 & t4 & -> & [_ Hw2] & q & t5 & -> & (cq & -> & Hq)
          & body & q' & -> & [_ Hbody] & (cq' & -> & Hq')).
  assert (Hg' : Forall (fun c => N.eqb c NL = false) g).
  { assert (Halpha : Forall (fun c => alphabet
                                (Alt (seqs [liti "api"; Opt (Cls isSep); liti "key"])
                                     (liti "apikey")) c = true) g)
      by (apply (lang_alphabet _ prev g
                   ((w1 ++ [cs] ++ w2 ++ [cq] ++ body ++ [cq']) ++ rest)); exact Hg).
    eapply Forall_pred_not; [|exact Halpha]. reflexivity. }
  rewrite (adjacent_app_first _ _ _ _ Hg').
  rewrite adjacent_app_second;
    [|by apply (Forall_pred_not isSpace)
     |simpl; destruct (N.eqb 99 cs) eqn:E; [apply N.eqb_eq in E; by subst cs|done]].
  rewrite (adjacent_app_first NL 99 [cs]);
    [|constructor; [|constructor];
      destruct (N.eqb cs NL) eqn:E; [apply N.eqb_eq in E; by subst cs|done]].
  rewrite adjacent_app_second;
    [|by apply (Forall_pred_not isSpace)
     |simpl; destruct (N.eqb 99 cq) eqn:E; [apply N.eqb_eq in E; by subst cq|done]].
  rewrite (adjacent_app_first NL 99 [cq]);
    [|constructor; [|constructor];
      destruct (N.eqb cq NL) eqn:E; [apply N.eqb_eq in E; by subst cq|done]].
  rewrite adjacent_app_first; [done|by apply (Forall_pred_not isKeyChar)].
Qed.

(** The rule matches the assignment of the line wherever it stands. *)
Lemma apiKey_matches_assignment (prev : option char) (rest : jsstring) :
  matchHere SecurityLib.apiKeyRe prev (apiKeyAssignment ++ rest) = Some rest.
Proof. vm_compute. reflexivity. Qed.

(** *** The match loop reaches the line *)

Section Reaching.
Variable r : regex.
Variables (before matched : jsstring) (rest : jsstring).
Hypothesis Hmatch : forall prev, matchHere r prev matched = Some rest.

Lemma search_finds (u : jsstring) : forall prev i,
  exists j e, search r prev (u ++ matched) i = Some (j, e) /\ (i <= j <= i + length u)%nat.
Proof.
  induction u as [|c u IH]; intros prev i.
  - cbn [app]. exists i. destruct matched; simpl; rewrite Hmatch; eexists; split; eauto; lia.
  - cbn [app search]. destruct (matchHere r prev (c :: u ++ matched)).
    + exists i. eexists. split; [reflexivity|simpl; lia].
    + destruct (IH (Some c) (S i)) as (j & e & -> & Hj).
      exists j, e. split; [reflexivity|simpl; lia].
Qed.

Lemma exec_finds (lastIndex : nat) :
  (lastIndex <= length before)%nat ->
  exists j e,
    exec r (before ++ matched) lastIndex = Some (j, e)
    /\ (lastIndex <= j <= length before)%nat.
Proof.
  intros Hle. unfold exec.
  replace (length (before ++ matched) <? lastIndex)%nat with false
    by (symmetry; apply Nat.ltb_ge; rewrite length_app; lia).
  rewrite drop_app_le by lia.
  destruct (search_finds (drop lastIndex before)
              (charBefore (before ++ matched) lastIndex) lastIndex)
    as (j & e & -> & Hj).
  exists j, e. split; [reflexivity|]. rewrite length_drop in Hj. lia.
Qed.

(** When no match that starts before [start] runs past [start], the loop
    finds a match that starts between [start] and the place of
    [matched]. *)
Lemma execLoop_reaches (start : nat) :
  (start <= length before)%nat ->
  (forall j e, (j < start)%nat -> (start < e)%nat ->
               lang r (charBefore (before ++ matched) j)
                    (sliceArr (before ++ matched) j e)
                    (drop e (before ++ matched)) -> False) ->
  forall fuel lastIndex ms,
    execLoop fuel r (before ++ matched) lastIndex = Some ms ->
    (lastIndex <= length before)%nat ->
    exists j e, In (j, e) ms /\ (start <= j <= length before)%nat.
Proof.
  intros Hstart Hclear. induction fuel as [|fuel IH]; intros lastIndex ms Hrun Hle;
    [discriminate|].
  cbn [execLoop] in Hrun.
  destruct (exec_finds lastIndex Hle) as (j & e & Hexec & Hj).
  rewrite Hexec in Hrun.
  destruct (execLoop fuel r (before ++ matched) e) as [ms'|] eqn:Hrec; [|discriminate].
  inversion Hrun; subst ms.
  destruct (Nat.le_gt_cases start j) as [Hsj|Hsj].
  - exists j, e. split; [by left|lia].
  - apply exec_sound in Hexec as (_ & _ & _ & Hw).
    assert (e <= start)%nat.
    { destruct (Nat.le_gt_cases e start) as [|Hgt]; [done|].
      destruct (Hclear j e Hsj Hgt Hw). }
    destruct (IH e ms' Hrec) as (j' & e' & Hin & Hj'); [lia|].
    exists j', e'. split; [by right|done].
Qed.
End Reaching.

Lemma lines_end_with_line_feed (before : list jsstring) :
  before <> [] -> exists head, flat_map withLineFeed before = head ++ [NL].
Proof.
  induction before as [|b before IH]; [done|]. intros _.
  destruct before as [|b' before].
  - exists b. simpl. by rewrite app_nil_r.
  - destruct IH as [head Hhead]; [done|].
    exists (withLineFeed b ++ head). cbn [flat_map] in *. by rewrite Hhead, app_assoc.
Qed.

Lemma slice_holds_pair (head tail : list N) (a b : N) (j e : nat) :
  (j <= length head)%nat -> (length head + 2 <= e)%nat ->
  adjacent a b (sliceArr (head ++ a :: b :: tail) j e) = true.
Proof.
  intros Hj He. unfold sliceArr.
  rewrite take_app_ge by lia.
  replace (e - length head)%nat with (S (S (e - length head - 2))) by lia.
  cbn [take]. rewrite drop_app_le by lia. apply adjacent_here.
Qed.

(** *** The finding *)

Lemma security_patterns_not_nullable :
  forallb (fun p => negb (nullable (p_pattern p))) SecurityLib.SECURITY_PATTERNS = true.
Proof. vm_compute. reflexivity. Qed.

Lemma scanPattern_total (filePath content : jsstring) (lines : list jsstring)
    (pattern : Pattern) :
  In pattern SecurityLib.SECURITY_PATTERNS ->
  exists ms,
    allMatches (p_pattern pattern) content = Some ms
    /\ SecurityLib.scanPattern filePath content lines pattern
       = Some (List.map (SecurityLib.findingOf filePath content lines pattern) ms).
Proof.
  intros Hin. pose proof security_patterns_not_nullable as Hall.
  rewrite forallb_forall in Hall. specialize (Hall _ Hin). apply negb_true_iff in Hall.
  destruct (allMatches_total _ content Hall) as [ms Hms].
  exists ms. split; [done|]. unfold SecurityLib.scanPattern. by rewrite Hms.
Qed.

(** [scanFile] always returns. *)
Lemma scanFile_total `{Runtime} (filePath content : jsstring) :
  exists findings, SecurityLib.scanFile filePath content = Some findings.
Proof.
  unfold SecurityLib.scanFile. destruct content as [|c content]; [eauto|].
  destruct (negb (SecurityLib.isCodeFile filePath)); [eauto|].
  apply concatOpt_total, List.Forall_forall. intros pattern Hin.
  destruct (scanPattern_total filePath (c :: content) (splitLines (c :: content))
              pattern Hin) as (ms & _ & ->). eauto.
Qed.

Lemma scanFile_code_file `{Runtime} (filePath content : jsstring) :
  content <> [] -> SecurityLib.isCodeFile filePath = true ->
  SecurityLib.scanFile filePath content
  = concatOpt (SecurityLib.scanPattern filePath content (splitLines content))
              SecurityLib.SECURITY_PATTERNS.
Proof.
  intros Hne Hcode. unfold SecurityLib.scanFile. rewrite Hcode.
  by destruct content.
Qed.

(** C5. In a file whose extension is in the allow-list of the scanner,
    a line equal to the line of scenario B, at position [i + 1] among the
    lines of the content, gives a finding of type Hardcoded Secret and
    severity critical whose line is [i + 1]. *)
Theorem scanFile_finds_hardcoded_api_key `{Runtime}
    (filePath content : jsstring) (i : nat) :
  SecurityLib.isCodeFile filePath = true ->
  splitLines content !! i = Some apiKeyLine ->
  exists findings finding,
    SecurityLib.scanFile filePath content = Some findings
    /\ In finding findings
    /\ f_file finding = filePath
    /\ f_type finding = str "Hardcoded Secret"
    /\ f_severity finding = str "critical"
    /\ f_line finding = N.of_nat (i + 1).
Proof.
  intros Hcode Hline.
  set (lines := splitLines content) in *.
  destruct (content_around_line content apiKeyLine i Hline) as (head & rest & Hcontent & Hhead & _).
  fold lines in Hhead.
  assert (Hlen : length head = offsetOf (take i lines)) by (by rewrite Hhead).
  set (before := head ++ str "const ").
  set (matched := apiKeyAssignment ++ (str ";" ++ rest)).
  assert (Hsplit : content = before ++ matched).
  { rewrite Hcontent. unfold before, matched, apiKeyLine. by rewrite <- !app_assoc. }
  assert (Hpattern : In (List.hd (mkPattern [] [] [] Eps [] [] []) SecurityLib.SECURITY_PATTERNS)
                        SecurityLib.SECURITY_PATTERNS) by (left; reflexivity).
  destruct (scanPattern_total filePath content lines _ Hpattern) as (ms & Hms & Hscan).
  cbn [List.hd SecurityLib.SECURITY_PATTERNS p_pattern] in Hms.
  (* the loop reaches the line *)
  assert (Hfound : exists j e, In (j, e) ms
                               /\ (length head <= j <= length head + 6)%nat).
  { unfold allMatches in Hms. rewrite Hsplit in Hms.
    destruct (execLoop_reaches SecurityLib.apiKeyRe before matched (str ";" ++ rest)
                (fun prev => apiKey_matches_assignment prev _) (length head))
      with (fuel := S (S (length (before ++ matched)))) (lastIndex := 0%nat) (ms := ms)
      as (j & e & Hin & Hj); try done.
    - unfold before. rewrite length_app. lia.
    - intros j e Hj He Hw. apply apiKey_match_shape in Hw.
      destruct (lines_end_with_line_feed (take i lines)) as [head' Hhead'].
      { intros Hnil. rewrite Hhead, Hnil in Hj. simpl in Hj. lia. }
      rewrite <- Hsplit, Hcontent, Hhead, Hhead' in Hw.
      assert (Hl : length head = (length head' + 1)%nat)
        by (rewrite Hhead, Hhead', length_app; simpl; lia).
      replace ((head' ++ [NL]) ++ apiKeyLine ++ rest)
        with (head' ++ NL :: 99 :: (List.tl apiKeyLine ++ rest)) in Hw
        by (rewrite <- app_assoc; reflexivity).
      rewrite slice_holds_pair in Hw; [discriminate| |]; unfold jsstring, char in *; lia.
    - lia.
    - exists j, e. split; [done|]. unfold before in Hj. rewrite length_app in Hj.
      simpl in Hj. lia. }
  destruct Hfound as (j & e & Hin & Hj).
  (* the findings of the first rule come first *)
  assert (Hrun : exists others,
             SecurityLib.scanFile filePath content
             = Some (List.map (SecurityLib.findingOf filePath content lines
                                 (List.hd (mkPattern [] [] [] Eps [] [] [])
                                          SecurityLib.SECURITY_PATTERNS)) ms
                     ++ others)).
  { rewrite scanFile_code_file; [|by intros ->; destruct i|done]. fold lines.
    destruct (concatOpt_total
                (SecurityLib.scanPattern filePath content lines)
                (List.tl SecurityLib.SECURITY_PATTERNS)) as [others Hothers].
    - apply List.Forall_forall. intros pattern Hp.
      destruct (scanPattern_total filePath content lines pattern) as (ms' & _ & ->);
        [right; exact Hp|eauto].
    - exists others.
      change SecurityLib.SECURITY_PATTERNS
        with (List.hd (mkPattern [] [] [] Eps [] [] []) SecurityLib.SECURITY_PATTERNS
              :: List.tl SecurityLib.SECURITY_PATTERNS) at 1.
      cbn [concatOpt]. by rewrite Hscan, Hothers. }
  destruct Hrun as [others Hrun].
  eexists _, (SecurityLib.findingOf filePath content lines _ (j, e)).
  split; [exact Hrun|]. split.
  { apply in_or_app. left. apply in_map. exact Hin. }
  split; [reflexivity|]. split; [reflexivity|]. split; [reflexivity|].
  cbn [SecurityLib.findingOf f_line fst]. f_equal.
  apply (lineNumberOf_line lines apiKeyLine i j Hline).
  rewrite <- Hlen. unfold apiKeyLine. rewrite !length_app. simpl. lia.
Qed.

Lemma scanFile_finds_hardcoded_api_key_witness :
  SecurityLib.isCodeFile (H := asciiRuntime) (str "src/config.JS") = true
  /\ splitLines sampleSource !! 1%nat = Some apiKeyLine
  /\ exists findings finding,
       SecurityLib.scanFile (H := asciiRuntime) (str "src/config.JS") sampleSource
       = Some findings
       /\ In finding findings
       /\ f_file finding = str "src/config.JS"
       /\ f_type finding = str "Hardcoded Secret"
       /\ f_severity finding = str "critical"
       /\ f_line finding = N.of_nat (1 + 1).
Proof.
  split; [reflexivity|]. split; [reflexivity|].
  apply (scanFile_finds_hardcoded_api_key (H := asciiRuntime)); reflexivity.
Defined.

(* ===================================================================== *)
(** ** The token helpers: estimates, truncation, budgets *)
(* ===================================================================== *)

(** X1. The estimate of a text is the least number of tokens of four
    characters that hold it: it is 0 exactly for the empty text, the
    estimate of a concatenation is at most the sum of the estimates, and a
    prefix never costs more than the whole. *)
Theorem estimateTokens_is_ceiling (text more : jsstring) :
  (4 * (TokensLib.estimateTokens text - 1) < Z.of_nat (length text)
   <= 4 * TokensLib.estimateTokens text)%Z
  /\ (TokensLib.estimateTokens text = 0%Z <-> text = [])
  /\ (TokensLib.estimateTokens text <= TokensLib.estimateTokens (text ++ more)
      <= TokensLib.estimateTokens text + TokensLib.estimateTokens more)%Z.
Proof.
  split; [apply estimateTokens_ceil|]. split.
  - pose proof (estimateTokens_ceil text) as Hb. split.
    + intros E. rewrite E in Hb. destruct text; [reflexivity|simpl in Hb; lia].
    + intros ->. reflexivity.
  - split; [apply estimateTokens_prefix|apply estimateTokens_app].
Qed.

Section Truncation.
Import TokensLib.

Lemma truncationMarker_length : length truncationMarker = 43%nat.
Proof. reflexivity. Qed.

(** The text handed back is never longer than the budget in characters
    and the marker. *)
Lemma truncateToTokenLimit_length (text : jsstring) (maxTokens : Z) :
  (0 <= maxTokens)%Z ->
  (Z.of_nat (length (t_text (truncateToTokenLimit text maxTokens))) <= 4 * maxTokens + 43)%Z.
Proof.
  intros Hmax. unfold truncateToTokenLimit, CHARS_PER_TOKEN.
  destruct (Z.leb_spec (estimateTokens text) maxTokens) as [Hfit|Hover]; cbn [t_text].
  - pose proof (estimateTokens_ceil text). lia.
  - rewrite length_app, truncationMarker_length.
    pose proof (sliceTo_length text (maxTokens * 4) ltac:(lia)) as Hcut.
    destruct (_ <? _)%Z; [|lia].
    pose proof (sliceTo_shorter (sliceTo text (maxTokens * 4))
                  (lastIndexOf NL (sliceTo text (maxTokens * 4)))).
    lia.
Qed.

End Truncation.

(** X2. When a text does not fit a budget of [maxTokens] tokens (not
    negative), [truncateToTokenLimit] keeps a prefix of the text and appends
    the marker: the prefix holds at most [4 * maxTokens] characters and at
    least four fifths of that, it costs at most [maxTokens] tokens, which is
    the [truncatedTokens] reported, and when it is shorter than the budget
    the cut falls right before a line feed. *)
Theorem truncation_keeps_budgeted_prefix (text : jsstring) (maxTokens : Z) :
  (0 <= maxTokens)%Z ->
  (maxTokens < TokensLib.estimateTokens text)%Z ->
  let t := TokensLib.truncateToTokenLimit text maxTokens in
  exists k : nat,
    TokensLib.t_text t = take k text ++ TokensLib.truncationMarker
    /\ (k < length text)%nat
    /\ (4 * (4 * maxTokens) <= 5 * Z.of_nat k)%Z
    /\ (Z.of_nat k <= 4 * maxTokens)%Z
    /\ (Z.of_nat k = 4 * maxTokens \/ text !! k = Some NL)%Z
    /\ TokensLib.t_truncated t = true
    /\ TokensLib.t_originalTokens t = TokensLib.estimateTokens text
    /\ TokensLib.t_truncatedTokens t = Some (TokensLib.estimateTokens (take k text))
    /\ (TokensLib.estimateTokens (take k text) <= maxTokens)%Z.
Proof.
  intros Hmax Hover. unfold TokensLib.truncateToTokenLimit, TokensLib.CHARS_PER_TOKEN.
  destruct (Z.leb_spec (TokensLib.estimateTokens text) maxTokens) as [Hfit|_]; [lia|].
  pose proof (estimateTokens_ceil text) as Hlen.
  assert (Hcut : sliceTo text (maxTokens * 4) = take (Z.to_nat (maxTokens * 4)) text).
  { unfold sliceTo. destruct (Z.ltb_spec (maxTokens * 4) 0); [lia|reflexivity]. }
  rewrite Hcut. set (truncated := take (Z.to_nat (maxTokens * 4)) text).
  assert (Htrunc : length truncated = Z.to_nat (maxTokens * 4)).
  { unfold truncated. rewrite length_take. lia. }
  assert (Hcost : forall k : nat,
             (Z.of_nat k <= 4 * maxTokens)%Z ->
             (TokensLib.estimateTokens (take k text) <= maxTokens)%Z).
  { intros k Hk. apply estimateTokens_least. rewrite length_take. lia. }
  destruct (Z.ltb_spec (4 * (maxTokens * 4)) (5 * lastIndexOf NL truncated))
    as [Hclean|Hplain]; cbn [TokensLib.t_text TokensLib.t_truncated
                              TokensLib.t_originalTokens TokensLib.t_truncatedTokens].
  - destruct (lastIndexOf_spec NL truncated) as [E|[Hrange Hat]]; [lia|].
    exists (Z.to_nat (lastIndexOf NL truncated)).
    assert (Hslice : sliceTo truncated (lastIndexOf NL truncated)
                     = take (Z.to_nat (lastIndexOf NL truncated)) text).
    { unfold sliceTo. destruct (Z.ltb_spec (lastIndexOf NL truncated) 0); [lia|].
      change (take (Z.to_nat (lastIndexOf NL truncated))
                   (take (Z.to_nat (maxTokens * 4)) text)
              = take (Z.to_nat (lastIndexOf NL truncated)) text).
      rewrite take_take. f_equal. lia. }
    rewrite Hslice. repeat split; try reflexivity; try lia.
    + right. etrans; [|exact Hat]. symmetry.
      apply (lookup_take_lt text (Z.to_nat (maxTokens * 4))). lia.
    + apply Hcost. lia.
  - exists (Z.to_nat (maxTokens * 4)). fold truncated.
    repeat split; try reflexivity; try lia.
    apply Hcost. lia.
Qed.

Lemma truncation_keeps_budgeted_prefix_witness :
  (0 <= 2)%Z
  /\ (2 < TokensLib.estimateTokens (str "line one" ++ [NL] ++ str "line two"))%Z
  /\ exists k : nat,
       TokensLib.t_text
         (TokensLib.truncateToTokenLimit (str "line one" ++ [NL] ++ str "line two") 2)
       = take k (str "line one" ++ [NL] ++ str "line two") ++ TokensLib.truncationMarker
       /\ (Z.of_nat k <= 4 * 2)%Z.
Proof.
  split; [lia|]. split; [vm_compute; reflexivity|].
  destruct (truncation_keeps_budgeted_prefix
              (str "line one" ++ [NL] ++ str "line two") 2)
    as (k & Htext & _ & _ & Hk & _); [lia|vm_compute; reflexivity|].
  exists k. split; [exact Htext|exact Hk].
Defined.

Section Budget.
Import TokensLib.
Implicit Types (files pre post : list (FileRecord jsstring)) (st : Assembly).

Lemma fileHeaderOf_length (p : jsstring) : length (fileHeaderOf p) = (16 + length p)%nat.
Proof.
  unfold fileHeaderOf. cbn [length]. rewrite !length_app. cbn [length str].
  change (length (str "--- FILE: ")) with 10%nat.
  change (length (str " ---")) with 4%nat. lia.
Qed.

(** The estimate of the context never exceeds the total that is counted. *)
Lemma includeWhole_estimate st file :
  (estimateTokens (context st) <= totalTokens st)%Z ->
  (estimateTokens (context (includeWhole st file)) <= totalTokens (includeWhole st file))%Z.
Proof.
  intros Hst. unfold includeWhole. destruct (noContent (fr_content file)); [exact Hst|].
  cbn [context totalTokens].
  pose proof (estimateTokens_app (context st) (blockOf file)). lia.
Qed.

Lemma includeAll_estimate files : forall st,
  (estimateTokens (context st) <= totalTokens st)%Z ->
  (estimateTokens (context (includeAll files st)) <= totalTokens (includeAll files st))%Z.
Proof.
  induction files as [|file files IH]; intros st Hst; [exact Hst|].
  rewrite includeAll_cons. apply IH, includeWhole_estimate, Hst.
Qed.

Lemma includeAll_grows files : forall st,
  (totalTokens st <= totalTokens (includeAll files st))%Z.
Proof.
  induction files as [|file files IH]; intros st; [reflexivity|].
  rewrite includeAll_cons. etrans; [|apply IH].
  unfold includeWhole. destruct (noContent (fr_content file)); [reflexivity|].
  cbn [totalTokens]. pose proof (estimateTokens_nonneg (blockOf file)). lia.
Qed.

Lemma includeAll_total (maxTokens : Z) files : forall st,
  (totalTokens st <= maxTokens)%Z ->
  allFit files maxTokens (totalTokens st) = true ->
  (totalTokens (includeAll files st) <= maxTokens)%Z.
Proof.
  induction files as [|file files IH]; intros st Hst Hfit; [exact Hst|].
  rewrite includeAll_cons. cbn [allFit] in Hfit. unfold includeWhole.
  destruct (noContent (fr_content file)); [by apply IH|].
  apply andb_true_iff in Hfit as [Hle Hfit]. apply Z.leb_le in Hle.
  apply IH; cbn [totalTokens]; assumption.
Qed.

End Budget.

(** X3. With a budget that is not negative and paths of at most 340
    characters, the context [buildContextWithLimit] assembles stays within
    the budget: the total it reports is between 0 and [maxTokens], and the
    estimate of the assembled text, the truncated last file and its marker
    included, is at most [maxTokens]. *)
Theorem assembled_context_within_budget
    (files : list (FileRecord jsstring)) (maxTokens : Z) :
  (0 <= maxTokens)%Z ->
  Forall (fun file => (length (fr_path file) <= 340)%nat) files ->
  let r := TokensLib.buildContextWithLimit files maxTokens in
  (0 <= TokensLib.totalTokens r <= maxTokens)%Z
  /\ (TokensLib.estimateTokens (TokensLib.context r) <= maxTokens)%Z.
Proof.
  intros Hmax Hpaths. cbn zeta. unfold TokensLib.buildContextWithLimit.
  set (start := TokensLib.mkAssembly [] 0 [] []).
  assert (Hstart : (TokensLib.estimateTokens (TokensLib.context start)
                    <= TokensLib.totalTokens start)%Z) by reflexivity.
  destruct (assemble_cases maxTokens files start)
    as [[Hfit ->]|(pre & file & post & -> & Hfile & Hfit & Hover & ->)].
  - pose proof (includeAll_estimate files start Hstart).
    pose proof (includeAll_total maxTokens files start Hmax Hfit).
    pose proof (includeAll_grows files start). cbn [TokensLib.totalTokens start] in *.
    lia.
  - pose proof (includeAll_estimate pre start Hstart) as Hest.
    pose proof (includeAll_total maxTokens pre start Hmax Hfit) as Htotal.
    pose proof (includeAll_grows pre start) as Hgrow.
    cbn [TokensLib.totalTokens start] in Hgrow.
    set (st := TokensLib.includeAll pre start) in *.
    unfold TokensLib.overflowResult.
    destruct (Z.ltb_spec 500 (maxTokens - TokensLib.totalTokens st - 100)) as [Hroom|_];
      cbn [TokensLib.totalTokens TokensLib.context]; [|lia].
    split; [lia|].
    set (remaining := (maxTokens - TokensLib.totalTokens st - 100)%Z) in *.
    set (text := TokensLib.t_text _).
    assert (Htext : (Z.of_nat (length text) <= 4 * remaining + 43)%Z)
      by (apply truncateToTokenLimit_length; lia).
    assert (Hpath : (length (fr_path file) <= 340)%nat).
    { apply Forall_app in Hpaths as [_ Hpaths]. by inversion Hpaths. }
    etrans; [apply estimateTokens_app|].
    assert (TokensLib.estimateTokens
              (TokensLib.fileHeaderOf (fr_path file) ++ text ++ [NL])
            <= remaining + 100)%Z; [|lia].
    apply estimateTokens_least.
    rewrite !length_app, fileHeaderOf_length. cbn [length]. lia.
Qed.

Lemma assembled_context_within_budget_witness :
  (0 <= 2700)%Z
  /\ Forall (fun file => (length (fr_path file) <= 340)%nat) sampleLargeRecords
  /\ (TokensLib.estimateTokens
        (TokensLib.context (TokensLib.buildContextWithLimit sampleLargeRecords 2700))
      <= 2700)%Z.
Proof.
  assert (Hpaths : Forall (fun file : FileRecord jsstring =>
                             (length (fr_path file) <= 340)%nat) sampleLargeRecords).
  { unfold sampleLargeRecords. cbn [List.map].
    repeat (constructor; [simpl; lia|]). constructor. }
  split; [lia|]. split; [exact Hpaths|].
  apply (assembled_context_within_budget sampleLargeRecords 2700); [lia|exact Hpaths].
Defined.

Section ChatBudget.
Import ChatRoute.

Lemma headerOf_length (file : FileRecord json) :
  length (headerOf file) = (16 + length (jsToString (fr_path file)))%nat.
Proof.
  unfold headerOf. cbn [length]. rewrite !length_app. cbn [length].
  change (length (str "--- FILE: ")) with 10%nat.
  change (length (str " ---")) with 4%nat. lia.
Qed.

Lemma allFit_chars (files : list (FileRecord json)) : forall totalChars,
  (totalChars <= MAX_CHARS)%Z ->
  allFit files totalChars = true ->
  (totalChars + charsOf files <= MAX_CHARS)%Z.
Proof.
  unfold charsOf.
  induction files as [|file files IH]; intros totalChars Hle Hfit; [simpl; lia|].
  rewrite wholeBlocks_cons. cbn [allFit] in Hfit.
  destruct (noContent (fr_content file)); [by apply IH|].
  apply andb_true_iff in Hfit as [Hblock Hfit]. apply Z.leb_le in Hblock.
  specialize (IH _ Hblock Hfit). rewrite length_app. lia.
Qed.

End ChatBudget.

(** X4. The context of the chat route never exceeds its limit of 320000
    characters when every path is written with at most 71 characters: the
    blocks taken whole fit by the test of the loop, and the cut block (its
    header, the slice of the body and the marker) fits in the room that is
    left. *)
Theorem chat_context_within_limit (records : list (FileRecord json)) :
  Forall (fun file => (length (jsToString (fr_path file)) <= 71)%nat) records ->
  (Z.of_nat (length (ChatRoute.buildContext records)) <= ChatRoute.MAX_CHARS)%Z.
Proof.
  intros Hpaths. unfold ChatRoute.buildContext.
  destruct (contextLoop_cases records [] 0)
    as [[Hfit ->]|(pre & file & post & -> & Hfile & Hfit & Hover & ->)].
  - pose proof (allFit_chars records 0 ltac:(done) Hfit) as Hle.
    unfold ChatRoute.charsOf in Hle. cbn [app]. lia.
  - pose proof (allFit_chars pre 0 ltac:(done) Hfit) as Hle.
    cbn [app]. rewrite length_app. fold (ChatRoute.charsOf pre).
    rewrite Z.add_0_l in *. unfold ChatRoute.overflowText.
    destruct (Z.ltb_spec 500 (ChatRoute.MAX_CHARS - ChatRoute.charsOf pre - 100))
      as [Hroom|_]; [|unfold ChatRoute.charsOf in *; simpl; lia].
    assert (Hpath : (length (jsToString (fr_path file)) <= 71)%nat).
    { apply Forall_app in Hpaths as [_ Hpaths]. by inversion Hpaths. }
    pose proof (sliceTo_length (default [] (fr_content file))
                  (ChatRoute.MAX_CHARS - ChatRoute.charsOf pre - 100) ltac:(lia)).
    rewrite !length_app, headerOf_length. cbn [length]. rewrite !length_app.
    change (length (str "[truncated]")) with 11%nat. cbn [length].
    unfold ChatRoute.charsOf in *. lia.
Qed.

Lemma chat_context_within_limit_witness :
  Forall (fun file => (length (jsToString (fr_path file)) <= 71)%nat)
         [mkFileRecord (JStr (str "a.js")) (Some (str "x")) None None None]
  /\ (Z.of_nat (length (ChatRoute.buildContext
                          [mkFileRecord (JStr (str "a.js")) (Some (str "x"))
                                        None None None]))
      <= ChatRoute.MAX_CHARS)%Z.
Proof.
  assert (Hpaths : Forall (fun file : FileRecord json =>
                             (length (jsToString (fr_path file)) <= 71)%nat)
                          [mkFileRecord (JStr (str "a.js")) (Some (str "x"))
                                        None None None]).
  { constructor; [simpl; lia|constructor]. }
  split; [exact Hpaths|].
  apply (chat_context_within_limit _ Hpaths).
Defined.

Section History.
Import TokensLib.

Lemma countMessageTokens_bounds (message : MessageArg) (t : Z) :
  countMessageTokens message = Some t ->
  (Z.of_nat (length (messageText message)) <= 4 * t
   <= Z.of_nat (length (messageText message)) + 19)%Z.
Proof.
  destruct message as [|[|c s]|[[|c s]|]]; cbn [countMessageTokens messageText];
    intros [= <-];
    try (simpl; lia).
  all: pose proof (estimateTokens_ceil (c :: s)) as Hb;
    unfold estimateTokens in Hb; cbn [length] in *; lia.
Qed.

Lemma history_nan_stays (msgs : list MessageArg) :
  fold_left (fun total msg => addNum total (countMessageTokens msg)) msgs None = None.
Proof. induction msgs as [|m msgs IH]; [reflexivity|exact IH]. Qed.

Lemma history_nan (msgs : list MessageArg) : forall acc,
  Exists (fun m => countMessageTokens m = None) msgs ->
  fold_left (fun total msg => addNum total (countMessageTokens msg)) msgs acc = None.
Proof.
  induction msgs as [|m msgs IH]; intros acc Hex; inversion Hex as [? ? Hm|? ? Hrest]; subst.
  - cbn [fold_left]. rewrite Hm. destruct acc; apply history_nan_stays.
  - cbn [fold_left]. by apply IH.
Qed.

Lemma history_counts (msgs : list MessageArg) : forall acc,
  Forall (fun m => countMessageTokens m <> None) msgs ->
  exists ht,
    fold_left (fun total msg => addNum total (countMessageTokens msg)) msgs (Some acc)
    = Some (acc + ht)%Z
    /\ (Z.of_nat (length (flat_map messageText msgs)) <= 4 * ht
        <= Z.of_nat (length (flat_map messageText msgs)) + 19 * Z.of_nat (length msgs))%Z.
Proof.
  induction msgs as [|m msgs IH]; intros acc Hall.
  - exists 0%Z. cbn. split; [f_equal; lia|lia].
  - inversion Hall as [|? ? Hm Hrest]; subst.
    destruct (countMessageTokens m) as [t|] eqn:Ht; [|done].
    destruct (IH (acc + t)%Z Hrest) as (ht & Hrun & Hb).
    pose proof (countMessageTokens_bounds m t Ht).
    exists (t + ht)%Z. cbn [fold_left flat_map]. rewrite Ht. cbn [addNum].
    rewrite Hrun, length_app. cbn [length]. split; [f_equal; lia|lia].
Qed.

End History.

(** X5. [checkContextFits] on a context and a history. When every message
    counts as a number, the total lies between a quarter of the characters
    of the context and of the messages and that quarter plus 19 characters
    of overhead for each message; [fits] is the test that the total is
    below 80000 and [remaining] is what is left of 80000, so a context
    that fits holds less than 320000 characters. When one message is an
    object without content, its count is not a number: the total is
    not a number and [fits] is false, whatever the sizes. *)
Theorem context_check_counts_characters
    (roundPercent : Z -> Z -> Z) (context : jsstring)
    (msgs : list TokensLib.MessageArg) :
  let c := TokensLib.checkContextFits roundPercent context (Some msgs) in
  let chars := Z.of_nat (length context
                         + length (flat_map TokensLib.messageText msgs)) in
  (Forall (fun m => TokensLib.countMessageTokens m <> None) msgs ->
   exists total,
     TokensLib.allTokens c = Some total
     /\ (chars <= 4 * total <= chars + 3 + 19 * Z.of_nat (length msgs))%Z
     /\ TokensLib.fits c = (total <? 80000)%Z
     /\ TokensLib.remaining c = Some (80000 - total)%Z
     /\ (TokensLib.fits c = true -> chars < 320000)%Z)
  /\ (Exists (fun m => TokensLib.countMessageTokens m = None) msgs ->
      TokensLib.allTokens c = None
      /\ TokensLib.fits c = false
      /\ TokensLib.remaining c = None).
Proof.
  cbn zeta. unfold TokensLib.checkContextFits, TokensLib.countHistoryTokens.
  cbn [TokensLib.allTokens TokensLib.fits TokensLib.remaining].
  split.
  - intros Hall. destruct (history_counts msgs 0 Hall) as (ht & -> & Hb).
    pose proof (estimateTokens_ceil context) as Hc.
    cbn [TokensLib.addNum option_map]. rewrite Z.add_0_l.
    exists (TokensLib.estimateTokens context + ht)%Z.
    unfold TokensLib.SAFE_CONTEXT_TOKENS.
    repeat split; lia.
  - intros Hex. rewrite (history_nan msgs (Some 0%Z) Hex). auto.
Qed.

(* ===================================================================== *)
(** ** Findings: keys, groups, order, and what a finding stands for *)
(* ===================================================================== *)

Section DedupKeys.

Lemma dedupLoop_keys (l : list Finding) : forall seen : gset jsstring,
  NoDup (findingKey <$> dedupLoop seen l)
  /\ (forall k, k ∈ findingKey <$> dedupLoop seen l -> k ∉ seen)
  /\ sublist (dedupLoop seen l) l
  /\ (forall f, f ∈ l ->
        findingKey f ∈ seen \/ findingKey f ∈ findingKey <$> dedupLoop seen l).
Proof.
  induction l as [|f l IH]; intros seen.
  - cbn. repeat split; [constructor|intros k Hk; inversion Hk|constructor|].
    intros f Hf. inversion Hf.
  - cbn [dedupLoop]. destruct (bool_decide_reflect (findingKey f ∈ seen)) as [Hin|Hout].
    + destruct (IH seen) as (Hnd & Hnew & Hsub & Hall). repeat split; auto.
      * by apply sublist_cons.
      * intros g [->|Hg]%elem_of_cons; auto.
    + destruct (IH ({[findingKey f]} ∪ seen)) as (Hnd & Hnew & Hsub & Hall).
      rewrite fmap_cons. repeat split.
      * apply NoDup_cons. split; [|exact Hnd].
        intros Hk. apply Hnew in Hk. set_solver.
      * intros k [->|Hk]%elem_of_cons; [exact Hout|].
        apply Hnew in Hk. set_solver.
      * by apply sublist_skip.
      * intros g [->|Hg]%elem_of_cons; [right; left|].
        destruct (Hall g Hg) as [Hs|Hk]; [|right; by right].
        apply elem_of_union in Hs as [->%elem_of_singleton|Hs]; [right; left|by left].
Qed.

End DedupKeys.

(** X6. The deduplication of the scanners returns a sublist of the
    findings in which no two findings share the key made of file, line and
    title, and in which every key of the input is still present. *)
Theorem dedup_result_has_distinct_keys (findings : list Finding) :
  let result := ScanRoute.deduplicateFindings findings in
  NoDup (findingKey <$> result)
  /\ sublist result findings
  /\ (forall f, f ∈ findings -> findingKey f ∈ findingKey <$> result).
Proof.
  cbn zeta. unfold ScanRoute.deduplicateFindings.
  destruct (dedupLoop_keys findings ∅) as (Hnd & _ & Hsub & Hall).
  repeat split; auto. intros f Hf. destruct (Hall f Hf) as [Hs|Hk]; [set_solver|done].
Qed.

Section Groups.

Lemma sublist_List_filter {A} (p : A -> bool) (l : list A) : sublist (List.filter p l) l.
Proof.
  induction l as [|x l IH]; simpl; [constructor|].
  destruct (p x); by constructor.
Qed.

Lemma severity_cases (f : Finding) :
  (f_severity f = str "critical" \/ f_severity f = str "high"
   \/ f_severity f = str "medium" \/ f_severity f = str "low")
  \/ (SecurityReport.knownSeverity f = false
      /\ streq (f_severity f) (str "critical") = false
      /\ streq (f_severity f) (str "high") = false
      /\ streq (f_severity f) (str "medium") = false
      /\ streq (f_severity f) (str "low") = false).
Proof.
  unfold SecurityReport.knownSeverity, SecurityLib.severityOrder.
  destruct (streq (f_severity f) (str "critical")) eqn:E1;
    [left; left; by apply streq_true|].
  destruct (streq (f_severity f) (str "high")) eqn:E2;
    [left; right; left; by apply streq_true|].
  destruct (streq (f_severity f) (str "medium")) eqn:E3;
    [left; right; right; left; by apply streq_true|].
  destruct (streq (f_severity f) (str "low")) eqn:E4;
    [left; right; right; right; by apply streq_true|].
  right. auto.
Qed.

Lemma groups_cons (f : Finding) (fs : list Finding) :
  let g := SecurityReport.groupBySeverity fs in
  let g' := SecurityReport.groupBySeverity (f :: fs) in
  (f_severity f = str "critical" ->
   g' = mkGrouped (f :: g_critical g) (g_high g) (g_medium g) (g_low g))
  /\ (f_severity f = str "high" ->
      g' = mkGrouped (g_critical g) (f :: g_high g) (g_medium g) (g_low g))
  /\ (f_severity f = str "medium" ->
      g' = mkGrouped (g_critical g) (g_high g) (f :: g_medium g) (g_low g))
  /\ (f_severity f = str "low" ->
      g' = mkGrouped (g_critical g) (g_high g) (g_medium g) (f :: g_low g))
  /\ (SecurityReport.knownSeverity f = false -> g' = g).
Proof.
  cbn zeta. unfold SecurityReport.groupBySeverity. cbn [List.filter].
  repeat split; try (intros ->; reflexivity).
  intros Hunknown. destruct (severity_cases f) as [Hk|(_ & -> & -> & -> & ->)]; [|done].
  unfold SecurityReport.knownSeverity, SecurityLib.severityOrder in Hunknown.
  destruct Hk as [E|[E|[E|E]]]; rewrite E in Hunknown; discriminate.
Qed.

Lemma group_severity (s : jsstring) (fs : list Finding) :
  Forall (fun f => f_severity f = s)
         (List.filter (fun f => streq (f_severity f) s) fs).
Proof.
  apply List.Forall_forall. intros f [_ Hf%streq_true]%filter_In. exact Hf.
Qed.

End Groups.

(** X7. [groupBySeverity] (the same code in the scan route and in the
    library) splits the findings whose severity is critical, high, medium
    or low: the four groups together are a rearrangement of these findings,
    each group is a sublist of the input that holds one severity only, and
    a finding of another severity is in no group. *)
Theorem groups_partition_known_findings (findings : list Finding) :
  let g := ScanRoute.groupBySeverity findings in
  SecurityReport.groupBySeverity findings = g
  /\ Permutation (SecurityReport.inOrder g)
                 (List.filter SecurityReport.knownSeverity findings)
  /\ (sublist (g_critical g) findings /\ sublist (g_high g) findings
      /\ sublist (g_medium g) findings /\ sublist (g_low g) findings)
  /\ Forall (fun f => f_severity f = str "critical") (g_critical g)
  /\ Forall (fun f => f_severity f = str "high") (g_high g)
  /\ Forall (fun f => f_severity f = str "medium") (g_medium g)
  /\ Forall (fun f => f_severity f = str "low") (g_low g).
Proof.
  cbn zeta. split; [reflexivity|].
  change (ScanRoute.groupBySeverity findings)
    with (SecurityReport.groupBySeverity findings).
  split; [|split; [|repeat split; apply group_severity]].
  - induction findings as [|f fs IH]; [reflexivity|].
    destruct (groups_cons f fs) as (Hc & Hh & Hm & Hl & Hu).
    cbn [List.filter].
    destruct (severity_cases f) as [Hk|(Hunknown & _)].
    + assert (Hknown : SecurityReport.knownSeverity f = true).
      { unfold SecurityReport.knownSeverity, SecurityLib.severityOrder.
        destruct Hk as [E|[E|[E|E]]]; rewrite E; reflexivity. }
      rewrite Hknown. unfold SecurityReport.inOrder in *.
      destruct Hk as [E|[E|[E|E]]].
      * rewrite (Hc E). cbn [g_critical g_high g_medium g_low app].
        by apply perm_skip.
      * rewrite (Hh E). cbn [g_critical g_high g_medium g_low].
        symmetry. apply Permutation_cons_app. by symmetry.
      * rewrite (Hm E). cbn [g_critical g_high g_medium g_low].
        rewrite (app_assoc (g_critical _) (g_high _)). symmetry.
        apply Permutation_cons_app. rewrite <- app_assoc. by symmetry.
      * rewrite (Hl E). cbn [g_critical g_high g_medium g_low].
        rewrite (app_assoc (g_high _)), (app_assoc (g_critical _)). symmetry.
        apply Permutation_cons_app. rewrite <- !app_assoc. by symmetry.
    + rewrite Hunknown, (Hu Hunknown). exact IH.
  - unfold SecurityReport.groupBySeverity. cbn [g_critical g_high g_medium g_low].
    repeat split; apply sublist_List_filter.
Qed.

Section Sorting.

Lemma insertBy_front {A} (cmp : A -> A -> Z) (x : A) (l : list A) :
  Forall (fun y => (cmp x y <= 0)%Z) l -> insertBy cmp x l = x :: l.
Proof.
  destruct 1 as [|y l Hy _]; [reflexivity|].
  cbn [insertBy]. by destruct (Z.leb_spec (cmp x y) 0); [|lia].
Qed.

Lemma insertBy_skip {A} (cmp : A -> A -> Z) (x : A) (pre rest : list A) :
  Forall (fun y => (0 < cmp x y)%Z) pre ->
  insertBy cmp x (pre ++ rest) = pre ++ insertBy cmp x rest.
Proof.
  induction 1 as [|y pre Hy _ IH]; [reflexivity|].
  cbn [app insertBy]. destruct (Z.leb_spec (cmp x y) 0); [lia|]. by rewrite IH.
Qed.

Lemma bySeverity_of (x y : Finding) (a b : Z) :
  SecurityLib.severityOrder (f_severity x) = Some a ->
  SecurityLib.severityOrder (f_severity y) = Some b ->
  SecurityLib.bySeverity x y = (a - b)%Z.
Proof. unfold SecurityLib.bySeverity. by intros -> ->. Qed.

Lemma compare_group (x : Finding) (s : jsstring) (a b : Z) (fs : list Finding) (P : Z -> Prop) :
  SecurityLib.severityOrder (f_severity x) = Some a ->
  SecurityLib.severityOrder s = Some b ->
  P (a - b)%Z ->
  Forall (fun y => P (SecurityLib.bySeverity x y))
         (List.filter (fun f => streq (f_severity f) s) fs).
Proof.
  intros Hx Hs HP. eapply Forall_impl; [apply group_severity|].
  intros y Hy. cbn beta in Hy. rewrite (bySeverity_of x y a b); auto. by rewrite Hy.
Qed.

(** On findings of known severity the comparator of [scanFiles] is the
    difference of two ranks, a consistent comparison: the sort of
    [scanFiles] is the stable sort. *)
Lemma bySeverity_consistent (fs : list Finding) :
  forallb SecurityReport.knownSeverity fs = true ->
  consistentOn SecurityLib.bySeverity fs = true.
Proof.
  rewrite forallb_forall, consistentOn_spec. intros Hknown.
  assert (Hrank : forall a b, In a fs -> In b fs ->
             exists x y, SecurityLib.severityOrder (f_severity a) = Some x
                         /\ SecurityLib.severityOrder (f_severity b) = Some y
                         /\ SecurityLib.bySeverity a b = (x - y)%Z).
  { intros a b Ha Hb. pose proof (Hknown a Ha) as Hka. pose proof (Hknown b Hb) as Hkb.
    unfold SecurityReport.knownSeverity in Hka, Hkb. unfold SecurityLib.bySeverity.
    destruct (SecurityLib.severityOrder (f_severity a)) as [x|]; [|discriminate].
    destruct (SecurityLib.severityOrder (f_severity b)) as [y|]; [|discriminate].
    eauto. }
  intros a Ha. destruct (Hrank a a Ha Ha) as (x & x' & Hx & Hx' & Haa).
  split; [rewrite Haa; congruence || (assert (x = x') by congruence; lia)|].
  intros b Hb. destruct (Hrank a b Ha Hb) as (x1 & y & Hx1 & Hy & Hab).
  destruct (Hrank b a Hb Ha) as (y1 & x2 & Hy1 & Hx2 & Hba).
  assert (x1 = x /\ x2 = x /\ y1 = y) as (-> & -> & ->) by (repeat split; congruence).
  split; [lia|].
  intros c Hc. destruct (Hrank b c Hb Hc) as (y2 & z & Hy2 & Hz & Hbc).
  destruct (Hrank a c Ha Hc) as (x3 & z1 & Hx3 & Hz1 & Hac).
  assert (y2 = y /\ x3 = x /\ z1 = z) as (-> & -> & ->) by (repeat split; congruence).
  lia.
Qed.

(** Sorting by severity puts the groups one after the other and keeps the
    order inside each group. *)
Lemma sortBy_groups (fs : list Finding) :
  forallb SecurityReport.knownSeverity fs = true ->
  sortBy SecurityLib.bySeverity fs
  = SecurityReport.inOrder (SecurityReport.groupBySeverity fs).
Proof.
  induction fs as [|x fs IH]; [reflexivity|].
  cbn [forallb]. intros [Hx Hfs]%andb_true_iff.
  change (sortBy SecurityLib.bySeverity (x :: fs))
    with (insertBy SecurityLib.bySeverity x (sortBy SecurityLib.bySeverity fs)).
  rewrite (IH Hfs). clear IH.
  destruct (groups_cons x fs) as (Hc & Hh & Hm & Hl & _).
  unfold SecurityReport.inOrder.
  set (g := SecurityReport.groupBySeverity fs) in *.
  assert (Hgroups :
            g_critical g = List.filter (fun f => streq (f_severity f) (str "critical")) fs
            /\ g_high g = List.filter (fun f => streq (f_severity f) (str "high")) fs
            /\ g_medium g = List.filter (fun f => streq (f_severity f) (str "medium")) fs
            /\ g_low g = List.filter (fun f => streq (f_severity f) (str "low")) fs)
    by done.
  destruct Hgroups as (Ec & Eh & Em & El).
  destruct (severity_cases x) as [[E|[E|[E|E]]]|(Hu & _)]; [| | | |congruence].
  - rewrite (Hc E). cbn [g_critical g_high g_medium g_low app].
    apply insertBy_front. rewrite Ec, Eh, Em, El.
    repeat (apply Forall_app; split);
      eapply (compare_group x _ 0 _ _ (fun z => (z <= 0)%Z));
      rewrite ?E; try reflexivity; lia.
  - rewrite (Hh E). cbn [g_critical g_high g_medium g_low app].
    rewrite insertBy_skip, insertBy_front; [reflexivity| |].
    + rewrite Eh, Em, El.
      repeat (apply Forall_app; split);
        eapply (compare_group x _ 1 _ _ (fun z => (z <= 0)%Z));
        rewrite ?E; try reflexivity; lia.
    + rewrite Ec. eapply (compare_group x _ 1 _ _ (fun z => (0 < z)%Z));
        rewrite ?E; try reflexivity; lia.
  - rewrite (Hm E). cbn [g_critical g_high g_medium g_low app].
    rewrite (app_assoc (g_critical g)), insertBy_skip, insertBy_front, <- app_assoc;
      [reflexivity| |].
    + rewrite Em, El.
      repeat (apply Forall_app; split);
        eapply (compare_group x _ 2 _ _ (fun z => (z <= 0)%Z));
        rewrite ?E; try reflexivity; lia.
    + rewrite Ec, Eh.
      repeat (apply Forall_app; split);
        eapply (compare_group x _ 2 _ _ (fun z => (0 < z)%Z));
        rewrite ?E; try reflexivity; lia.
  - rewrite (Hl E). cbn [g_critical g_high g_medium g_low app].
    rewrite (app_assoc (g_high g)), (app_assoc (g_critical g)),
      insertBy_skip, insertBy_front, <- !app_assoc; [reflexivity| |].
    + rewrite El.
      eapply (compare_group x _ 3 _ _ (fun z => (z <= 0)%Z));
        rewrite ?E; try reflexivity; lia.
    + rewrite Ec, Eh, Em.
      repeat (apply Forall_app; split);
        eapply (compare_group x _ 3 _ _ (fun z => (0 < z)%Z));
        rewrite ?E; try reflexivity; lia.
Qed.

End Sorting.

Section LineNumbers.

Lemma splitLines_noLineFeed (s : jsstring) : forallb noLineFeed (splitLines s) = true.
Proof.
  induction s as [|c s IH]; [reflexivity|]. cbn [splitLines].
  destruct (N.eqb_spec c NL) as [->|Hc]; [exact IH|].
  destruct (splitLines s) as [|l ls]; cbn [forallb noLineFeed] in *.
  - apply N.eqb_neq in Hc. by rewrite Hc.
  - apply N.eqb_neq in Hc. by rewrite Hc.
Qed.

Lemma lineFeeds_app (a b : jsstring) : lineFeeds (a ++ b) = (lineFeeds a + lineFeeds b)%nat.
Proof. unfold lineFeeds. by rewrite List.filter_app, length_app. Qed.

Lemma lineFeeds_plain (l : jsstring) (p : nat) :
  noLineFeed l = true -> lineFeeds (take p l) = 0%nat.
Proof.
  unfold lineFeeds, noLineFeed. revert p.
  induction l as [|c l IH]; intros p Hl; [by destruct p|].
  cbn [forallb] in Hl. apply andb_true_iff in Hl as [Hc Hl].
  destruct p as [|p]; [reflexivity|]. cbn [take List.filter].
  rewrite N.eqb_sym. apply negb_true_iff in Hc. rewrite Hc. by apply IH.
Qed.

(** The loop counts the line feeds before the position. *)
Lemma lineNumberLoop_count (lines : list jsstring) : forall idx charCount p,
  lines <> [] ->
  forallb noLineFeed lines = true ->
  (p <= length (join [NL] lines))%nat ->
  lineNumberLoop lines idx charCount (charCount + p)
  = (idx + 1 + lineFeeds (take p (join [NL] lines)))%nat.
Proof.
  induction lines as [|l ls IH]; intros idx charCount p Hne Hplain Hp; [done|].
  cbn [forallb] in Hplain. apply andb_true_iff in Hplain as [Hl Hls].
  destruct ls as [|l2 ls].
  - cbn [join lineNumberLoop] in *.
    destruct (Nat.ltb_spec (charCount + p) (charCount + length l + 1)); [|lia].
    rewrite lineFeeds_plain by done. lia.
  - change (join [NL] (l :: l2 :: ls)) with (l ++ [NL] ++ join [NL] (l2 :: ls)) in *.
    change (lineNumberLoop (l :: l2 :: ls) idx charCount (charCount + p))
      with (if (charCount + p <? charCount + length l + 1)%nat then (idx + 1)%nat
            else lineNumberLoop (l2 :: ls) (S idx) (charCount + length l + 1)
                                (charCount + p)).
    destruct (Nat.ltb_spec (charCount + p) (charCount + length l + 1)) as [Hin|Hafter].
    + rewrite take_app_le by lia. rewrite lineFeeds_plain by done. lia.
    + rewrite take_app_ge by lia.
      rewrite !length_app in Hp. cbn [length] in Hp.
      replace (p - length l)%nat with (S (p - length l - 1)) by lia.
      cbn [app take]. rewrite lineFeeds_app.
      replace (lineFeeds l) with 0%nat
        by (symmetry; rewrite <- (take_ge l (length l)) at 1 by lia;
            by apply lineFeeds_plain).
      change (lineFeeds (NL :: ?x)) with (S (lineFeeds x)).
      replace (charCount + p)%nat
        with ((charCount + length l + 1) + (p - length l - 1))%nat by lia.
      rewrite IH; [lia|done|done|lia].
Qed.

(** The line number of a position is one more than the number of line
    feeds before it. *)
Lemma lineNumberOf_count (content : jsstring) (position : nat) :
  (position <= length content)%nat ->
  lineNumberOf (splitLines content) position
  = (1 + lineFeeds (take position content))%nat.
Proof.
  intros Hp. unfold lineNumberOf.
  pose proof (lineNumberLoop_count (splitLines content) 0 0 position
                (splitLines_nonempty content) (splitLines_noLineFeed content)) as Hloop.
  rewrite join_splitLines in Hloop. rewrite Nat.add_0_l in Hloop. by apply Hloop.
Qed.

End LineNumbers.

Section Matches.

Lemma execLoop_sound (r : regex) (content : jsstring) : forall fuel lastIndex ms,
  execLoop fuel r content lastIndex = Some ms ->
  Forall (fun m => (fst m <= snd m <= length content)%nat
                   /\ lang r (charBefore content (fst m))
                             (sliceArr content (fst m) (snd m))
                             (drop (snd m) content)) ms.
Proof.
  induction fuel as [|fuel IH]; intros lastIndex ms Hrun; [discriminate|].
  cbn [execLoop] in Hrun.
  destruct (exec r content lastIndex) as [[j e]|] eqn:Hexec;
    [|injection Hrun as <-; constructor].
  destruct (execLoop fuel r content e) as [ms'|] eqn:Hrest; [|discriminate].
  injection Hrun as <-. apply exec_sound in Hexec as (_ & Hje & He & Hlang).
  constructor; [cbn [fst snd]; auto|]. by eapply IH.
Qed.

(** A match of a pattern that cannot match the empty text is not empty. *)
Lemma match_not_empty (r : regex) (prev : option char) (content rest : jsstring)
    (j e : nat) :
  nullable r = false -> lang r prev (sliceArr content j e) rest -> (j < e)%nat.
Proof.
  intros Hr Hlang. apply (lang_not_nullable _ _ _ _ Hr) in Hlang.
  destruct (Nat.lt_ge_cases j e) as [|Hge]; [done|]. exfalso. apply Hlang.
  unfold sliceArr. apply drop_ge. rewrite length_take. lia.
Qed.

Lemma concatOpt_In {A B} (f : A -> option (list B)) (l : list A) : forall zs z,
  concatOpt f l = Some zs -> In z zs ->
  exists x ys, In x l /\ f x = Some ys /\ In z ys.
Proof.
  induction l as [|x l IH]; intros zs z Hrun Hz; cbn [concatOpt] in Hrun.
  - injection Hrun as <-. destruct Hz.
  - destruct (f x) as [ys|] eqn:Hx; [|discriminate].
    destruct (concatOpt f l) as [zs'|] eqn:Hl; [|discriminate].
    injection Hrun as <-. apply in_app_or in Hz as [Hz|Hz].
    + exists x, ys. split; [by left|done].
    + destruct (IH zs' z eq_refl Hz) as (x' & ys' & Hin & Hf & Hz').
      exists x', ys'. split; [by right|done].
Qed.

End Matches.

Section Origins.
Context `{Runtime}.

(** Where a finding of [scanFile] comes from. *)
Lemma scanFile_origin (filePath content : jsstring) (findings : list Finding) (f : Finding) :
  SecurityLib.scanFile filePath content = Some findings ->
  In f findings ->
  SecurityLib.isCodeFile filePath = true
  /\ exists pattern ms m,
       In pattern SecurityLib.SECURITY_PATTERNS
       /\ allMatches (p_pattern pattern) content = Some ms
       /\ In m ms
       /\ f = SecurityLib.findingOf filePath content (splitLines content) pattern m.
Proof.
  intros Hrun Hf.
  assert (Hcontent : content = [] \/ content <> [])
    by (destruct content; [by left|by right]).
  destruct Hcontent as [->|Hcontent]; [injection Hrun as <-; destruct Hf|].
  destruct (SecurityLib.isCodeFile filePath) eqn:Hcode.
  2:{ unfold SecurityLib.scanFile in Hrun. rewrite Hcode in Hrun.
      destruct content; injection Hrun as <-; destruct Hf. }
  split; [reflexivity|].
  rewrite scanFile_code_file in Hrun by done.
  destruct (concatOpt_In _ _ _ _ Hrun Hf) as (pattern & ys & Hp & Hscan & Hin).
  destruct (scanPattern_total filePath content (splitLines content)
              pattern Hp) as (ms & Hms & Hscan').
  rewrite Hscan' in Hscan. injection Hscan as <-.
  apply in_map_iff in Hin as (m & <- & Hm).
  exists pattern, ms, m. auto.
Qed.

Lemma security_patterns_known :
  forallb (fun p => match SecurityLib.severityOrder (p_severity p) with
                    | Some _ => true
                    | None => false
                    end) SecurityLib.SECURITY_PATTERNS = true.
Proof. vm_compute. reflexivity. Qed.

Lemma scanFile_known (filePath content : jsstring) (findings : list Finding) :
  SecurityLib.scanFile filePath content = Some findings ->
  Forall (fun f => SecurityReport.knownSeverity f = true) findings.
Proof.
  intros Hrun. apply List.Forall_forall. intros f Hf.
  destruct (scanFile_origin _ _ _ _ Hrun Hf) as (_ & pattern & ms & m & Hp & _ & _ & ->).
  pose proof security_patterns_known as Hall. rewrite forallb_forall in Hall.
  exact (Hall _ Hp).
Qed.

End Origins.

(** X8. Every finding [scanFile] reports stands for a match: the file has
    one of the listed extensions, one of the rules matches a text of the
    content that is not empty, at its place in the content (a word
    boundary of the rule is one between the characters around it there),
    the finding carries the type, severity and title of that rule, the
    first 100 characters of the match, and its line is one more than the
    number of line feeds before the match. The scan of a file always
    returns. *)
Theorem scanFile_findings_are_matches `{Runtime} (filePath content : jsstring) :
  exists findings,
    SecurityLib.scanFile filePath content = Some findings
    /\ Forall (fun f =>
         SecurityLib.isCodeFile filePath = true
         /\ exists pattern j e,
              In pattern SecurityLib.SECURITY_PATTERNS
              /\ (j < e <= length content)%nat
              /\ lang (p_pattern pattern) (charBefore content j)
                      (sliceArr content j e) (drop e content)
              /\ f_file f = filePath
              /\ f_line f = N.of_nat (1 + lineFeeds (take j content))
              /\ f_type f = p_type pattern
              /\ f_severity f = p_severity pattern
              /\ f_title f = p_title pattern
              /\ f_match f = Some (take 100 (sliceArr content j e))
              /\ f_confidence f = str "high") findings.
Proof.
  destruct (scanFile_total filePath content) as [findings Hrun].
  exists findings. split; [exact Hrun|].
  apply List.Forall_forall. intros f Hf.
  destruct (scanFile_origin _ _ _ _ Hrun Hf)
    as (Hcode & pattern & ms & [j e] & Hp & Hms & Hm & ->).
  split; [exact Hcode|].
  apply execLoop_sound in Hms. rewrite List.Forall_forall in Hms.
  destruct (Hms _ Hm) as [[Hje He] Hlang]. cbn [fst snd] in *.
  assert (Hnull : nullable (p_pattern pattern) = false).
  { pose proof security_patterns_not_nullable as Hall.
    rewrite forallb_forall in Hall. by apply negb_true_iff, Hall. }
  pose proof (match_not_empty _ _ _ _ _ _ Hnull Hlang) as Hlt.
  exists pattern, j, e. cbn [SecurityLib.findingOf f_file f_line f_type f_severity
                             f_title f_match f_confidence fst snd].
  repeat split; try done.
  f_equal. apply lineNumberOf_count. lia.
Qed.

(** The word boundary at work: in [medieval(x)] the text [eval(x)] has
    the shape of the rule for [eval], but it follows a letter, so it is no
    match of the rule at its place, and the scan finds nothing. *)
Example eval_rule_needs_word_boundary :
  let rule := seqs [WordB; lit "eval"; ws; lit "("; RepMin (isNot 41) 1; lit ")"] in
  let content := str "medieval(x)" in
  allMatches rule content = Some []
  /\ sliceArr content 4 11 = str "eval(x)"
  /\ ~ lang rule (charBefore content 4) (sliceArr content 4 11) (drop 11 content)
  /\ lang rule None (str "eval(x)") [].
Proof.
  cbv zeta. split; [vm_compute; reflexivity|]. split; [reflexivity|]. split.
  - cbn [seqs lang]. intros (u & v & Huv & [-> Hb] & _).
    cbn [app] in Huv. subst v. vm_compute in Hb. discriminate Hb.
  - cbn [seqs]. exists [], (str "eval(x)"). split; [reflexivity|]. split; [by split|].
    change (lit "eval") with (seqs [chr 101; chr 118; chr 97; chr 108]).
    change (lit "(") with (chr 40). change (lit ")") with (chr 41).
    cbn [seqs lang].
    exists (str "eval"), (str "(x)"). split; [reflexivity|]. split.
    { exists [101], [118; 97; 108]. split; [reflexivity|]. split; [by exists 101|].
      exists [118], [97; 108]. split; [reflexivity|]. split; [by exists 118|].
      exists [97], [108]. split; [reflexivity|]. split; [by exists 97|by exists 108]. }
    exists [], (str "(x)"). split; [reflexivity|]. split; [split; [simpl; lia|constructor]|].
    exists [40], (str "x)"). split; [reflexivity|]. split; [by exists 40|].
    exists [120], [41]. split; [reflexivity|]. split; [|by exists 41].
    split; [simpl; lia|]. by repeat constructor.
Qed.

(** X9. [scanFiles] always returns, and what it returns is the
    deduplicated findings of the files that have content, grouped by
    severity: the critical ones, then the high, the medium and the low
    ones, each group in the order of the scan. No finding is lost or
    added by the sort, and no two findings of the result share a key. *)
Theorem scanFiles_returns_groups_in_order `{Runtime} (files : list SecurityLib.File) :
  exists allFindings,
    concatOpt (fun file =>
                 if SecurityLib.noContent (SecurityLib.content file) then Some []
                 else SecurityLib.scanFile (SecurityLib.path file)
                                           (default [] (SecurityLib.content file)))
              files = Some allFindings
    /\ let unique := dedupLoop ∅ allFindings in
       let result := SecurityReport.inOrder (SecurityReport.groupBySeverity unique) in
       SecurityLib.scanFiles files = Some result
       /\ Permutation result unique
       /\ NoDup (findingKey <$> result).
Proof.
  destruct (concatOpt_total
              (fun file =>
                 if SecurityLib.noContent (SecurityLib.content file) then Some []
                 else SecurityLib.scanFile (SecurityLib.path file)
                                           (default [] (SecurityLib.content file)))
              files) as [allFindings Hall].
  { apply List.Forall_forall. intros file _.
    destruct (SecurityLib.noContent _); [eauto|apply scanFile_total]. }
  exists allFindings. split; [exact Hall|]. cbn zeta.
  assert (Hknown : forallb SecurityReport.knownSeverity (dedupLoop ∅ allFindings) = true).
  { apply forallb_forall. intros f Hf.
    destruct (dedupLoop_keys allFindings ∅) as (_ & _ & Hsub & _).
    assert (Hin : In f allFindings).
    { apply list_elem_of_In, (sublist_subseteq _ _ Hsub). by apply list_elem_of_In. }
    destruct (concatOpt_In _ _ _ _ Hall Hin) as (file & ys & _ & Hscan & Hy).
    destruct (SecurityLib.noContent _); [injection Hscan as <-; destruct Hy|].
    pose proof (scanFile_known _ _ _ Hscan) as Hk.
    rewrite List.Forall_forall in Hk. by apply Hk. }
  assert (Hperm : Permutation
                    (SecurityReport.inOrder
                       (SecurityReport.groupBySeverity (dedupLoop ∅ allFindings)))
                    (dedupLoop ∅ allFindings)).
  { rewrite <- (sortBy_groups _ Hknown). apply sortBy_perm. }
  split; [|split; [exact Hperm|]].
  - unfold SecurityLib.scanFiles. rewrite Hall.
    by rewrite (arraySort_stable _ _ (bySeverity_consistent _ Hknown)),
      (sortBy_groups _ Hknown).
  - rewrite Hperm. apply (dedupLoop_keys allFindings ∅).
Qed.

Section Snippets.

Lemma lineNumberLoop_range (lines : list jsstring) : forall idx charCount position,
  lineNumberLoop lines idx charCount position = 1%nat
  \/ (idx + 1 <= lineNumberLoop lines idx charCount position <= idx + length lines)%nat.
Proof.
  induction lines as [|l lines IH]; intros idx charCount position; [by left|].
  cbn [lineNumberLoop length].
  destruct (position <? charCount + length l + 1)%nat; [right; lia|].
  destruct (IH (S idx) (charCount + length l + 1)%nat position) as [->|Hr]; [by left|].
  right. lia.
Qed.

Lemma lineNumberOf_range (content : jsstring) (position : nat) :
  (1 <= lineNumberOf (splitLines content) position <= length (splitLines content))%nat.
Proof.
  unfold lineNumberOf.
  pose proof (splitLines_nonempty content) as Hne.
  destruct (lineNumberLoop_range (splitLines content) 0 0 position) as [->|Hr]; [|lia].
  destruct (splitLines content); [done|]. cbn [length]. lia.
Qed.

End Snippets.

(** X10. The snippet of a finding of [scanFile] is made of at most three
    consecutive lines of the content, joined by line feeds, and the line
    the finding reports is one of them; the reported line is a line of
    the content. *)
Theorem snippet_holds_the_reported_line `{Runtime} (filePath content : jsstring) :
  exists findings,
    SecurityLib.scanFile filePath content = Some findings
    /\ Forall (fun f =>
         let lines := splitLines content in
         let line := N.to_nat (f_line f) in
         (1 <= line <= length lines)%nat
         /\ exists first last,
              f_snippet f = Some (join [NL] (sliceArr lines first last))
              /\ (first <= line - 1 < last)%nat
              /\ (last <= length lines)%nat
              /\ (last - first <= 3)%nat
              /\ sliceArr lines first last !! (line - 1 - first)%nat
                 = lines !! (line - 1)%nat) findings.
Proof.
  destruct (scanFile_total filePath content) as [findings Hrun].
  exists findings. split; [exact Hrun|].
  apply List.Forall_forall. intros f Hf.
  destruct (scanFile_origin _ _ _ _ Hrun Hf) as (_ & pattern & ms & m & _ & _ & _ & ->).
  cbn zeta. cbn [SecurityLib.findingOf f_line f_snippet]. rewrite Nat2N.id.
  pose proof (lineNumberOf_range content (fst m)) as Hrange.
  set (line := lineNumberOf (splitLines content) (fst m)) in *.
  set (lines := splitLines content) in *.
  split; [exact Hrange|].
  exists (Nat.max 0 (line - 2)), (Nat.min (length lines) (line + 1)).
  split; [reflexivity|]. repeat split; try lia.
  unfold sliceArr. rewrite lookup_drop, lookup_take_lt by lia. f_equal. lia.
Qed.

(* ===================================================================== *)
(** ** The routes: what is fetched, what is found, how a stream ends *)
(* ===================================================================== *)

Section RouteFetch.
Context `{Runtime}.
Variable gh : jsstring -> Contents.

Lemma fetchOne_fileOf (p : jsstring) :
  ScanRoute.fetchOne gh p = ([GetContent p], Ok (ScanRoute.fileOf gh p)).
Proof. reflexivity. Qed.

Lemma mapM_fileOf (batch : list jsstring) :
  mapM (ScanRoute.fetchOne gh) batch
  = (List.map GetContent batch, Ok (List.map (ScanRoute.fileOf gh) batch)).
Proof.
  induction batch as [|p batch IH]; [reflexivity|].
  cbn [mapM]. rewrite IH, fetchOne_fileOf. cbn [bind ret app List.map].
  by rewrite app_nil_r.
Qed.

(** The files [fetchFiles] returns: the records of the paths, in their
    order, without those that have no content. *)
Lemma fetchFiles_result (paths : list jsstring) :
  exists t,
    ScanRoute.fetchFiles gh paths
    = (t, Ok (List.filter ScanRoute.hasContent (List.map (ScanRoute.fileOf gh) paths))).
Proof.
  unfold ScanRoute.fetchFiles.
  set (n := length paths).
  assert (Hgen : forall (bs : list (list jsstring)) i t0 (r0 : list ScanRoute.File),
    exists t,
      fold_left
        (fun (acc : M (list ScanRoute.File)) (ib : nat * list jsstring) =>
           let* results := acc in
           let (i, batch) := ib in
           sendEvent "status"
             (PStatus (str "Fetching files (" ++ numToString (N.of_nat (i + length batch))
                         ++ str "/" ++ numToString (N.of_nat n) ++ str ")...")
                      (fetchProgress i n)) >>>
           let* batchResults := mapM (ScanRoute.fetchOne gh) batch in
           ret (results ++ List.filter ScanRoute.hasContent batchResults))
        (indexed5 i bs) (t0, Ok r0)
      = (t, Ok (r0 ++ List.filter ScanRoute.hasContent
                        (List.map (ScanRoute.fileOf gh) (concat bs))))).
  { induction bs as [|b bs IH]; intros i t0 r0.
    - exists t0. simpl. by rewrite app_nil_r.
    - cbn [indexed5 fold_left].
      cbn [bind]. unfold sendEvent, act. cbn [bind]. rewrite mapM_fileOf. cbn [bind ret].
      edestruct IH as (t & ->). exists t.
      cbn [concat]. by rewrite map_app, List.filter_app, app_assoc. }
  destruct (Hgen (batchesOf5 paths) 0%nat [] []) as (t & Heq).
  rewrite concat_batchesOf5 in Heq. exists t. exact Heq.
Qed.

End RouteFetch.

(** X11. [fetchFiles] of the scan route never throws, and the files it
    returns are the paths that the source host answers with a file of
    non-empty text, in the order of the paths, each with that text: a path
    that fails, that is a directory or whose text is empty is left out. *)
Theorem fetched_files_are_the_readable_paths `{Runtime}
    (gh : jsstring -> Contents) (paths : list jsstring) :
  exists t files,
    ScanRoute.fetchFiles gh paths = (t, Ok files)
    /\ sublist (List.map ScanRoute.path files) paths
    /\ Forall (fun f =>
         exists item text,
           gh (ScanRoute.path f) = Single item text
           /\ i_type item = str "file" /\ text <> []
           /\ ScanRoute.content f = Some text) files
    /\ (forall p item text,
           In p paths -> gh p = Single item text -> i_type item = str "file" ->
           text <> [] -> In (ScanRoute.mkFile p (Some text)) files).
Proof.
  destruct (fetchFiles_result gh paths) as [t Hrun].
  eexists t, _. split; [exact Hrun|]. split; [|split].
  - clear Hrun. induction paths as [|p paths IH]; [constructor|].
    cbn [List.map List.filter].
    destruct (ScanRoute.hasContent (ScanRoute.fileOf gh p)) eqn:Hp.
    + cbn [List.map]. replace (ScanRoute.path (ScanRoute.fileOf gh p)) with p.
      * by apply sublist_skip.
      * unfold ScanRoute.fileOf. destruct (gh p) as [| item text |]; try done.
        by destruct (streq _ _).
    + by apply sublist_cons.
  - apply List.Forall_forall. intros f [Hin Hcontent]%filter_In.
    apply in_map_iff in Hin as (p & <- & _).
    unfold ScanRoute.fileOf, ScanRoute.hasContent in *.
    destruct (gh p) as [| item text |] eqn:Hgh; try done.
    destruct (streq (i_type item) (str "file")) eqn:Hty; [|done].
    cbn [ScanRoute.path ScanRoute.content] in *.
    exists item, text. apply streq_true in Hty. by destruct text.
  - intros p item text Hp Hgh Hty Htext. apply filter_In. split.
    + apply in_map_iff. exists p. split; [|done].
      unfold ScanRoute.fileOf. rewrite Hgh, Hty. reflexivity.
    + by destruct text.
Qed.

Section RouteFindings.

(** Where a finding of [runPatternScan] comes from. *)
Lemma runPatternScan_origin (files : list ScanRoute.File) (findings : list Finding)
    (f : Finding) :
  ScanRoute.runPatternScan files = Some findings ->
  In f findings ->
  exists file text pattern ms m,
    In file files
    /\ ScanRoute.content file = Some text /\ text <> []
    /\ In pattern ScanRoute.SECURITY_PATTERNS
    /\ allMatches (p_pattern pattern) text = Some ms
    /\ In m ms
    /\ f = ScanRoute.findingOf (ScanRoute.path file) (splitLines text) pattern m.
Proof.
  intros Hrun Hf. unfold ScanRoute.runPatternScan in Hrun.
  destruct (concatOpt_In _ _ _ _ Hrun Hf) as (file & ys & Hfile & Hscan & Hy).
  destruct (ScanRoute.content file) as [text|] eqn:Htext;
    [|injection Hscan as <-; destruct Hy].
  assert (Hne : text = [] \/ text <> []) by (destruct text; [by left|by right]).
  destruct Hne as [->|Hne]; [injection Hscan as <-; destruct Hy|].
  assert (Hscan' :
            concatOpt
              (fun pattern =>
                 match allMatches (p_pattern pattern) text with
                 | None => None
                 | Some ms =>
                     Some (List.map (ScanRoute.findingOf (ScanRoute.path file)
                                       (splitLines text) pattern) ms)
                 end) ScanRoute.SECURITY_PATTERNS = Some ys)
    by (destruct text; [done|exact Hscan]).
  destruct (concatOpt_In _ _ _ _ Hscan' Hy) as (pattern & zs & Hp & Hz & Hin).
  destruct (allMatches (p_pattern pattern) text) as [ms|] eqn:Hms; [|discriminate].
  injection Hz as <-. apply in_map_iff in Hin as (m & <- & Hm).
  exists file, text, pattern, ms, m. auto 10.
Qed.

End RouteFindings.

(** X12. The pattern scan of the scan route always returns, and every
    finding it reports stands for a match: one of the rules of the route
    matches a text that is not empty in the content of one of the files,
    at its place in that content (a word boundary of the rule is one
    between the characters around it there),
    the finding names that file, carries the severity and title of the
    rule, and its line is one more than the number of line feeds before
    the match. Its confidence is high and its source is the pattern scan,
    so the final filter of the route keeps it whatever its severity. *)
Theorem route_pattern_findings_are_matches (files : list ScanRoute.File) :
  exists findings,
    ScanRoute.runPatternScan files = Some findings
    /\ ScanRoute.filteredFindings findings = findings
    /\ Forall (fun f =>
         f_confidence f = str "high"
         /\ f_source f = Some (str "pattern")
         /\ exists file text pattern j e,
              In file files
              /\ ScanRoute.content file = Some text
              /\ In pattern ScanRoute.SECURITY_PATTERNS
              /\ (j < e <= length text)%nat
              /\ lang (p_pattern pattern) (charBefore text j)
                      (sliceArr text j e) (drop e text)
              /\ f_file f = ScanRoute.path file
              /\ f_line f = N.of_nat (1 + lineFeeds (take j text))
              /\ f_severity f = p_severity pattern
              /\ f_title f = p_title pattern) findings.
Proof.
  destruct (runPatternScan_total files) as [findings Hrun].
  exists findings. split; [exact Hrun|].
  assert (Hall : Forall (fun f =>
         f_confidence f = str "high"
         /\ f_source f = Some (str "pattern")
         /\ exists file text pattern j e,
              In file files
              /\ ScanRoute.content file = Some text
              /\ In pattern ScanRoute.SECURITY_PATTERNS
              /\ (j < e <= length text)%nat
              /\ lang (p_pattern pattern) (charBefore text j)
                      (sliceArr text j e) (drop e text)
              /\ f_file f = ScanRoute.path file
              /\ f_line f = N.of_nat (1 + lineFeeds (take j text))
              /\ f_severity f = p_severity pattern
              /\ f_title f = p_title pattern) findings).
  { apply List.Forall_forall. intros f Hf.
    destruct (runPatternScan_origin _ _ _ Hrun Hf)
      as (file & text & pattern & ms & [j e] & Hfile & Htext & _ & Hp & Hms & Hm & ->).
    split; [reflexivity|]. split; [reflexivity|].
    apply execLoop_sound in Hms. rewrite List.Forall_forall in Hms.
    destruct (Hms _ Hm) as [[Hje He] Hlang]. cbn [fst snd] in *.
    assert (Hnull : nullable (p_pattern pattern) = false).
    { pose proof scan_patterns_not_nullable as Hnn.
      rewrite forallb_forall in Hnn. by apply negb_true_iff, Hnn. }
    pose proof (match_not_empty _ _ _ _ _ _ Hnull Hlang) as Hlt.
    exists file, text, pattern, j, e.
    cbn [ScanRoute.findingOf f_file f_line f_severity f_title fst].
    repeat split; try done.
    f_equal. apply lineNumberOf_count. lia. }
  split; [|exact Hall].
  unfold ScanRoute.filteredFindings. apply forallb_filter_id, forallb_forall.
  intros f Hf. rewrite List.Forall_forall in Hall.
  destruct (Hall f Hf) as (Hconf & _). apply keepFinding_true. auto.
Qed.

(** X13. What [runAIScan] adds to a scan. When the model fails, nothing.
    Otherwise one finding for each finding of the model, with its file,
    line, severity and title, marked with confidence medium and source ai:
    the final filter of the route keeps such a finding exactly when its
    severity is critical or high. *)
Theorem ai_findings_pass_filter_by_severity `{Runtime}
    (model : list (jsstring * jsstring) -> option (list Finding))
    (files : list ScanRoute.File) :
  let shown := List.map (fun f => (ScanRoute.path f,
                                   take 5000 (default [] (ScanRoute.content f))))
                        (take 10 files) in
  let result := ScanRoute.runAIScan model files in
  (model shown = None -> result = [])
  /\ (forall found, model shown = Some found ->
        List.map (fun f => (f_file f, f_line f, f_severity f, f_title f)) result
        = List.map (fun f => (f_file f, f_line f, f_severity f, f_title f)) found)
  /\ Forall (fun f =>
       f_confidence f = str "medium"
       /\ f_source f = Some (str "ai")
       /\ (ScanRoute.keepFinding f = true
           <-> f_severity f = str "critical" \/ f_severity f = str "high")) result
  /\ ScanRoute.filteredFindings result
     = List.filter (fun f => streq (f_severity f) (str "critical")
                             || streq (f_severity f) (str "high")) result.
Proof.
  cbn zeta. unfold ScanRoute.runAIScan.
  destruct (model _) as [found|]; cbn beta iota.
  2:{ repeat split; done. }
  split; [done|]. split.
  { intros ? [= <-]. rewrite map_map. reflexivity. }
  assert (Hall : Forall (fun f =>
       f_confidence f = str "medium"
       /\ f_source f = Some (str "ai")
       /\ (ScanRoute.keepFinding f = true
           <-> f_severity f = str "critical" \/ f_severity f = str "high"))
     (List.map (fun f =>
        {| f_id := str "ai-" ++ f_file f ++ str "-" ++ numToString (f_line f)
                   ++ str "-" ++ numToString now;
           f_file := f_file f; f_line := f_line f; f_type := f_type f;
           f_severity := f_severity f; f_title := f_title f;
           f_description := f_description f; f_fix := f_fix f;
           f_match := f_match f; f_snippet := f_snippet f;
           f_confidence := str "medium";
           f_source := Some (str "ai") |}) found)).
  { apply List.Forall_forall. intros f (g & <- & _)%in_map_iff.
    split; [reflexivity|]. split; [reflexivity|].
    rewrite keepFinding_true. cbn [f_severity f_confidence].
    split; [intros [?|[?|?]]; [auto|auto|discriminate]|tauto]. }
  split; [exact Hall|].
  unfold ScanRoute.filteredFindings. apply filter_ext_in.
  intros f Hf. rewrite List.Forall_forall in Hall.
  destruct (Hall f Hf) as (Hconf & _ & _).
  unfold ScanRoute.keepFinding. rewrite Hconf.
  replace (streq (str "medium") (str "high")) with false by reflexivity.
  by rewrite orb_false_r.
Qed.

Section Streams.

Lemma quiet_no_terminal (t : list Action) :
  forallb quiet t = true -> List.filter isTerminal t = [].
Proof.
  induction t as [|a t IH]; [done|]. cbn [forallb].
  intros [Ha Ht]%andb_true_iff. cbn [List.filter].
  unfold quiet in Ha. destruct a as [| e | |]; try done; [|by apply IH].
  rewrite (status_not_terminal (Write e)); [by apply IH|].
  by rewrite orb_false_r in Ha.
Qed.

Lemma quiet_no_reply (t : list Action) :
  forallb quiet t = true -> existsb isReply t = false.
Proof.
  induction t as [|a t IH]; [done|]. cbn [forallb existsb].
  intros [Ha Ht]%andb_true_iff. rewrite (IH Ht).
  by destruct a.
Qed.

End Streams.

(** X14. What a request to the scan route gets. A request that is not a
    POST gets the plain reply 405 and no event. A POST without a body
    makes the handler throw before anything is replied, written or closed.
    A POST whose body lacks the owner or the repository gets the plain
    reply 400 and no event. For every other request the handler returns,
    the stream holds exactly one terminal event ([complete] or [error])
    and no plain reply, and the last thing the handler does is to close
    the stream. *)
Theorem scan_request_gets_one_terminal_event `{Runtime}
    (gh : jsstring -> Contents)
    (model : list (jsstring * jsstring) -> option (list Finding))
    (req : ScanRoute.Request) :
  let run := ScanRoute.handler gh model req in
  if negb (streq (ScanRoute.method req) (str "POST")) then
    run = ([Reply 405 (str "Method not allowed")], Ok tt)
  else if negb (ScanRoute.hasBody req) then
    exists message, run = ([], Throw message)
  else if ScanRoute.missing (ScanRoute.owner req) || ScanRoute.missing (ScanRoute.repo req)
  then run = ([Reply 400 (str "Missing owner or repo")], Ok tt)
  else
    ScanRoute.accepted req = true
    /\ exists t,
         run = (t, Ok tt)
         /\ terminalEvents t = 1%nat /\ last t = Some End /\ existsb isReply t = false.
Proof.
  cbv zeta. unfold ScanRoute.accepted.
  destruct (streq (ScanRoute.method req) (str "POST")) eqn:Hmethod; cbn [negb andb].
  2:{ unfold ScanRoute.handler. by rewrite Hmethod. }
  destruct (ScanRoute.hasBody req) eqn:Hbody; cbn [negb andb].
  2:{ unfold ScanRoute.handler. rewrite Hmethod, Hbody. cbn [negb]. by eexists. }
  destruct (ScanRoute.missing (ScanRoute.owner req) || ScanRoute.missing (ScanRoute.repo req))
    eqn:Hmissing.
  { unfold ScanRoute.handler. by rewrite Hmethod, Hbody, Hmissing. }
  split; [reflexivity|].
  apply orb_false_iff in Hmissing as [Howner Hrepo].
  destruct (scan_handler_trace gh model req)
    as [[_ ->]|(_ & pre & payload & -> & _ & Hquiet)].
  - by apply streq_true.
  - by destruct (ScanRoute.owner req).
  - by destruct (ScanRoute.repo req).
  - eexists. split; [reflexivity|]. by repeat split.
  - eexists. split; [reflexivity|]. split; [|split].
    + unfold terminalEvents. rewrite List.filter_app, (quiet_no_terminal _ Hquiet).
      reflexivity.
    + by rewrite last_app.
    + rewrite existsb_app, (quiet_no_reply _ Hquiet). reflexivity.
Qed.

Section ChatStream.
Context `{Runtime}.

Lemma forEach_requests_plain (paths : list json) :
  exists t,
    forEach paths (fun p => act (GetContent (jsToString p))) = (t, Ok tt)
    /\ existsb isReply t = false.
Proof.
  induction paths as [|p paths (t & IH & Hr)]; [by exists []|].
  cbn [forEach]. rewrite IH. unfold act. cbn [bind]. eauto.
Qed.

Lemma forEach_chunks_plain (chunks : list (option jsstring)) :
  exists t,
    forEach chunks
      (fun chunk =>
         match chunk with
         | Some (c :: cs) => sendEvent "chunk" (PChunk (c :: cs))
         | _ => ret tt
         end) = (t, Ok tt)
    /\ existsb isReply t = false.
Proof.
  induction chunks as [|chunk chunks (t & IH & Hr)]; [by exists []|].
  cbn [forEach]. rewrite IH.
  destruct chunk as [[|c cs]|]; unfold sendEvent, act, ret; cbn [bind]; eauto.
Qed.

(** The chat handler returns, whatever the collaborators answer, and
    sends no plain reply once the stream is open. *)
Lemma chat_handler_returns gh model stream (req : ChatRoute.Request) :
  streq (ChatRoute.method req) (str "POST") = true ->
  ChatRoute.missing (ChatRoute.query req) || ChatRoute.missing (ChatRoute.owner req)
    || ChatRoute.missing (ChatRoute.repo req) = false ->
  exists t,
    ChatRoute.handler gh model stream req = (t, Ok tt)
    /\ existsb isReply t = false.
Proof.
  intros Hmethod Hmissing. unfold ChatRoute.handler.
  rewrite Hmethod, (chat_query_hasBody _ Hmissing), Hmissing. cbn [negb].
  destruct (ChatRoute.tree req) as [tree|]; [|by eexists].
  destruct (selectRelevantFiles_total model (ChatRoute.query req) tree
              (ChatRoute.owner req) (ChatRoute.repo req)) as [sel ->].
  unfold sendEvent, act, orDiverge, ret, throw. cbn [bind app].
  destruct (files sel) as [paths|[|c cs]]; [| |by eexists].
  - destruct (forEach_requests_plain paths) as (tr & Hfe & Hreq).
    unfold act in Hfe. rewrite Hfe. cbn [bind app].
    destruct (stream _) as [message|chunks failure].
    + cbn [bind app tryCatch tryFinally fst]. eexists. split; [reflexivity|].
      cbn [existsb isReply orb]. rewrite !existsb_app, Hreq. reflexivity.
    + destruct (forEach_chunks_plain chunks) as (tc & Hfc & Hch).
      unfold sendEvent, act, ret in Hfc. cbn [bind app fst snd]. rewrite Hfc.
      destruct failure as [message|]; cbn [bind app tryCatch tryFinally fst snd];
        (eexists; split; [reflexivity|]);
        cbn [existsb isReply orb]; rewrite ?existsb_app, ?Hreq, ?Hch;
        cbn [existsb isReply orb]; rewrite ?existsb_app, ?Hreq, ?Hch; reflexivity.
  - cbn [bind app].
    destruct (stream _) as [message|chunks failure]; [by eexists|].
    destruct (forEach_chunks_plain chunks) as (tc & Hfc & Hch).
    unfold sendEvent, act, ret in Hfc. cbn [bind app fst snd]. rewrite Hfc.
    destruct failure as [message|]; cbn [bind app tryCatch tryFinally fst snd];
      (eexists; split; [reflexivity|]);
      cbn [existsb isReply orb]; rewrite ?existsb_app, ?Hch;
      cbn [existsb isReply orb]; rewrite ?existsb_app, ?Hch; reflexivity.
Qed.

End ChatStream.

(** X15. What a request to the chat route gets, whatever the source
    host, the selection model and the streamed completion answer. A
    request that is not a POST gets the plain reply 405 and no event. A
    POST without a body makes the handler throw before anything is
    replied, written or closed. A POST whose body lacks the query, the
    owner or the repository gets the plain reply 400 and no event. For
    every other request the handler returns, and the stream holds events
    that are not terminal, then exactly one terminal event ([done] or
    [error]), then the close and nothing after it, and no plain reply. *)
Theorem chat_request_closes_after_one_terminal_event `{Runtime}
    (gh : json -> Contents) (model : SelectionPrompt -> ModelReply)
    (stream : ChatRoute.ChatPrompt -> StreamReply) (req : ChatRoute.Request) :
  let run := ChatRoute.handler gh model stream req in
  if negb (streq (ChatRoute.method req) (str "POST")) then
    run = ([Reply 405 (str "Method not allowed")], Ok tt)
  else if negb (ChatRoute.hasBody req) then
    exists message, run = ([], Throw message)
  else if ChatRoute.missing (ChatRoute.query req)
          || ChatRoute.missing (ChatRoute.owner req)
          || ChatRoute.missing (ChatRoute.repo req)
  then run = ([Reply 400 (str "Missing required fields")], Ok tt)
  else
    ChatRoute.accepted req = true
    /\ exists t,
         run = (t, Ok tt) /\ closesAfterTerminal t /\ existsb isReply t = false.
Proof.
  cbv zeta. unfold ChatRoute.accepted.
  destruct (streq (ChatRoute.method req) (str "POST")) eqn:Hmethod; cbn [negb andb].
  2:{ unfold ChatRoute.handler. by rewrite Hmethod. }
  destruct (ChatRoute.hasBody req) eqn:Hbody; cbn [negb andb].
  2:{ unfold ChatRoute.handler. rewrite Hmethod, Hbody. cbn [negb]. by eexists. }
  destruct (ChatRoute.missing (ChatRoute.query req)
            || ChatRoute.missing (ChatRoute.owner req)
            || ChatRoute.missing (ChatRoute.repo req)) eqn:Hmissing.
  { unfold ChatRoute.handler. by rewrite Hmethod, Hbody, Hmissing. }
  split; [reflexivity|].
  destruct (chat_handler_returns gh model stream req Hmethod Hmissing) as (t & Hrun & Hr).
  exists t. split; [exact Hrun|]. split; [|exact Hr].
  pose proof (chat_closes_after_terminal gh model stream req Hmethod Hmissing) as Hc.
  by rewrite Hrun in Hc.
Qed.

Section CompleteEvent.
Context `{Runtime}.

(** The event [complete] of a scan that has code files to look at. *)
Lemma scan_handler_complete gh model (req : ScanRoute.Request) :
  ScanRoute.accepted req = true ->
  let codeFiles := ScanRoute.codeFilesOf (ScanRoute.filePaths req) in
  codeFiles <> [] ->
  exists pre patternFindings,
    let files := List.filter ScanRoute.hasContent
                             (List.map (ScanRoute.fileOf gh) codeFiles) in
    let filtered := ScanRoute.filteredFindings
                      (ScanRoute.deduplicateFindings
                         (patternFindings ++ ScanRoute.runAIScan model files)) in
    ScanRoute.runPatternScan files = Some patternFindings
    /\ ScanRoute.handler gh model req =
         (pre ++ [Write (mkEvent (str "complete")
                           (PComplete filtered (ScanRoute.groupBySeverity filtered)
                                      (ScanRoute.generateSummary filtered)
                                      (length codeFiles) (length filtered)));
                  Write (mkEvent (str "status") (PStatus (str "Complete") 100));
                  End], Ok tt).
Proof.
  intros Haccepted codeFiles Hcode.
  unfold ScanRoute.accepted in Haccepted.
  apply andb_true_iff in Haccepted as [[Hmethod Hbody]%andb_true_iff Hmissing].
  apply negb_true_iff in Hmissing.
  unfold ScanRoute.handler. fold codeFiles. rewrite Hmethod, Hbody, Hmissing. cbn [negb].
  destruct codeFiles as [|p ps] eqn:Hcf; [done|].
  destruct (fetchFiles_result gh (p :: ps)) as [t Hfetch].
  set (files := List.filter ScanRoute.hasContent
                            (List.map (ScanRoute.fileOf gh) (p :: ps))) in *.
  destruct (runPatternScan_total files) as [patternFindings Hscan].
  replace (Nat.eqb (length (p :: ps)) 0) with false by reflexivity.
  rewrite Hfetch.
  unfold sendEvent, act, ret. cbn [bind app]. rewrite Hscan.
  unfold orDiverge, ret. cbn [bind tryCatch tryFinally app].
  eexists (_ :: t ++ [_; _; _]), patternFindings. split; [reflexivity|].
  f_equal. cbn [app]. f_equal. rewrite <- !app_assoc. reflexivity.
Qed.

End CompleteEvent.

(** X16. What the event [complete] of a scan carries. For a request that
    is accepted and names at least one code file, the handler writes one
    event [complete] whose findings are the findings of the pattern scan
    and of the model on the files that could be read, deduplicated and
    filtered: no two of them share a key, each is critical, high or of
    high confidence, [totalFindings] is their number, [grouped] is their
    grouping, and [scannedFiles] is the number of code files named (at
    most 20), also when some of them could not be read. *)
Theorem complete_event_carries_filtered_findings `{Runtime}
    (gh : jsstring -> Contents)
    (model : list (jsstring * jsstring) -> option (list Finding))
    (req : ScanRoute.Request) :
  ScanRoute.accepted req = true ->
  ScanRoute.codeFilesOf (ScanRoute.filePaths req) <> [] ->
  exists pre findings summary scannedFiles,
    ScanRoute.handler gh model req =
      (pre ++ [Write (mkEvent (str "complete")
                        (PComplete findings (ScanRoute.groupBySeverity findings) summary
                                   scannedFiles (length findings)));
               Write (mkEvent (str "status") (PStatus (str "Complete") 100));
               End], Ok tt)
    /\ NoDup (findingKey <$> findings)
    /\ forallb ScanRoute.keepFinding findings = true
    /\ summary = ScanRoute.generateSummary findings
    /\ scannedFiles = length (ScanRoute.codeFilesOf (ScanRoute.filePaths req))
    /\ (scannedFiles <= 20)%nat.
Proof.
  intros Haccepted Hcode.
  destruct (scan_handler_complete gh model req Haccepted Hcode)
    as (pre & patternFindings & _ & Hrun).
  cbn zeta in Hrun. eexists pre, _, _, _. split; [exact Hrun|].
  split; [|split; [|split; [reflexivity|split; [reflexivity|]]]].
  - unfold ScanRoute.filteredFindings, ScanRoute.deduplicateFindings.
    eapply sublist_NoDup; [|apply fmap_sublist, sublist_List_filter].
    apply (dedupLoop_keys _ ∅).
  - unfold ScanRoute.filteredFindings. apply forallb_forall.
    by intros f [_ Hf]%filter_In.
  - unfold ScanRoute.codeFilesOf. rewrite length_take. lia.
Qed.

Lemma complete_event_carries_filtered_findings_witness :
  ScanRoute.accepted sampleScanRequest = true
  /\ ScanRoute.codeFilesOf (H := asciiRuntime) (ScanRoute.filePaths sampleScanRequest) <> []
  /\ exists pre findings summary scannedFiles,
       ScanRoute.handler (H := asciiRuntime) sampleHost (fun _ => Some []) sampleScanRequest =
         (pre ++ [Write (mkEvent (str "complete")
                           (PComplete findings (ScanRoute.groupBySeverity findings) summary
                                      scannedFiles (length findings)));
                  Write (mkEvent (str "status") (PStatus (str "Complete") 100));
                  End], Ok tt)
       /\ NoDup (findingKey <$> findings)
       /\ forallb ScanRoute.keepFinding findings = true
       /\ summary = ScanRoute.generateSummary findings
       /\ scannedFiles
          = length (ScanRoute.codeFilesOf (H := asciiRuntime)
                      (ScanRoute.filePaths sampleScanRequest))
       /\ (scannedFiles <= 20)%nat.
Proof.
  split; [reflexivity|]. split; [vm_compute; discriminate|].
  apply (complete_event_carries_filtered_findings (H := asciiRuntime));
    [reflexivity|vm_compute; discriminate].
Defined.

(* ===================================================================== *)
(** ** Trees: order, pruning, paths *)
(* ===================================================================== *)

Section DirsFirst.
Context `{Runtime}.

Lemma forallb_insertBy {A} (cmp : A -> A -> Z) (p : A -> bool) (x : A) (l : list A) :
  forallb p (insertBy cmp x l) = p x && forallb p l.
Proof.
  induction l as [|y l IH]; cbn [insertBy forallb]; [done|].
  destruct (cmp x y <=? 0)%Z; cbn [forallb]; [done|].
  rewrite IH. by destruct (p x), (p y).
Qed.

Lemma compareNodes_dir_after (x y : TreeNode) :
  isDir (type x) = true -> (0 < compareNodes x y)%Z -> isDir (type y) = true.
Proof.
  unfold compareNodes. intros Hx.
  destruct (streq (type x) (type y)) eqn:Hty.
  - apply streq_true in Hty. by rewrite <- Hty.
  - rewrite Hx. lia.
Qed.

Lemma compareNodes_file_before (x y : TreeNode) :
  isDir (type x) = false -> (compareNodes x y <= 0)%Z -> isDir (type y) = false.
Proof.
  unfold compareNodes. intros Hx.
  destruct (streq (type x) (type y)) eqn:Hty.
  - apply streq_true in Hty. by rewrite <- Hty.
  - rewrite Hx. lia.
Qed.

Lemma dirsFirst_insertBy (x : TreeNode) (l : list TreeNode) :
  dirsFirst l = true -> dirsFirst (insertBy compareNodes x l) = true.
Proof.
  induction l as [|y l IH]; intros Hl; cbn [insertBy].
  - cbn. by destruct (isDir (type x)).
  - destruct (Z.leb_spec (compareNodes x y) 0) as [Hle|Hgt].
    + cbn [dirsFirst] in *. destruct (isDir (type x)) eqn:Hx; [exact Hl|].
      rewrite (compareNodes_file_before x y Hx Hle) in Hl.
      cbn [forallb]. by rewrite (compareNodes_file_before x y Hx Hle), Hl.
    + cbn [dirsFirst] in *. destruct (isDir (type y)) eqn:Hy; [by apply IH|].
      rewrite forallb_insertBy, Hl, andb_true_r.
      destruct (isDir (type x)) eqn:Hx; [|done].
      by rewrite (compareNodes_dir_after x y Hx Hgt) in Hy.
Qed.

Lemma dirsFirst_sortBy (l : list TreeNode) : dirsFirst (sortBy compareNodes l) = true.
Proof.
  induction l as [|x l IH]; [reflexivity|].
  change (sortBy compareNodes (x :: l)) with (insertBy compareNodes x (sortBy compareNodes l)).
  by apply dirsFirst_insertBy.
Qed.

End DirsFirst.

Section SortedLevels.
Context `{Runtime}.

Lemma dirsFirst_arraySort (l : list TreeNode) :
  consistentOn compareNodes (arraySort compareNodes l) = true ->
  dirsFirst (arraySort compareNodes l) = true.
Proof. intros Hc. rewrite (arraySort_consistent _ _ Hc). apply dirsFirst_sortBy. Qed.

(** On directories and files whose names are compared consistently, the
    comparator of the tree is consistent. *)
Lemma compareNodes_consistent (l : list TreeNode) :
  forallb dirOrFile l = true ->
  consistentOn localeCompare (List.map name l) = true ->
  consistentOn compareNodes l = true.
Proof.
  rewrite forallb_forall, !consistentOn_spec. intros Hty Hnames.
  assert (Hcases : forall x, In x l ->
             In (name x) (List.map name l)
             /\ (type x = str "dir" \/ type x = str "file")).
  { intros x Hx. split; [by apply in_map|].
    specialize (Hty x Hx). unfold dirOrFile, isDir, isFile in Hty.
    apply orb_true_iff in Hty as [Hd%streq_true|Hf%streq_true]; auto. }
  intros a Ha. destruct (Hcases a Ha) as [Hna Hta].
  destruct (Hnames _ Hna) as [Haa Hb]. split.
  { unfold compareNodes.
    replace (streq (type a) (type a)) with true by (symmetry; by apply streq_true).
    exact Haa. }
  intros b Hb'. destruct (Hcases b Hb') as [Hnb Htb].
  destruct (Hb _ Hnb) as [Hsym Hc]. split.
  { unfold compareNodes, isDir.
    destruct Hta as [-> | ->], Htb as [-> | ->];
      change (streq (str "dir") (str "dir")) with true;
      change (streq (str "file") (str "file")) with true;
      change (streq (str "dir") (str "file")) with false;
      change (streq (str "file") (str "dir")) with false;
      cbn match; try exact Hsym; lia. }
  intros c Hc'. destruct (Hcases c Hc') as [Hnc Htc].
  destruct (Hc _ Hnc) as (Heq & Hlt & Hgt).
  unfold compareNodes, isDir.
  destruct Hta as [-> | ->], Htb as [-> | ->], Htc as [-> | ->];
    change (streq (str "dir") (str "dir")) with true;
    change (streq (str "file") (str "file")) with true;
    change (streq (str "dir") (str "file")) with false;
    change (streq (str "file") (str "dir")) with false;
    cbn match; repeat split; try assumption; lia.
Qed.

Variable getContent : jsstring -> Contents.
Variable skipDirs : list jsstring.
Variable maxDepth : nat.

Lemma dirsFirst_buildFrom (k : nat) (path : jsstring) (depth : nat) :
  consistentOn compareNodes (buildFrom getContent skipDirs k path depth maxDepth) = true ->
  dirsFirst (buildFrom getContent skipDirs k path depth maxDepth) = true.
Proof.
  destruct k; cbn [buildFrom]; destruct (maxDepth <? depth)%nat; try reflexivity;
    destruct (itemsOf (getContent path)); try reflexivity; apply dirsFirst_arraySort.
Qed.

Lemma buildFrom_children (k : nat) : forall path depth entry l,
  In entry (nodesAt depth (buildFrom getContent skipDirs k path depth maxDepth)) ->
  children (snd entry) = Some l ->
  consistentOn compareNodes l = true ->
  dirsFirst l = true.
Proof.
  induction k as [|k IH]; intros path depth entry l; cbn [buildFrom];
    (destruct (maxDepth <? depth)%nat eqn:Hcap; [intros []|]);
    (destruct (itemsOf (getContent path)) as [items|]; [|intros []]);
    unfold nodesAt; rewrite in_flat_map; intros (node & Hnode & Hentry);
    apply in_arraySort, in_flat_map in Hnode as (item & _ & Hnode);
    destruct (isDir (i_type item) && includesStr skipDirs (i_name item)) eqn:Hskip;
    try (by destruct Hnode);
    destruct Hnode as [<-|[]]; cbn [nodeAt] in Hentry;
    destruct (isDir (i_type item) && (depth <? maxDepth)%nat);
    (destruct Hentry as [<-|Hbelow]; cbn [snd children]; [|try by destruct Hbelow]);
    try (intros [= <-]); try done.
  - apply dirsFirst_buildFrom.
  - replace (S depth) with (depth + 1)%nat in Hbelow by lia.
    by apply (IH (i_path item) (depth + 1)%nat entry l).
Qed.

End SortedLevels.

(** X17. The order of a tree [buildFileTree] builds (library and fetch
    route). Every level on which the comparator of the sort is a
    consistent comparison lists its directories before everything else:
    the top level and the children of every node. The comparator is
    consistent on a level of directories and files whose names
    [localeCompare] compares consistently; it is not on a level that holds
    two entries of different types that are not directories, and there
    the order is the engine's. Whatever the order, the top level holds the
    entries of the listing that are not skipped directories. *)
Theorem built_tree_lists_directories_first `{Runtime}
    (getContent : jsstring -> Contents) (path : jsstring) (depth maxDepth : nat) :
  let tree := GitHubLib.buildFileTree getContent path depth maxDepth in
  let routeTree := FetchRoute.buildFileTree getContent path depth in
  let ordered (level : list TreeNode) :=
    consistentOn compareNodes level = true -> dirsFirst level = true in
  ordered tree
  /\ Forall (fun entry => forall l, children (snd entry) = Some l -> ordered l)
            (nodesAt depth tree)
  /\ ordered routeTree
  /\ Forall (fun entry => forall l, children (snd entry) = Some l -> ordered l)
            (nodesAt depth routeTree)
  /\ (forall level : list TreeNode,
         forallb dirOrFile level = true ->
         consistentOn localeCompare (List.map name level) = true ->
         consistentOn compareNodes level = true)
  /\ (forall a b : TreeNode,
         type a <> type b -> isDir (type a) = false -> isDir (type b) = false ->
         consistentOn compareNodes [a; b] = false)
  /\ (forall items,
         (depth <= maxDepth)%nat -> itemsOf (getContent path) = Some items ->
         Permutation (List.map name tree)
                     (List.map i_name
                        (List.filter (fun item => negb (skippedItem GitHubLib.skipDirs item))
                                     items))).
Proof.
  cbn zeta. unfold GitHubLib.buildFileTree, FetchRoute.buildFileTree, buildTree.
  split; [apply dirsFirst_buildFrom|]. split.
  { apply List.Forall_forall. intros entry Hentry l. by eapply buildFrom_children. }
  split; [apply dirsFirst_buildFrom|]. split.
  { apply List.Forall_forall. intros entry Hentry l. by eapply buildFrom_children. }
  split; [apply compareNodes_consistent|]. split.
  { intros a b Hty Ha Hb. unfold consistentOn, compareNodes. cbn [forallb].
    replace (streq (type a) (type a)) with true by (symmetry; by apply streq_true).
    destruct (Z.eqb_spec (localeCompare (name a) (name a)) 0) as [Haa|_];
      [|reflexivity].
    replace (streq (type a) (type b)) with false
      by (symmetry; apply not_true_iff_false; by intros ?%streq_true).
    replace (streq (type b) (type a)) with false
      by (symmetry; apply not_true_iff_false; intros Heq%streq_true; congruence).
    rewrite Ha, Hb, Haa. reflexivity. }
  intros items Hdepth Hitems.
  fold (buildTree getContent GitHubLib.skipDirs path depth maxDepth).
  rewrite buildTree_unfold, Hitems.
  destruct (Nat.ltb_spec maxDepth depth); [lia|].
  rewrite arraySort_perm. clear Hitems.
  induction items as [|item items IH]; [reflexivity|].
  cbn [flat_map List.filter]. destruct (skippedItem GitHubLib.skipDirs item); cbn [negb].
  - exact IH.
  - cbn [app List.map nodeOf name]. by apply perm_skip.
Qed.

(** The tree of the sample repository: its levels hold directories and
    files only, and the directories come first. *)
Lemma built_tree_lists_directories_first_witness :
  let tree := FetchRoute.buildFileTree (H := asciiRuntime) sampleRepo [] 0 in
  consistentOn (compareNodes (H := asciiRuntime)) tree = true
  /\ dirsFirst tree = true.
Proof.
  cbv zeta. split; [vm_compute; reflexivity|].
  destruct (built_tree_lists_directories_first (H := asciiRuntime) sampleRepo [] 0 5)
    as (_ & _ & Hroute & _).
  apply Hroute. vm_compute. reflexivity.
Defined.

Section Pruning.
Context `{Runtime}.

Lemma pruneNode_name (node : TreeNode) :
  name (GitHubLib.pruneNode node) = name node
  /\ type (GitHubLib.pruneNode node) = type node.
Proof. by destruct node. Qed.

Lemma keep_pruneNode (node : TreeNode) :
  GitHubLib.keepNode (name (GitHubLib.pruneNode node)) (type (GitHubLib.pruneNode node))
  = GitHubLib.keepNode (name node) (type node).
Proof. by destruct (pruneNode_name node) as [-> ->]. Qed.

Lemma pruneFileTree_cons (x : TreeNode) (l : list TreeNode) :
  GitHubLib.pruneFileTree (x :: l)
  = (if GitHubLib.keepNode (name x) (type x) then [GitHubLib.pruneNode x] else [])
    ++ GitHubLib.pruneFileTree l.
Proof. reflexivity. Qed.

Lemma pruneNode_children nm pa ty sz (l : list TreeNode) :
  GitHubLib.pruneNode (mkNode nm pa ty sz (Some l))
  = mkNode nm pa ty sz (Some (GitHubLib.pruneFileTree l)).
Proof. reflexivity. Qed.

(** Pruning a level twice is pruning it once, when that holds below. *)
Lemma prune_level_again (l : list TreeNode) :
  Forall (fun n => GitHubLib.pruneNode (GitHubLib.pruneNode n) = GitHubLib.pruneNode n) l ->
  GitHubLib.pruneFileTree
    (GitHubLib.pruneFileTree l)
  = GitHubLib.pruneFileTree l.
Proof.
  induction 1 as [|x l Hx _ IH]; [reflexivity|].
  rewrite pruneFileTree_cons. destruct (GitHubLib.keepNode (name x) (type x)) eqn:Hk.
  - cbn [app]. rewrite pruneFileTree_cons, keep_pruneNode, Hk, Hx, IH. reflexivity.
  - exact IH.
Qed.

Lemma pruneNode_again (node : TreeNode) :
  GitHubLib.pruneNode (GitHubLib.pruneNode node) = GitHubLib.pruneNode node.
Proof.
  induction node as [nm pa ty sz ch IH] using TreeNode_nested_ind.
  destruct ch as [l|]; [|reflexivity].
  rewrite !pruneNode_children. f_equal. f_equal. apply prune_level_again. exact IH.
Qed.

(** The nodes left at a level and below it all pass the filter. *)
Lemma prune_level_kept (l : list TreeNode) :
  Forall (fun n => forall d,
            Forall (fun entry => GitHubLib.keepNode (name (snd entry)) (type (snd entry)) = true)
                   (List.tl (nodeAt d (GitHubLib.pruneNode n)))) l ->
  forall d,
    Forall (fun entry => GitHubLib.keepNode (name (snd entry)) (type (snd entry)) = true)
           (nodesAt d (GitHubLib.pruneFileTree l)).
Proof.
  induction 1 as [|x l Hx _ IH]; intros d; [constructor|].
  rewrite pruneFileTree_cons. destruct (GitHubLib.keepNode (name x) (type x)) eqn:Hk; [|apply IH].
  unfold nodesAt in *. cbn [app flat_map]. apply Forall_app. split; [|apply IH].
  specialize (Hx d). destruct (GitHubLib.pruneNode x) as [nm pa ty sz ch] eqn:Hp.
  cbn [nodeAt List.tl] in *. constructor; [|exact Hx].
  cbn [snd]. rewrite <- Hp, keep_pruneNode. exact Hk.
Qed.

Lemma pruneNode_kept (node : TreeNode) : forall d,
  Forall (fun entry => GitHubLib.keepNode (name (snd entry)) (type (snd entry)) = true)
         (List.tl (nodeAt d (GitHubLib.pruneNode node))).
Proof.
  induction node as [nm pa ty sz ch IH] using TreeNode_nested_ind. intros d.
  destruct ch as [l|]; [|constructor].
  rewrite pruneNode_children. cbn [nodeAt List.tl].
  apply (prune_level_kept l IH (S d)).
Qed.

(** The file paths of a pruned level are among those of the level. *)
Lemma prune_level_paths (l : list TreeNode) :
  Forall (fun n => forall base,
            sublist (pathsOfNode base (GitHubLib.pruneNode n)) (pathsOfNode base n)) l ->
  forall base,
    sublist (flat_map (pathsOfNode base) (GitHubLib.pruneFileTree l))
            (flat_map (pathsOfNode base) l).
Proof.
  induction 1 as [|x l Hx _ IH]; intros base; [constructor|].
  rewrite pruneFileTree_cons. cbn [flat_map].
  destruct (GitHubLib.keepNode (name x) (type x)).
  - cbn [app flat_map]. apply sublist_app; [apply Hx|apply IH].
  - cbn [app]. apply sublist_inserts_l, IH.
Qed.

Lemma pruneNode_paths (node : TreeNode) : forall base,
  sublist (pathsOfNode base (GitHubLib.pruneNode node)) (pathsOfNode base node).
Proof.
  induction node as [nm pa ty sz ch IH] using TreeNode_nested_ind. intros base.
  destruct ch as [l|]; [|reflexivity].
  rewrite pruneNode_children. cbn [pathsOfNode].
  destruct (isFile ty); [reflexivity|].
  apply (prune_level_paths l IH).
Qed.

End Pruning.

(** X18. [pruneFileTree] leaves, at every depth, only nodes that pass its
    filter (no directory named in its skip list, no file named in its list
    of lock files or with one of the listed extensions); pruning a pruned
    tree changes nothing; and the file paths of the pruned tree are, in
    order, among the file paths of the tree. *)
Theorem pruned_tree_is_filtered_at_every_depth `{Runtime} (tree : list TreeNode) :
  let pruned := GitHubLib.pruneFileTree tree in
  Forall (fun entry => GitHubLib.keepNode (name (snd entry)) (type (snd entry)) = true)
         (nodesAt 0 pruned)
  /\ GitHubLib.pruneFileTree pruned = pruned
  /\ (forall basePath, sublist (getFilePaths pruned basePath) (getFilePaths tree basePath)).
Proof.
  cbn zeta. unfold getFilePaths. split; [|split].
  - apply prune_level_kept, List.Forall_forall. intros n _. apply pruneNode_kept.
  - apply prune_level_again, List.Forall_forall. intros n _. apply pruneNode_again.
  - apply prune_level_paths, List.Forall_forall. intros n _. apply pruneNode_paths.
Qed.

Section Paths.

Lemma paths_level (l : list TreeNode) (base : jsstring) :
  Forall (fun n => forallb (fun nm => negb (streq nm [])) (namesOfNode n) = true ->
                   forall base, base <> [] ->
                     pathsOfNode base n
                     = List.map (fun p => base ++ str "/" ++ p) (pathsOfNode [] n)) l ->
  forallb (fun nm => negb (streq nm [])) (flat_map namesOfNode l) = true ->
  base <> [] ->
  flat_map (pathsOfNode base) l
  = List.map (fun p => base ++ str "/" ++ p) (flat_map (pathsOfNode []) l).
Proof.
  intros Hall. revert base.
  induction Hall as [|x l Hx _ IH]; intros base Hnames Hbase; [reflexivity|].
  cbn [flat_map] in *. rewrite forallb_app in Hnames.
  apply andb_true_iff in Hnames as [Hn Hrest].
  rewrite map_app, (Hx Hn base Hbase), (IH base Hrest Hbase). reflexivity.
Qed.

Lemma paths_node (node : TreeNode) :
  forallb (fun nm => negb (streq nm [])) (namesOfNode node) = true ->
  forall base, base <> [] ->
    pathsOfNode base node
    = List.map (fun p => base ++ str "/" ++ p) (pathsOfNode [] node).
Proof.
  induction node as [nm pa ty sz ch IH] using TreeNode_nested_ind.
  intros Hnames base Hbase. cbn [namesOfNode forallb] in Hnames.
  apply andb_true_iff in Hnames as [Hnm Hbelow].
  assert (Hne : nm <> []).
  { intros ->. discriminate. }
  cbn [pathsOfNode].
  destruct base as [|b base]; [done|]. destruct nm as [|n nm]; [done|].
  destruct (isFile ty); [reflexivity|].
  destruct ch as [l|]; [|reflexivity]. cbn [default] in IH.
  rewrite (paths_level l ((b :: base) ++ str "/" ++ n :: nm) IH Hbelow) by done.
  rewrite (paths_level l (n :: nm) IH Hbelow) by done.
  rewrite map_map. apply map_ext. intros p. by rewrite <- !app_assoc.
Qed.

End Paths.

(** X19. For a tree whose names are not empty, the file paths under a
    base path that is not empty are the file paths without base, each
    prefixed with the base path and a slash. *)
Theorem file_paths_under_base (tree : list TreeNode) (basePath : jsstring) :
  forallb (fun nm => negb (streq nm [])) (renderedNames tree) = true ->
  basePath <> [] ->
  getFilePaths tree basePath
  = List.map (fun p => basePath ++ str "/" ++ p) (getFilePaths tree []).
Proof.
  intros Hnames Hbase. unfold getFilePaths, renderedNames in *.
  apply paths_level; [|exact Hnames|exact Hbase].
  apply List.Forall_forall. intros n _. apply paths_node.
Qed.

Lemma file_paths_under_base_witness :
  forallb (fun nm => negb (streq nm [])) (renderedNames sampleTree) = true
  /\ str "app" <> []
  /\ getFilePaths sampleTree (str "app")
     = List.map (fun p => str "app" ++ str "/" ++ p) (getFilePaths sampleTree []).
Proof.
  split; [reflexivity|]. split; [discriminate|].
  apply (file_paths_under_base sampleTree (str "app")); [reflexivity|discriminate].
Defined.

(** X20. With a width of 0 the loop of [fetchFilesBatch] never advances:
    for a list of paths that is not empty it is not left, however long it
    runs, and no file is fetched; for no path at all it returns at once. *)
Theorem batch_width_zero_never_returns
    (getContent : jsstring -> Contents) (p : jsstring) (paths : list jsstring) :
  (forall fuel results,
      GitHubLib.batchLoop fuel getContent (p :: paths) 0 0 results = None)
  /\ GitHubLib.fetchFilesBatch getContent (p :: paths) 0 = None
  /\ GitHubLib.fetchFilesBatch getContent [] 0 = Some [].
Proof.
  assert (Hloop : forall fuel results,
             GitHubLib.batchLoop fuel getContent (p :: paths) 0 0 results = None).
  { induction fuel as [|fuel IH]; intros results; [reflexivity|].
    cbn [GitHubLib.batchLoop length Nat.leb Nat.add]. apply IH. }
  split; [exact Hloop|]. split; [apply Hloop|reflexivity].
Qed.

Section ReportedPaths.
Context `{Runtime}.
Variable getContent : jsstring -> Contents.
Variable skipDirs : list jsstring.
Variable maxDepth : nat.
Hypothesis Hhost : reportsPathsByName getContent.

Lemma flat_map_ext_In {A B} (f g : A -> list B) (l : list A) :
  (forall x, In x l -> f x = g x) -> flat_map f l = flat_map g l.
Proof.
  induction l as [|x l IH]; intros Hfg; [reflexivity|]. cbn [flat_map].
  rewrite (Hfg x) by (by left). f_equal. apply IH. intros y Hy. apply Hfg. by right.
Qed.

Lemma buildFrom_paths (k : nat) : forall dir depth,
  isSingle (getContent dir) = false ->
  flat_map (pathsOfNode dir) (buildFrom getContent skipDirs k dir depth maxDepth)
  = flat_map reportedPathsOfNode (buildFrom getContent skipDirs k dir depth maxDepth).
Proof.
  destruct Hhost as [_ Hlist].
  induction k as [|k IH]; intros dir depth Hdir; cbn [buildFrom];
    (destruct (maxDepth <? depth)%nat; [reflexivity|]);
    (destruct (getContent dir) as [items|one text|err] eqn:Hitems;
     [|discriminate Hdir|reflexivity]);
    cbn [itemsOf];
    apply flat_map_ext_In; intros node Hnode;
    apply in_arraySort, in_flat_map in Hnode as (item & Hitem & Hnode);
    (destruct (isDir (i_type item) && includesStr skipDirs (i_name item));
     [by destruct Hnode|]);
    destruct Hnode as [<-|[]];
    destruct (Hlist dir items item Hitems Hitem) as [Hpath Hbelow];
    cbn [pathsOfNode reportedPathsOfNode];
    change (match dir with [] => i_name item | _ :: _ => dir ++ str "/" ++ i_name item end)
      with (pathUnder dir (i_name item));
    rewrite <- Hpath;
    (destruct (isFile (i_type item)); [reflexivity|]);
    (destruct (isDir (i_type item) && (depth <? maxDepth)%nat) eqn:Hopen; [|reflexivity]).
  - reflexivity.
  - apply IH, Hbelow. by apply andb_true_iff in Hopen as [? _].
Qed.

End ReportedPaths.

(** X21. For a source host that answers like the contents API of GitHub
    (the root and the directories of a listing are answered with arrays or
    errors, and every entry of an array bears the path of the listed
    directory followed by its name), the paths [getFilePaths] computes from
    the names of a tree built from the root are the paths the host
    reported for its files, in the same order: the paths the fetch route
    hands out are paths the host knows. *)
Theorem file_paths_are_the_reported_paths `{Runtime}
    (getContent : jsstring -> Contents) (depth maxDepth : nat) :
  reportsPathsByName getContent ->
  getFilePaths (GitHubLib.buildFileTree getContent [] depth maxDepth) []
  = reportedPaths (GitHubLib.buildFileTree getContent [] depth maxDepth)
  /\ getFilePaths (FetchRoute.buildFileTree getContent [] depth) []
     = reportedPaths (FetchRoute.buildFileTree getContent [] depth).
Proof.
  intros Hhost. unfold getFilePaths, reportedPaths, GitHubLib.buildFileTree,
    FetchRoute.buildFileTree, buildTree.
  split; apply buildFrom_paths; try exact Hhost; apply Hhost.
Qed.

Lemma file_paths_are_the_reported_paths_witness :
  reportsPathsByName samplePathHost
  /\ samplePathHost (str "src/main.js")
     = Single (mkItem (str "main.js") (str "src/main.js") (str "file") 1 []) (str "y")
  /\ getFilePaths (FetchRoute.buildFileTree (H := asciiRuntime) samplePathHost [] 0) []
     = [str "src/main.js"; str "README.md"].
Proof.
  assert (Hhost : reportsPathsByName samplePathHost).
  { split; [reflexivity|]. intros dir items item Hitems Hitem.
    unfold samplePathHost in Hitems.
    destruct (streq dir []) eqn:Hroot.
    - apply streq_true in Hroot as ->. injection Hitems as <-.
      destruct Hitem as [<-|[<-|[]]]; (split; [reflexivity|]); intros Hd;
        vm_compute in Hd; first [discriminate Hd|vm_compute; reflexivity].
    - destruct (streq dir (str "src")) eqn:Hsrc.
      + apply streq_true in Hsrc as ->. injection Hitems as <-.
        destruct Hitem as [<-|[]]. split; [reflexivity|discriminate].
      + destruct (streq dir (str "README.md")); [discriminate|].
        destruct (streq dir (str "src/main.js")); discriminate. }
  split; [exact Hhost|]. split; [reflexivity|].
  destruct (file_paths_are_the_reported_paths (H := asciiRuntime) samplePathHost 0 5 Hhost)
    as [_ ->].
  reflexivity.
Defined.

(* ===================================================================== *)
(** ** Selection over a rendered tree *)
(* ===================================================================== *)

(** The names the selectors find in the rendering of a tree are the
    rendered names the query mentions. *)
Lemma mentionedFiles_rendering `{Runtime} (query : jsstring) (tree : list TreeNode) :
  forallb lineSafe (renderedNames tree) = true ->
  mentionedFiles query (treeToString tree [])
  = List.filter (fun nm => includes (toLowerCase query) (toLowerCase nm))
                (renderedNames tree).
Proof.
  intros Hsafe. rewrite mentionedFiles_parse. f_equal.
  unfold parseTreeNames, treeToString, renderedNames in *.
  destruct (level_readsBack tree) with (prefix := @nil char) as (-> & <- & Hlines);
    [|done|exact Hsafe|].
  - apply List.Forall_forall. intros node _. apply node_readsBack.
  - rewrite (splitLines_lines _ Hlines), omap_app. simpl. by rewrite app_nil_r.
Qed.

(** X22. When the query mentions, in any case, the name of a node of the
    tree, both selectors answer from the rendering alone: the files are
    the first 15 rendered names that the lower-cased query contains, in
    the order of the rendering, and the answer of the model plays no part.
    The library marks the answer with the tier explicit; the chat route
    gives no tier. The names of the tree are not empty and hold no line
    terminator. *)
Theorem mentioned_names_are_selected_without_model `{Runtime}
    (model : SelectionPrompt -> ModelReply) (query owner repo : jsstring)
    (tree : list TreeNode) :
  forallb lineSafe (renderedNames tree) = true ->
  let mentioned := List.filter (fun nm => includes (toLowerCase query) (toLowerCase nm))
                               (renderedNames tree) in
  mentioned <> [] ->
  OpenAILib.analyzeFileSelection model query (treeToString tree []) owner repo
  = Some {| files := namesAsFiles (take 15 mentioned);
            reason := Some (JStr (str "Files explicitly mentioned in query"));
            tier := Some (str "explicit") |}
  /\ ChatRoute.selectRelevantFiles model query (treeToString tree []) owner repo
     = Some {| files := namesAsFiles (take 15 mentioned);
               reason := Some (JStr (str "Files mentioned in query"));
               tier := None |}.
Proof.
  intros Hsafe mentioned Hmentioned.
  unfold OpenAILib.analyzeFileSelection, ChatRoute.selectRelevantFiles,
    OpenAILib.extractMentionedFiles, ChatRoute.findMentionedFiles.
  rewrite (mentionedFiles_rendering query tree Hsafe). fold mentioned.
  destruct mentioned as [|nm rest]; [done|]. by split.
Qed.

Lemma mentioned_names_are_selected_without_model_witness :
  forallb lineSafe (renderedNames sampleTree) = true
  /\ List.filter (fun nm => includes (toLowerCase (Runtime := asciiRuntime)
                                        (str "Explain INDEX.js"))
                                     (toLowerCase (Runtime := asciiRuntime) nm))
                 (renderedNames sampleTree) <> []
  /\ OpenAILib.analyzeFileSelection (H := asciiRuntime) (fun _ => ReplyError [])
       (str "Explain INDEX.js") (treeToString sampleTree []) [] []
     = Some {| files := namesAsFiles [str "index.js"];
               reason := Some (JStr (str "Files explicitly mentioned in query"));
               tier := Some (str "explicit") |}.
Proof.
  split; [reflexivity|]. split; [vm_compute; discriminate|].
  apply (mentioned_names_are_selected_without_model (H := asciiRuntime)
           (fun _ => ReplyError []) (str "Explain INDEX.js") [] [] sampleTree);
    [reflexivity|vm_compute; discriminate].
Defined.

(* ===================================================================== *)
(** ** The input of the fetch route *)
(* ===================================================================== *)

Section UrlPattern.

Lemma run_host {A} (prev : option char) (rest : jsstring)
    (k : option char -> jsstring -> option A) :
  run (lit "github.com/") prev (str "github.com/" ++ rest) k = k (Some SLASH) rest.
Proof. reflexivity. Qed.

(** A literal matches only where the text starts with it. *)
Lemma run_literal_startsWith {A} (L : jsstring) : forall prev s
    (k : option char -> jsstring -> option A) a,
  run (seqs (List.map chr L)) prev s k = Some a -> startsWith L s = true.
Proof.
  induction L as [|c L IH]; intros prev s k a Hrun; [reflexivity|].
  destruct L as [|d L].
  - cbn in Hrun. destruct s as [|x s]; [discriminate|]. cbn [startsWith].
    destruct (N.eqb c x); [reflexivity|discriminate].
  - change (seqs (List.map chr (c :: d :: L)))
      with (Seq (chr c) (seqs (List.map chr (d :: L)))) in Hrun.
    cbn [run chr] in Hrun. destruct s as [|x s]; [discriminate|].
    change (startsWith (c :: d :: L) (x :: s))
      with (N.eqb c x && startsWith (d :: L) s).
    destruct (N.eqb c x); [|discriminate].
    apply IH in Hrun. by rewrite Hrun.
Qed.

Lemma urlMatchHere_startsWith second prev s groups :
  urlMatchHere second prev s = Some groups -> startsWith (str "github.com/") s = true.
Proof. unfold urlMatchHere, lit. apply run_literal_startsWith. Qed.

Lemma firstMatch_none second : forall s prev,
  includes s (str "github.com/") = false ->
  firstMatch (urlMatchHere second) prev s = None.
Proof.
  induction s as [|c s IH]; intros prev Hs; cbn [includes firstMatch] in *;
    apply orb_false_iff in Hs as [Hhere Hlater].
  - destruct (urlMatchHere second prev []) eqn:Hm; [|reflexivity].
    apply urlMatchHere_startsWith in Hm. congruence.
  - destruct (urlMatchHere second prev (c :: s)) eqn:Hm; [|by apply IH].
    apply urlMatchHere_startsWith in Hm. congruence.
Qed.

(** A greedy repetition takes the whole run of characters of its class
    when the rest of the pattern accepts what follows. *)
Lemma repMin_max {A} (p : char -> bool) (k : option char -> jsstring -> option A)
    (rest : jsstring) (a : A) :
  match rest with [] => True | c :: _ => p c = false end ->
  (forall prev, k prev rest = Some a) ->
  forall w n prev,
    forallb p w = true -> (n <= length w)%nat ->
    repMin p n prev (w ++ rest) k = Some a.
Proof.
  intros Hrest Hk. induction w as [|c w IH]; intros n prev Hw Hn.
  - cbn [length] in Hn. assert (n = 0%nat) as -> by lia. cbn [app].
    destruct rest as [|c rest]; cbn [repMin]; [apply Hk|]. rewrite Hrest. apply Hk.
  - cbn [forallb] in Hw. apply andb_true_iff in Hw as [Hc Hw].
    cbn [app repMin]. rewrite Hc, IH; [done|done|]. cbn [length] in Hn. lia.
Qed.

Lemma between_app (w rest : jsstring) : between (w ++ rest) rest = w.
Proof.
  unfold between. rewrite length_app.
  replace (length w + length rest - length rest)%nat with (length w) by lia.
  by rewrite take_app_length.
Qed.

Variable second : char -> bool.
Hypothesis second_notSlash : second SLASH = false.


(** The pattern on the host name followed by an owner only. *)
Lemma urlMatchHere_profile prev (owner tail : jsstring) :
  owner <> [] -> forallb notSlash owner = true ->
  tail = [] \/ tail = [SLASH]
  \/ (exists c t, tail = SLASH :: c :: t /\ second c = false) ->
  urlMatchHere second prev (str "github.com/" ++ owner ++ tail) = Some (owner, None).
Proof.
  intros Howner Hslash Htail. unfold urlMatchHere.
  rewrite run_host. cbn [run].
  apply repMin_max; [| |exact Hslash|destruct owner; [done|cbn; lia]].
  - destruct Htail as [->|[->|(c & t & -> & _)]]; done.
  - intros p2. rewrite between_app.
    destruct Htail as [->|[->|(c & t & -> & Hc)]]; cbn [run chr repMin];
      rewrite ?Hc; reflexivity.
Qed.




End UrlPattern.

Section GitSuffix.




End GitSuffix.

Section Splitting.

Lemma includes_char (c : char) (s : jsstring) :
  includes s [c] = existsb (N.eqb c) s.
Proof.
  induction s as [|x s IH]; [reflexivity|].
  cbn [includes startsWith existsb]. rewrite IH. by destruct s; rewrite andb_true_r.
Qed.

Lemma startsWith_prefix (p s : jsstring) :
  startsWith p s = true -> exists rest, s = p ++ rest.
Proof.
  revert s. induction p as [|a p IH]; intros s Hs; [by exists s|].
  destruct s as [|b s]; [discriminate|]. cbn [startsWith] in Hs.
  apply andb_true_iff in Hs as [Hab Hs]. apply N.eqb_eq in Hab as ->.
  destruct (IH s Hs) as [rest ->]. by exists rest.
Qed.

Lemma includes_host_slash (s : jsstring) :
  includes s [SLASH] = false -> includes s (str "github.com/") = false.
Proof.
  rewrite includes_char. induction s as [|x s IH]; intros Hs; [reflexivity|].
  cbn [existsb] in Hs. apply orb_false_iff in Hs as [Hx Hs].
  cbn [includes]. rewrite (IH Hs), orb_false_r.
  destruct (startsWith (str "github.com/") (x :: s)) eqn:Hst; [|reflexivity].
  apply startsWith_prefix in Hst as [rest Heq].
  assert (Hin : existsb (N.eqb SLASH) (x :: s) = true).
  { rewrite Heq. rewrite existsb_app. reflexivity. }
  cbn [existsb] in Hin. by rewrite Hx, Hs in Hin.
Qed.

Lemma splitOn_plain (sep : char) (s : jsstring) :
  forallb (fun c => negb (N.eqb c sep)) s = true -> splitOn sep s = [s].
Proof.
  induction s as [|c s IH]; [reflexivity|]. cbn [forallb splitOn].
  intros [Hc Hs]%andb_true_iff. apply negb_true_iff in Hc. by rewrite Hc, (IH Hs).
Qed.

Lemma splitOn_piece (sep : char) (a b : jsstring) :
  forallb (fun c => negb (N.eqb c sep)) a = true ->
  splitOn sep (a ++ sep :: b) = a :: splitOn sep b.
Proof.
  induction a as [|c a IH]; cbn [forallb app splitOn].
  - intros _. by rewrite N.eqb_refl.
  - intros [Hc Ha]%andb_true_iff. apply negb_true_iff in Hc. by rewrite Hc, (IH Ha).
Qed.

End Splitting.

Section ShortForms.

Lemma startsWith_app (p a b : jsstring) :
  startsWith p a = true -> startsWith p (a ++ b) = true.
Proof.
  intros [rest ->]%startsWith_prefix. rewrite <- app_assoc.
  induction p as [|c p IH]; [reflexivity|]. cbn [app startsWith].
  by rewrite N.eqb_refl, IH.
Qed.

Lemma includes_app_false (a b needle : jsstring) :
  includes (a ++ b) needle = false -> includes a needle = false.
Proof.
  induction a as [|c a IH]; cbn [app].
  - intros Hb. destruct needle as [|n needle]; [by destruct b|reflexivity].
  - cbn [includes]. intros [Hhere Hlater]%orb_false_iff.
    rewrite (IH Hlater), orb_false_r.
    destruct (startsWith needle (c :: a)) eqn:Hst; [|reflexivity].
    pose proof (startsWith_app _ _ b Hst) as Happ. cbn [app] in Happ. congruence.
Qed.

Lemma parse_plain_pair second (owner repo : jsstring) :
  owner <> [] -> repo <> [] ->
  forallb notSlash owner = true -> forallb notSlash repo = true ->
  includes (owner ++ [SLASH] ++ repo) (str "github.com/") = false ->
  parseInputWith second (owner ++ [SLASH] ++ repo) = RepoInput owner repo.
Proof.
  intros Howner Hrepo Ho Hr Hhost. unfold parseInputWith.
  rewrite (firstMatch_none second _ None Hhost).
  replace (includes (owner ++ [SLASH] ++ repo) [SLASH]) with true.
  2:{ symmetry. rewrite includes_char, existsb_app. cbn [app existsb].
      rewrite N.eqb_refl. by rewrite orb_true_r. }
  cbn [app]. rewrite (splitOn_piece SLASH owner repo Ho), (splitOn_plain SLASH repo Hr).
  destruct owner; [done|]. by destruct repo.
Qed.

Lemma parse_name second (name : jsstring) :
  forallb notSlash name = true -> parseInputWith second name = ProfileInput name.
Proof.
  intros Hname. unfold parseInputWith.
  assert (Hslash : includes name [SLASH] = false).
  { rewrite includes_char. apply not_true_iff_false. intros (c & Hin & Hc)%existsb_exists.
    rewrite forallb_forall in Hname. specialize (Hname c Hin).
    unfold notSlash in Hname. apply N.eqb_eq in Hc as <-. by rewrite N.eqb_refl in Hname. }
  by rewrite (firstMatch_none second _ None (includes_host_slash _ Hslash)), Hslash.
Qed.

Lemma parse_owner_only second (owner : jsstring) :
  forallb notSlash owner = true ->
  includes (owner ++ [SLASH]) (str "github.com/") = false ->
  parseInputWith second (owner ++ [SLASH]) = ProfileInput (owner ++ [SLASH]).
Proof.
  intros Ho Hhost. unfold parseInputWith.
  rewrite (firstMatch_none second _ None Hhost).
  replace (includes (owner ++ [SLASH]) [SLASH]) with true.
  2:{ symmetry. rewrite includes_char, existsb_app. cbn [existsb].
      rewrite N.eqb_refl. by rewrite orb_true_r. }
  rewrite (splitOn_piece SLASH owner [] Ho). cbn [splitOn]. by destruct owner.
Qed.

End ShortForms.



(** X24. The short forms of the input. An owner, a slash and a repository
    name, without further slash and without the host name followed by a
    slash, is read as that repository by both copies of
    [parseGitHubInput]; a name without slash is read as a profile; an
    owner followed by a slash and nothing is read as the profile of the
    whole input, slash included. *)
Theorem owner_and_repository_pair_is_read_back (owner repo raw : jsstring) :
  owner <> [] -> repo <> [] ->
  forallb notSlash owner = true -> forallb notSlash repo = true ->
  includes (owner ++ [SLASH] ++ repo) (str "github.com/") = false ->
  trim raw = owner ++ [SLASH] ++ repo ->
  FetchRouteInput.parseGitHubInput (owner ++ [SLASH] ++ repo) = RepoInput owner repo
  /\ GitHubLibInput.parseGitHubInput raw = RepoInput owner repo
  /\ FetchRouteInput.parseGitHubInput owner = ProfileInput owner
  /\ FetchRouteInput.parseGitHubInput (owner ++ [SLASH]) = ProfileInput (owner ++ [SLASH]).
Proof.
  intros Howner Hrepo Ho Hr Hhost Hraw.
  unfold FetchRouteInput.parseGitHubInput, GitHubLibInput.parseGitHubInput.
  rewrite Hraw. repeat split.
  - by apply parse_plain_pair.
  - by apply parse_plain_pair.
  - by apply parse_name.
  - apply parse_owner_only; [done|].
    apply (includes_app_false _ repo). by rewrite <- app_assoc.
Qed.

Lemma owner_and_repository_pair_is_read_back_witness :
  str "octocat" <> [] /\ str "hello" <> []
  /\ forallb notSlash (str "octocat") = true /\ forallb notSlash (str "hello") = true
  /\ includes (str "octocat" ++ [SLASH] ++ str "hello") (str "github.com/") = false
  /\ trim (str " octocat/hello ") = str "octocat" ++ [SLASH] ++ str "hello"
  /\ GitHubLibInput.parseGitHubInput (str " octocat/hello ")
     = RepoInput (str "octocat") (str "hello").
Proof.
  destruct (owner_and_repository_pair_is_read_back
              (str "octocat") (str "hello") (str " octocat/hello "))
    as (_ & Hlib & _); try reflexivity; try discriminate.
  split; [discriminate|]. split; [discriminate|]. split; [reflexivity|].
  split; [reflexivity|]. split; [reflexivity|]. split; [reflexivity|].
  exact Hlib.
Defined.

(* ===================================================================== *)
(** ** The diagram helpers *)
(* ===================================================================== *)

Section NodeIds.
Import Mermaid.

Lemma replaced_ok (c : char) :
  (fun c => isAlnum c || N.eqb c UNDERSCORE)
    (if negb (isAlnum c) then UNDERSCORE else c) = true.
Proof. cbn beta. destruct (isAlnum c) eqn:Hc; cbn [negb]; [by rewrite Hc|reflexivity]. Qed.

Lemma ok_fixed (c : char) :
  isAlnum c || N.eqb c UNDERSCORE = true ->
  (if negb (isAlnum c) then UNDERSCORE else c) = c.
Proof.
  destruct (isAlnum c); cbn [negb orb]; [done|]. by intros ->%N.eqb_eq.
Qed.

Lemma replaceChars_fixed (id : jsstring) :
  forallb (fun c => isAlnum c || N.eqb c UNDERSCORE) id = true ->
  replaceChars (fun c => negb (isAlnum c)) UNDERSCORE id = id.
Proof.
  unfold replaceChars. induction id as [|c id IH]; [reflexivity|].
  cbn [forallb List.map]. intros [Hc Hid]%andb_true_iff.
  by rewrite (ok_fixed c Hc), (IH Hid).
Qed.

Lemma replaceChars_ok (id : jsstring) :
  forallb (fun c => isAlnum c || N.eqb c UNDERSCORE)
          (replaceChars (fun c => negb (isAlnum c)) UNDERSCORE id) = true.
Proof.
  unfold replaceChars. induction id as [|c id IH]; [reflexivity|].
  cbn [List.map forallb]. rewrite IH, andb_true_r. apply replaced_ok.
Qed.

Lemma forallb_take {A} (p : A -> bool) (n : nat) (l : list A) :
  forallb p l = true -> forallb p (take n l) = true.
Proof.
  revert n. induction l as [|x l IH]; intros [|n]; try reflexivity.
  cbn [forallb take]. intros [Hx Hl]%andb_true_iff. by rewrite Hx, IH.
Qed.

End NodeIds.

(** X25. For every identifier that is not empty, [sanitizeNodeId] gives a
    name a diagram accepts: between 1 and 30 characters, each a letter, a
    digit or an underscore, the first one not a digit. Sanitizing such a
    name again gives the same name. *)
Theorem sanitized_node_id_is_a_name (random id : jsstring) :
  id <> [] ->
  let result := Mermaid.sanitizeNodeId random id in
  (1 <= length result <= 30)%nat
  /\ forallb (fun c => Mermaid.isAlnum c || N.eqb c Mermaid.UNDERSCORE) result = true
  /\ (forall c, head result = Some c -> Mermaid.isDigit c = false)
  /\ Mermaid.sanitizeNodeId random result = result.
Proof.
  intros Hid. cbn zeta.
  assert (Hshape : exists prefixed,
             Mermaid.sanitizeNodeId random id = take 30 prefixed
             /\ prefixed <> []
             /\ forallb (fun c => Mermaid.isAlnum c || N.eqb c Mermaid.UNDERSCORE)
                        prefixed = true
             /\ forall c, head prefixed = Some c -> Mermaid.isDigit c = false).
  { unfold Mermaid.sanitizeNodeId. destruct id as [|c0 id0]; [done|].
    set (replaced := Mermaid.replaceChars _ _ (c0 :: id0)).
    assert (Hok : forallb (fun c => Mermaid.isAlnum c || N.eqb c Mermaid.UNDERSCORE)
                          replaced = true) by apply replaceChars_ok.
    assert (Hne : replaced <> []) by (unfold replaced, Mermaid.replaceChars; done).
    eexists. split; [reflexivity|].
    destruct replaced as [|c r]; [done|].
    destruct (Mermaid.isDigit c) eqn:Hc.
    - split; [done|]. split; [exact Hok|]. by intros ? [= <-].
    - split; [done|]. split; [exact Hok|]. by intros ? [= <-]. }
  destruct Hshape as (prefixed & -> & Hpne & Hpok & Hhead).
  assert (Hrok : forallb (fun c => Mermaid.isAlnum c || N.eqb c Mermaid.UNDERSCORE)
                         (take 30 prefixed) = true) by (by apply forallb_take).
  assert (Hrhead : forall c, head (take 30 prefixed) = Some c -> Mermaid.isDigit c = false).
  { intros c Hc. apply Hhead. by destruct prefixed. }
  split; [|split; [exact Hrok|split; [exact Hrhead|]]].
  - rewrite length_take. destruct prefixed; [done|]. cbn [length]. lia.
  - assert (Hlen : (length (take 30 prefixed) <= 30)%nat) by (rewrite length_take; lia).
    revert Hrok Hrhead Hlen.
    assert (Hne : take 30 prefixed <> []) by (by destruct prefixed).
    revert Hne. generalize (take 30 prefixed). intros result Hne Hrok Hrhead Hlen.
    unfold Mermaid.sanitizeNodeId. destruct result as [|c r]; [done|].
    rewrite (replaceChars_fixed _ Hrok), (Hrhead c eq_refl).
    by apply take_ge.
Qed.

Lemma sanitized_node_id_is_a_name_witness :
  str "2nd step!" <> []
  /\ Mermaid.sanitizeNodeId [] (str "2nd step!") = str "_2nd_step_"
  /\ Mermaid.sanitizeNodeId [] (Mermaid.sanitizeNodeId [] (str "2nd step!"))
     = Mermaid.sanitizeNodeId [] (str "2nd step!").
Proof.
  split; [discriminate|]. split; [reflexivity|].
  apply (sanitized_node_id_is_a_name [] (str "2nd step!")). discriminate.
Defined.

Section Labels.
Import Mermaid.

Lemma forallb_drop {A} (p : A -> bool) (n : nat) (l : list A) :
  forallb p l = true -> forallb p (drop n l) = true.
Proof.
  revert n. induction l as [|x l IH]; intros [|n]; try done.
  cbn [forallb drop]. intros [_ Hl]%andb_true_iff. by apply IH.
Qed.

Lemma forallb_rev {A} (p : A -> bool) (l : list A) :
  forallb p l = true -> forallb p (rev l) = true.
Proof.
  intros Hl. apply forallb_forall. intros x Hx%in_rev.
  rewrite forallb_forall in Hl. by apply Hl.
Qed.

Lemma forallb_dropWhile {A} (p q : A -> bool) (l : list A) :
  forallb p l = true -> forallb p (dropWhile q l) = true.
Proof.
  induction l as [|x l IH]; [done|]. cbn [forallb dropWhile].
  intros [Hx Hl]%andb_true_iff. destruct (q x); [by apply IH|].
  cbn [forallb]. by rewrite Hx, Hl.
Qed.

Lemma forallb_trim (p : char -> bool) (s : jsstring) :
  forallb p s = true -> forallb p (trim s) = true.
Proof.
  intros Hs. unfold trim.
  by apply forallb_rev, forallb_dropWhile, forallb_rev, forallb_dropWhile.
Qed.

Lemma replaceRanges_forallb (p : char -> bool) (replacement : jsstring)
    (ms : list (nat * nat)) (s : jsstring) :
  forallb p s = true -> forallb p replacement = true ->
  forallb p (replaceRanges s replacement ms) = true.
Proof.
  intros Hs Hr. unfold replaceRanges.
  induction ms as [|m ms IH]; [exact Hs|]. cbn [fold_right].
  by rewrite !forallb_app, Hr, (forallb_take _ _ _ IH), (forallb_drop _ _ _ IH).
Qed.

Lemma replaceAll_total (r : regex) (replacement s : jsstring) :
  nullable r = false ->
  exists ms, replaceAll r replacement s = Some (replaceRanges s replacement ms).
Proof.
  intros Hr. unfold replaceAll.
  destruct (allMatches_total r s Hr) as [ms ->]. by exists ms.
Qed.

(** What the character replacements and the removal of angle brackets
    make of one character that is kept. *)
Lemma cleaned_char_safe (c : char) :
  let quotes (c : char) :=
    (fun c => if N.eqb SQUOTE c then SQUOTE else c)
      ((fun c => if N.eqb DQUOTE c then SQUOTE else c)
         ((fun c => if N.eqb BACKTICK c then SQUOTE else c) c)) in
  negb (oneOf [LT; GT] (quotes c)) = true ->
  labelSafe ((fun c => if oneOf [NL; CR] c then SPACE else c)
               ((fun c => if oneOf [BACKSLASH; SLASH] c then SPACE else c)
                  (quotes c))) = true.
Proof.
  cbn zeta beta.
  unfold labelSafe, oneOf, LT, GT, BACKTICK, DQUOTE, SQUOTE, BACKSLASH, SLASH,
    SPACE, NL, CR. cbn [existsb].
  assert (Hcases : c = 60 \/ c = 62 \/ c = 96 \/ c = 34 \/ c = 39 \/ c = 92
                   \/ c = 47 \/ c = 10 \/ c = 13 \/ c = 32
                   \/ (c <> 60 /\ c <> 62 /\ c <> 96 /\ c <> 34 /\ c <> 39
                       /\ c <> 92 /\ c <> 47 /\ c <> 10 /\ c <> 13 /\ c <> 32))
    by lia.
  destruct Hcases as [->|[->|[->|[->|[->|[->|[->|[->|[->|[->|Hother]]]]]]]]]];
    try (vm_compute; done).
  destruct Hother as (H1 & H2 & H3 & H4 & H5 & H6 & H7 & H8 & H9 & H10).
  intros _.
  repeat first
    [ progress cbn [orb negb]
    | match goal with
      | |- context [N.eqb ?a ?b] =>
          rewrite (proj2 (N.eqb_neq a b)) by (try congruence; lia)
      end ].
  reflexivity.
Qed.

End Labels.

(** X26. [sanitizeMermaidText] always returns, and what it returns can
    stand between the double quotes of a label: at most 50 characters,
    none of them a double quote, a backtick, an angle bracket, a slash, a
    backslash, a line feed or a carriage return. *)
Theorem sanitized_label_is_safe (text : jsstring) :
  exists label,
    Mermaid.sanitizeMermaidText text = Some label
    /\ (length label <= 50)%nat
    /\ forallb Mermaid.labelSafe label = true.
Proof.
  unfold Mermaid.sanitizeMermaidText.
  destruct text as [|c0 text0]; [exists []; repeat split; cbn; lia|].
  destruct (replaceAll_total Mermaid.tagRe [] (c0 :: text0) eq_refl) as [ms1 ->].
  set (noTags := replaceRanges (c0 :: text0) [] ms1). cbn zeta.
  set (cleaned := Mermaid.replaceChars (oneOf [NL; CR]) Mermaid.SPACE _).
  assert (Hclean : forallb Mermaid.labelSafe cleaned = true).
  { unfold cleaned, Mermaid.replaceChars.
    rewrite !forallb_forall. intros c Hc.
    apply in_map_iff in Hc as (c6 & <- & Hc).
    apply in_map_iff in Hc as (c5 & <- & Hc).
    apply filter_In in Hc as [Hc Hkeep].
    apply in_map_iff in Hc as (c4 & <- & Hc).
    apply in_map_iff in Hc as (c3 & <- & Hc).
    apply in_map_iff in Hc as (c2 & <- & Hc).
    by apply (cleaned_char_safe c2). }
  destruct (replaceAll_total Mermaid.spacesRe [Mermaid.SPACE] cleaned eq_refl) as [ms2 ->].
  eexists. split; [reflexivity|]. split.
  - rewrite length_take. lia.
  - apply forallb_take, forallb_trim, replaceRanges_forallb; [exact Hclean|reflexivity].
Qed.

Section DiagramTypes.
Import Mermaid.

Lemma startsWith_forallb (p : char -> bool) (prefix s : jsstring) :
  startsWith prefix s = true -> forallb p s = true -> forallb p prefix = true.
Proof.
  intros [rest ->]%startsWith_prefix. rewrite forallb_app.
  by intros [? _]%andb_true_iff.
Qed.

(** A text without capital letter does not start with a word that holds
    one. *)
Lemma lower_text_misses (type firstLine : jsstring) :
  forallb (fun c => negb (isUpper c)) firstLine = true ->
  forallb (fun c => negb (isUpper c)) type = false ->
  startsWith type firstLine = false.
Proof.
  intros Hline Htype. destruct (startsWith type firstLine) eqn:Hst; [|reflexivity].
  by rewrite (startsWith_forallb _ _ _ Hst Hline) in Htype.
Qed.

Lemma asciiLower_lower (s : jsstring) :
  forallb (fun c => negb (isUpper c)) (List.map asciiLower s) = true.
Proof.
  induction s as [|c s IH]; [reflexivity|]. cbn [List.map forallb].
  rewrite IH, andb_true_r. unfold asciiLower, isUpper, inRange.
  destruct (N.leb_spec 65 c), (N.leb_spec c 90); cbn [andb negb];
    repeat match goal with
           | |- context [N.leb ?a ?b] => destruct (N.leb_spec a b)
           end; cbn [andb negb]; try reflexivity; lia.
Qed.

End DiagramTypes.

(** X27. Which diagrams [validateMermaidSyntax] accepts. The first line
    that is not blank is lower-cased before it is compared with the list
    of types, so the types of the list written with a capital letter
    (sequenceDiagram, classDiagram, stateDiagram, erDiagram, gitGraph)
    never match: a code is valid only if it has two lines that are not
    blank and the first, trimmed and lower-cased, starts with graph,
    flowchart, gantt or pie. Lower-casing is taken to leave no ASCII
    capital letter. *)
Theorem valid_diagram_starts_with_lower_case_type `{Runtime} (code : jsstring) :
  (forall s, forallb (fun c => negb (Mermaid.isUpper c)) (toLowerCase s) = true) ->
  Mermaid.validateMermaidSyntax code = Mermaid.Valid ->
  (2 <= length (Mermaid.codeLines code))%nat
  /\ existsb (fun type =>
                startsWith type (toLowerCase (trim (List.hd [] (Mermaid.codeLines code)))))
             (List.map str ["graph"; "flowchart"; "gantt"; "pie"]%string) = true.
Proof.
  intros Hlower. unfold Mermaid.validateMermaidSyntax.
  destruct code as [|c0 code0]; [discriminate|].
  set (lines := Mermaid.codeLines (c0 :: code0)).
  destruct (Nat.ltb_spec (length lines) 2) as [|Hlen]; [discriminate|].
  set (firstLine := toLowerCase (trim (List.hd [] lines))).
  pose proof (Hlower (trim (List.hd [] lines))) as Hline. fold firstLine in Hline.
  destruct (existsb _ Mermaid.validTypes) eqn:Htypes; [|discriminate].
  intros _. split; [exact Hlen|].
  unfold Mermaid.validTypes in Htypes. cbn [List.map existsb] in *.
  rewrite (lower_text_misses (str "sequenceDiagram") firstLine Hline eq_refl),
    (lower_text_misses (str "classDiagram") firstLine Hline eq_refl),
    (lower_text_misses (str "stateDiagram") firstLine Hline eq_refl),
    (lower_text_misses (str "erDiagram") firstLine Hline eq_refl),
    (lower_text_misses (str "gitGraph") firstLine Hline eq_refl) in Htypes.
  cbn [orb] in Htypes. rewrite !orb_false_r in *. exact Htypes.
Qed.

Lemma valid_diagram_starts_with_lower_case_type_witness :
  (forall s, forallb (fun c => negb (Mermaid.isUpper c))
                     (toLowerCase (Runtime := asciiRuntime) s) = true)
  /\ Mermaid.validateMermaidSyntax (H := asciiRuntime)
       (str "Graph TD" ++ [NL] ++ str "  A --> B") = Mermaid.Valid
  /\ Mermaid.validateMermaidSyntax (H := asciiRuntime)
       (str "sequenceDiagram" ++ [NL] ++ str "  A ->> B")
     = Mermaid.Invalid (str "Invalid diagram type")
  /\ (2 <= length (Mermaid.codeLines (str "Graph TD" ++ [NL] ++ str "  A --> B")))%nat.
Proof.
  split; [exact asciiLower_lower|]. split; [reflexivity|]. split; [reflexivity|].
  apply (valid_diagram_starts_with_lower_case_type (H := asciiRuntime)
           (str "Graph TD" ++ [NL] ++ str "  A --> B") asciiLower_lower).
  reflexivity.
Defined.

(* ===================================================================== *)
(** ** Code fences around the answer of the model *)
(* ===================================================================== *)

Section Fences.

Lemma fence_none prev (c d : char) (rest : jsstring) :
  N.eqb 96 c = false -> N.eqb 96 d = false ->
  matchHere fenceRe prev (c :: d :: rest) = None.
Proof.
  intros Hc Hd. unfold matchHere, fenceRe.
  change (lit "```json") with (Seq (chr 96) (lit "``json")).
  change (lit "```") with (Seq (chr 96) (lit "``")).
  cbn [run chr]. rewrite Hc. destruct (N.eqb NL c); [by rewrite Hd|reflexivity].
Qed.

Lemma fence_none_last prev (c : char) :
  N.eqb 96 c = false -> matchHere fenceRe prev [c] = None.
Proof.
  intros Hc. unfold matchHere, fenceRe.
  change (lit "```json") with (Seq (chr 96) (lit "``json")).
  change (lit "```") with (Seq (chr 96) (lit "``")).
  cbn [run chr]. rewrite Hc. by destruct (N.eqb NL c).
Qed.

Lemma fence_none_nil prev : matchHere fenceRe prev [] = None.
Proof. reflexivity. Qed.

Lemma fence_open prev (rest : jsstring) :
  matchHere fenceRe prev (fenceOpen ++ rest) = Some rest.
Proof. reflexivity. Qed.

Lemma fence_close prev : matchHere fenceRe prev fenceClose = Some [].
Proof. reflexivity. Qed.

Lemma notBacktick_false (c : char) : notBacktick c = true -> N.eqb 96 c = false.
Proof. unfold notBacktick. by intros ?%negb_true_iff. Qed.

(** No fence starts inside a text without backtick that is followed by
    the closing fence. *)
Lemma search_to_close (body : jsstring) : forall prev i,
  forallb notBacktick body = true ->
  search fenceRe prev (body ++ fenceClose) i
  = Some ((i + length body)%nat, (i + length body + 4)%nat).
Proof.
  induction body as [|c body IH]; intros prev i Hbody.
  - cbn [app]. change fenceClose with (NL :: [96; 96; 96] : jsstring).
    cbn [search].
    replace (matchHere fenceRe prev (NL :: [96; 96; 96])) with (Some (@nil char))
      by reflexivity.
    cbn [length]. f_equal. f_equal; lia.
  - cbn [forallb] in Hbody. apply andb_true_iff in Hbody as [Hc Hbody].
    cbn [app search].
    assert (Hnone : matchHere fenceRe prev (c :: body ++ fenceClose) = None).
    { destruct body as [|d body]; cbn [app]; unfold fenceClose.
      - apply fence_none; [by apply notBacktick_false|reflexivity].
      - cbn [forallb] in Hbody. apply andb_true_iff in Hbody as [Hd _].
        apply fence_none; by apply notBacktick_false. }
    rewrite Hnone, (IH _ _ Hbody). cbn [length]. f_equal. f_equal; lia.
Qed.

(** No fence is found in a text without backtick. *)
Lemma search_no_fence (body : jsstring) : forall prev i,
  forallb notBacktick body = true -> search fenceRe prev body i = None.
Proof.
  induction body as [|c body IH]; intros prev i Hbody; [reflexivity|].
  cbn [forallb] in Hbody. apply andb_true_iff in Hbody as [Hc Hbody].
  cbn [search].
  assert (Hnone : matchHere fenceRe prev (c :: body) = None).
  { destruct body as [|d body].
    - by apply fence_none_last, notBacktick_false.
    - cbn [forallb] in Hbody. apply andb_true_iff in Hbody as [Hd _].
      apply fence_none; by apply notBacktick_false. }
  rewrite Hnone. by apply IH.
Qed.

Lemma execLoop_step (fuel : nat) (r : regex) (content : jsstring) (lastIndex : nat) :
  execLoop (S fuel) r content lastIndex
  = match exec r content lastIndex with
    | None => Some []
    | Some (i, e) =>
        match execLoop fuel r content e with
        | Some ms => Some ((i, e) :: ms)
        | None => None
        end
    end.
Proof. reflexivity. Qed.

Lemma allMatches_fenced (body : jsstring) :
  forallb notBacktick body = true ->
  allMatches fenceRe (fenceOpen ++ body ++ fenceClose)
  = Some [(0, 8); (8 + length body, 12 + length body)]%nat.
Proof.
  intros Hbody. unfold allMatches.
  set (content := fenceOpen ++ body ++ fenceClose).
  assert (Hlen : length content = (12 + length body)%nat).
  { unfold content. rewrite !length_app. cbn. lia. }
  assert (Hfirst : exec fenceRe content 0 = Some (0, 8)%nat).
  { unfold exec. rewrite Hlen. cbn [Nat.ltb Nat.leb charBefore].
    unfold content. rewrite drop_0.
    change (fenceOpen ++ body ++ fenceClose)
      with (96 :: List.tl fenceOpen ++ body ++ fenceClose) at 1.
    cbn [search].
    change (96 :: List.tl fenceOpen ++ body ++ fenceClose)
      with (fenceOpen ++ body ++ fenceClose).
    rewrite fence_open. rewrite !length_app. cbn [length fenceOpen fenceClose].
    f_equal. f_equal. cbn. lia. }
  assert (Hsecond : exec fenceRe content 8
                    = Some (8 + length body, 12 + length body)%nat).
  { unfold exec. rewrite Hlen.
    destruct (Nat.ltb_spec (12 + length body) 8); [lia|].
    replace (drop 8 content) with (body ++ fenceClose) by reflexivity.
    rewrite (search_to_close body _ 8 Hbody). f_equal. f_equal; lia. }
  assert (Hthird : exec fenceRe content (12 + length body) = None).
  { unfold exec. rewrite Hlen, Nat.ltb_irrefl.
    rewrite <- Hlen, drop_all. reflexivity. }
  rewrite Hlen, execLoop_step, Hfirst, execLoop_step, Hsecond.
  change (execLoop (12 + length body) fenceRe content (12 + length body))
    with (execLoop (S (11 + length body)) fenceRe content (12 + length body)).
  by rewrite execLoop_step, Hthird.
Qed.

Lemma allMatches_plain (body : jsstring) :
  forallb notBacktick body = true -> allMatches fenceRe body = Some [].
Proof.
  intros Hbody. unfold allMatches. rewrite execLoop_step.
  unfold exec. cbn [Nat.ltb Nat.leb charBefore]. rewrite drop_0.
  by rewrite search_no_fence.
Qed.

Lemma trim_fenced (body : jsstring) :
  trim (fenceOpen ++ body ++ fenceClose) = fenceOpen ++ body ++ fenceClose.
Proof.
  unfold trim.
  change (dropWhile isSpace (fenceOpen ++ body ++ fenceClose))
    with (fenceOpen ++ body ++ fenceClose).
  rewrite !rev_app_distr.
  change (rev fenceClose) with ([96; 96; 96; NL] : jsstring).
  change (dropWhile isSpace (([96; 96; 96; NL] ++ rev body) ++ rev fenceOpen))
    with (([96; 96; 96; NL] ++ rev body) ++ rev fenceOpen).
  change ([96; 96; 96; NL] : jsstring) with (rev fenceClose).
  by rewrite <- !rev_app_distr, rev_involutive.
Qed.

End Fences.

(** X28. A JSON answer between code fences is read like the bare answer.
    For a text without backtick, removing the fences from the text put
    between an opening fence with its line feed and a closing fence with
    its line feed gives back the text, and removing the fences from the
    text itself changes nothing; so both selectors read the fenced answer
    as they read the bare one, when it has no white space at its ends. *)
Theorem fenced_answer_reads_like_bare_answer `{Runtime} (body : jsstring) :
  forallb notBacktick body = true ->
  let fenced := fenceOpen ++ body ++ fenceClose in
  stripFences (trim fenced) = Some body
  /\ stripFences body = Some body
  /\ (trim body = body ->
      OpenAILib.readReply fenced = OpenAILib.readReply body
      /\ ChatRoute.readReply fenced = ChatRoute.readReply body).
Proof.
  intros Hbody fenced.
  assert (Hfenced : stripFences (trim fenced) = Some body).
  { unfold fenced. rewrite trim_fenced. unfold stripFences.
    rewrite (allMatches_fenced body Hbody). f_equal.
    unfold cutRanges. cbn [fold_right fst snd].
    assert (Hhead : take (8 + length body) (fenceOpen ++ body ++ fenceClose)
                    = fenceOpen ++ body).
    { rewrite app_assoc. apply take_app_length'. rewrite length_app. reflexivity. }
    assert (Htail : drop (12 + length body) (fenceOpen ++ body ++ fenceClose) = []).
    { apply drop_ge. rewrite !length_app. cbn. lia. }
    rewrite Hhead, Htail, app_nil_r. cbn [take app].
    by apply drop_app_length'. }
  assert (Hplain : stripFences body = Some body).
  { unfold stripFences. by rewrite (allMatches_plain body Hbody). }
  split; [exact Hfenced|]. split; [exact Hplain|].
  intros Htrim. unfold OpenAILib.readReply, ChatRoute.readReply.
  by rewrite Hfenced, Htrim, Hplain.
Qed.

Lemma fenced_answer_reads_like_bare_answer_witness :
  forallb notBacktick sampleReplyText = true
  /\ stripFences (trim (fenceOpen ++ sampleReplyText ++ fenceClose)) = Some sampleReplyText
  /\ OpenAILib.readReply (H := sampleRuntime) (fenceOpen ++ sampleReplyText ++ fenceClose)
     = OpenAILib.readReply (H := sampleRuntime) sampleReplyText.
Proof.
  destruct (fenced_answer_reads_like_bare_answer (H := sampleRuntime) sampleReplyText)
    as (Hstrip & _ & Hread); [reflexivity|].
  split; [reflexivity|]. split; [exact Hstrip|].
  apply Hread. reflexivity.
Defined.

(* ===================================================================== *)
(** ** The test for code files *)
(* ===================================================================== *)

Section LastDot.

Lemma lastIndexOfFrom_absent (c : char) (s : jsstring) : forall i found,
  forallb (fun d => negb (N.eqb d c)) s = true ->
  lastIndexOfFrom c s i found = found.
Proof.
  induction s as [|d s IH]; intros i found Hs; [reflexivity|].
  cbn [forallb] in Hs. apply andb_true_iff in Hs as [Hd Hs].
  cbn [lastIndexOfFrom]. apply negb_true_iff in Hd. rewrite Hd. by apply IH.
Qed.

Lemma lastIndexOfFrom_last (c : char) (a b : jsstring) : forall i found,
  forallb (fun d => negb (N.eqb d c)) b = true ->
  lastIndexOfFrom c (a ++ c :: b) i found = (i + Z.of_nat (length a))%Z.
Proof.
  induction a as [|d a IH]; intros i found Hb.
  - cbn [app lastIndexOfFrom length]. rewrite N.eqb_refl.
    rewrite (lastIndexOfFrom_absent c b _ _ Hb). lia.
  - cbn [app lastIndexOfFrom length]. rewrite (IH _ _ Hb). lia.
Qed.

(** The text from the last dot on; the whole text when there is no dot. *)
Lemma extension_text (stem ext : jsstring) :
  forallb (fun d => negb (N.eqb d DOT)) ext = true ->
  substring (stem ++ DOT :: ext) (lastIndexOf DOT (stem ++ DOT :: ext)) = DOT :: ext.
Proof.
  intros Hext. unfold substring, lastIndexOf.
  rewrite (lastIndexOfFrom_last DOT stem ext _ _ Hext), Z.add_0_l, Nat2Z.id.
  apply drop_app_length.
Qed.

Lemma extension_whole (name : jsstring) :
  forallb (fun d => negb (N.eqb d DOT)) name = true ->
  substring name (lastIndexOf DOT name) = name.
Proof.
  intros Hname. unfold substring, lastIndexOf.
  by rewrite (lastIndexOfFrom_absent DOT name _ _ Hname).
Qed.

End LastDot.

(** X29. The test for code files of the library and of the scan route
    looks at the text from the last dot of the path on, lower-cased:
    directories and earlier dots play no part. A path without dot is
    tested as a whole. *)
Theorem code_file_test_reads_text_after_last_dot `{Runtime}
    (stem ext name : jsstring) :
  forallb (fun d => negb (N.eqb d DOT)) ext = true ->
  forallb (fun d => negb (N.eqb d DOT)) name = true ->
  SecurityLib.isCodeFile (stem ++ DOT :: ext)
  = includesStr SecurityLib.CODE_EXTENSIONS (toLowerCase (DOT :: ext))
  /\ ScanRoute.isCodePath (stem ++ DOT :: ext)
     = includesStr ScanRoute.CODE_EXTENSIONS (toLowerCase (DOT :: ext))
  /\ SecurityLib.isCodeFile name
     = includesStr SecurityLib.CODE_EXTENSIONS (toLowerCase name)
  /\ ScanRoute.isCodePath name
     = includesStr ScanRoute.CODE_EXTENSIONS (toLowerCase name).
Proof.
  intros Hext Hname.
  unfold SecurityLib.isCodeFile, SecurityLib.extensionOf, ScanRoute.isCodePath.
  by rewrite (extension_text stem ext Hext), (extension_whole name Hname).
Qed.

Lemma code_file_test_reads_text_after_last_dot_witness :
  forallb (fun d => negb (N.eqb d DOT)) (str "JS") = true
  /\ forallb (fun d => negb (N.eqb d DOT)) (str "Makefile") = true
  /\ ScanRoute.isCodePath (H := asciiRuntime) (str "src/v1.2/app.min" ++ DOT :: str "JS")
     = includesStr ScanRoute.CODE_EXTENSIONS
         (toLowerCase (Runtime := asciiRuntime) (DOT :: str "JS"))
  /\ ScanRoute.isCodePath (H := asciiRuntime) (str "src/v1.2/app.min" ++ DOT :: str "JS")
     = true.
Proof.
  split; [reflexivity|]. split; [reflexivity|]. split; [|reflexivity].
  apply (code_file_test_reads_text_after_last_dot (H := asciiRuntime)
           (str "src/v1.2/app.min") (str "JS") (str "Makefile")); reflexivity.
Defined.

(** ** The scenarios of the specification, evaluated *)

(** Scenario A: a query that names [index.js]. *)
Example scenario_explicit_selection :
  OpenAILib.analyzeFileSelection (H := asciiRuntime) (fun _ => ReplyError [])
    (str "explain index.js") (treeToString sampleTree []) (str "owner") (str "repo")
  = Some {| files := inl [JStr (str "index.js")];
            reason := Some (JStr (str "Files explicitly mentioned in query"));
            tier := Some (str "explicit") |}.
Proof. vm_compute. reflexivity. Qed.

(** Scenario D: the model call fails. *)
Example scenario_fallback_selection :
  OpenAILib.analyzeFileSelection (H := asciiRuntime) (fun _ => ReplyError (str "timeout"))
    (str "how is the code organised") (treeToString sampleTree []) (str "owner") (str "repo")
  = Some OpenAILib.fallback.
Proof. vm_compute. reflexivity. Qed.

(** Scenario C: three files of 1006 tokens against 2500 tokens. The first
    two are taken whole; the allowance left for the third is 388 tokens,
    so it is listed as skipped. *)
Example scenario_three_files :
  let r := TokensLib.buildContextWithLimit sampleLargeRecords 2500 in
  TokensLib.totalTokens r = 2012%Z
  /\ TokensLib.includedFiles r = [(str "a.js", false); (str "b.js", false)]
  /\ TokensLib.skippedFiles r = [str "c.js"].
Proof. vm_compute. repeat split. Qed.

(** With 2700 tokens the allowance is 588 tokens and the third file is cut. *)
Example scenario_three_files_truncated :
  let r := TokensLib.buildContextWithLimit sampleLargeRecords 2700 in
  TokensLib.includedFiles r
  = [(str "a.js", false); (str "b.js", false); (str "c.js", true)]
  /\ TokensLib.skippedFiles r = []
  /\ length (TokensLib.context r)
     = (2 * 4021 + 20 + 588 * 4 + length TokensLib.truncationMarker + 1)%nat.
Proof. vm_compute. repeat split. Qed.

(** [scanFiles] on the sample source: one critical finding on line 2. *)
Example scenario_scanFiles :
  option_map (List.map (fun f => (f_line f, f_type f, f_severity f)))
    (SecurityLib.scanFiles (H := asciiRuntime)
       [SecurityLib.mkFile (str "config.js") (Some sampleSource)])
  = Some [(2, str "Hardcoded Secret", str "critical")].
Proof. vm_compute. reflexivity. Qed.

(** A request without a body: the scan handler throws where it
    destructures the body, before anything is replied, written or
    closed. *)
Example scenario_post_without_body :
  trace (ScanRoute.handler (H := asciiRuntime) sampleHost (fun _ => Some [])
           (ScanRoute.mkRequest (str "POST") None)) = []
  /\ snd (ScanRoute.handler (H := asciiRuntime) sampleHost (fun _ => Some [])
            (ScanRoute.mkRequest (str "POST") None))
     <> Ok tt.
Proof. split; [reflexivity|discriminate]. Qed.

(** A level with a file, a link and another file: the comparator answers
    1 for the file against the link and for the link against the file, so
    it is no consistent comparison of the three, and the order the sort
    leaves them in is the engine's. *)
Example scenario_inconsistent_level :
  let node (nm ty : string) := mkNode (str nm) (str nm) (str ty) 0 None in
  let file := node "z.txt"%string "file"%string in
  let link := node "link"%string "symlink"%string in
  let other := node "a.txt"%string "file"%string in
  compareNodes (H := asciiRuntime) file link = 1%Z
  /\ compareNodes (H := asciiRuntime) link file = 1%Z
  /\ consistentOn (compareNodes (H := asciiRuntime)) [file; link; other] = false.
Proof. vm_compute. repeat split; reflexivity. Qed.
